(** * Session and polling core of the Fabits MCP server

    A shallow embedding of the credential store ([TokenManager]), the silent
    token refresh with its shared in-flight promise ([silentRefreshToken]),
    the response interceptor installed by [createAuthenticatedClient], and the
    two polling loops of the investment module ([pollPaymentStatus],
    [pollMandateStatus]), then of the tools that change the session
    ([refreshAccessToken], [logout], [activateAccount]), the phone number
    format and the one-shot payment check ([checkPaymentStatus]), followed
    by the properties proved about them.

    Conventions.
    - A JavaScript value that may be [undefined] is an [option]; the strings
      the code tests for truthiness keep the empty string as a falsy value.
    - An [async] function is a computation over the state it touches that
      either returns a value or throws ([Result]); [try]/[catch] is
      [try_catch].
    - The remote platform and the file system are oracles: reply streams
      indexed by the number of calls made so far, and a [writable] flag on the
      disk.
    - A decoded token that is [null] is [None]; reading a field of it
      throws. *)

From Stdlib Require Import ZArith Ascii String List Bool Lia.
From stdpp Require Import base option gmap.
Import ListNotations.
Local Open Scope string_scope.
Local Open Scope Z_scope.

(* ================================================================== *)
(** * JavaScript values, errors and effects *)
(* ================================================================== *)

(** Truthiness of a possibly-undefined string: [undefined], [null] and the
    empty string are falsy. *)
Definition truthy (v : option string) : bool :=
  match v with
  | Some s => negb (String.eqb s "")
  | None => false
  end.

(** The string behind a value already tested truthy. *)
Definition value_of (v : option string) : string :=
  match v with
  | Some s => s
  | None => ""
  end.

(** [a || b] on possibly-undefined strings. *)
Definition js_or (a b : option string) : option string :=
  if truthy a then a else b.

(** [hay.includes(needle)]. *)
Fixpoint includes (needle hay : string) : bool :=
  String.prefix needle hay ||
  match hay with
  | EmptyString => false
  | String _ rest => includes needle rest
  end.

(** Thrown values.  [Err m] is [new Error(m)]; [AxiosError st] is a rejection
    produced by axios, with [st] the value of [error.response?.status]
    ([None] when there is no response: network failure, timeout). *)
Inductive JsError :=
| Err (message : string)
| AxiosError (status : option Z).

(** [axios.isAxiosError(error)]. *)
Definition isAxiosError (e : JsError) : bool :=
  match e with AxiosError _ => true | Err _ => false end.

(** [error.response?.status === n]. *)
Definition status_is (e : JsError) (n : Z) : bool :=
  match e with
  | AxiosError (Some st) => st =? n
  | _ => false
  end.

(** [error.message === m].  The messages axios writes ("Network Error",
    "timeout of 30000ms exceeded", "Request failed with status code N") are
    never one of the sentinels the code compares with. *)
Definition message_is (e : JsError) (m : string) : bool :=
  match e with
  | Err m' => String.eqb m' m
  | AxiosError _ => false
  end.

Definition error_text (e : JsError) : string :=
  match e with
  | Err m => m
  | AxiosError _ => "Request failed"
  end.

Inductive Result (A : Type) :=
| Ok (a : A)
| Throw (e : JsError).
Arguments Ok {A} a.
Arguments Throw {A} e.

(** Computations over a state [S] that return or throw. *)
Definition M (S A : Type) : Type := S -> Result A * S.

Definition ret {S A} (a : A) : M S A := fun s => (Ok a, s).
Definition throw {S A} (e : JsError) : M S A := fun s => (Throw e, s).
Definition bind {S A B} (m : M S A) (k : A -> M S B) : M S B :=
  fun s => match m s with
           | (Ok a, s') => k a s'
           | (Throw e, s') => (Throw e, s')
           end.
Definition try_catch {S A} (m : M S A) (handler : JsError -> M S A) : M S A :=
  fun s => match m s with
           | (Ok a, s') => (Ok a, s')
           | (Throw e, s') => handler e s'
           end.

Notation "'let*' x ':=' m 'in' k" := (bind m (fun x => k))
  (at level 10, x name, m at level 200, k at level 200).

(** A reply of the remote platform to one [axios.post]: resolved with the
    response body, or rejected by axios. *)
Inductive Reply (B : Type) :=
| Response (data : B)
| Rejected (status : option Z).
Arguments Response {B} data.
Arguments Rejected {B} status.

(* ================================================================== *)
(** * Credential store: [TokenManager] *)
(* ================================================================== *)

(** [interface AuthToken].  [token] and [phoneNumber] are declared
    mandatory, but the object read back from a cleared file ([{}]) has
    neither, so every field is optional here. *)
Record AuthToken := mkAuthToken {
  token : option string;
  refreshToken : option string;
  phoneNumber : option string;
  expiresAt : option string;
  clientCode : option string;
  panNumber : option string
}.

(** [JSON.parse('{}')]. *)
Definition emptyObject : AuthToken := mkAuthToken None None None None None None.

(** The token file.  [Json t] is a file whose text parses to the object
    [t] ([JSON.stringify] followed by [JSON.parse] is the identity on
    objects with optional string fields). *)
Inductive FileContents :=
| NoFile
| Garbage
| Json (t : AuthToken).

Record Disk := mkDisk {
  contents : FileContents;
  writable : bool          (* whether [mkdir]/[writeFile] succeed *)
}.

Record TokenManager := mkTokenManager {
  cachedToken : option AuthToken;
  disk : Disk
}.

Definition set_cache (c : option AuthToken) : M TokenManager unit :=
  fun tm => (Ok tt, mkTokenManager c (disk tm)).

(** [await mkdir(dirname(tokenFile), {recursive: true});
     await writeFile(tokenFile, JSON.stringify(t, null, 2), 'utf-8')]. *)
Definition writeFile (t : AuthToken) : M TokenManager unit :=
  fun tm =>
    if writable (disk tm)
    then (Ok tt, mkTokenManager (cachedToken tm) (mkDisk (Json t) true))
    else (Throw (Err "EACCES"), tm).

(** [JSON.parse(await readFile(tokenFile, 'utf-8'))]. *)
Definition readFile : M TokenManager AuthToken :=
  fun tm =>
    match contents (disk tm) with
    | Json t => (Ok t, tm)
    | NoFile => (Throw (Err "ENOENT"), tm)
    | Garbage => (Throw (Err "Unexpected token"), tm)
    end.

Definition saveToken (t : AuthToken) : M TokenManager unit :=
  try_catch
    (let* _ := writeFile t in
     set_cache (Some t))
    (fun error => throw (Err (String.append "Failed to save token: " (error_text error)))).

Definition loadToken : M TokenManager (option AuthToken) :=
  fun tm =>
    match cachedToken tm with
    | Some t => (Ok (Some t), tm)
    | None =>
        try_catch
          (let* t := readFile in
           let* _ := set_cache (Some t) in
           ret (Some t))
          (fun _ => ret None) tm
    end.

Definition clearToken : M TokenManager unit :=
  let* _ := set_cache None in
  try_catch (writeFile emptyObject) (fun _ => ret tt).

Definition NOT_AUTHENTICATED : string :=
  "Not authenticated. Please login first using fabits_request_otp and fabits_verify_otp".

Definition requireToken : M TokenManager string :=
  let* tokenData := loadToken in
  match tokenData with
  | Some td =>
      if truthy (token td)
      then ret (value_of (token td))
      else throw (Err NOT_AUTHENTICATED)
  | None => throw (Err NOT_AUTHENTICATED)
  end.

(* ================================================================== *)
(** * Silent refresh: the body of [silentRefreshToken] *)
(* ================================================================== *)

(** The fields of the decoded JWT payload the refresh reads.  [decodeJWT]
    returns [{}] (all fields absent) when the token cannot be decoded. *)
Record DecodedJWT := mkDecoded {
  jwt_phoneNumber : option string;
  jwt_uid : option string;
  jwt_panNumber : option string
}.

(** [decodeJWT] returns whatever [JSON.parse] makes of the payload.  For
    the payload text [null] that is [null], modelled by [None]: the first
    field read from it, [decodedToken.phoneNumber], throws a TypeError.
    Every other value is read at the three fields. *)
Definition NULL_PROPERTY : string :=
  "Cannot read properties of null (reading 'phoneNumber')".

Definition claims_of {S} (decodedToken : option DecodedJWT) : M S DecodedJWT :=
  match decodedToken with
  | Some claims => ret claims
  | None => throw (Err NULL_PROPERTY)
  end.

(** [interface LoginResponse], as far as the refresh reads it. *)
Record LoginResponse := mkLoginResponse {
  access_token : option string;
  refresh_token : option string
}.

Definition maxRetries : Z := 3.

Definition REFRESH_TOKEN_MISSING : string := "REFRESH_TOKEN_MISSING".
Definition REFRESH_TOKEN_EXPIRED : string := "REFRESH_TOKEN_EXPIRED".
Definition REFRESH_FAILED : string := "REFRESH_FAILED".

(** The asynchronous function expression stored in [refreshTokenPromise]
    suspends at three places; a suspended execution is a [Driver]. *)
Inductive Driver :=
| AwaitLoad
    (* [await tokenManager.loadToken()] *)
| AwaitPause (attempt : Z) (tokenData : AuthToken) (lastError : option JsError)
    (* [await new Promise(resolve => setTimeout(resolve, 1000))] *)
| AwaitPost (attempt : Z) (tokenData : AuthToken) (lastError : option JsError).
    (* [await axios.post(REFRESH_TOKEN, {refresh_token})]: one call in transit *)

(** What wakes a suspended execution up. *)
Inductive Input :=
| Resumed                                   (* the load finished, the timer fired *)
| Replied (r : Reply LoginResponse).        (* the remote platform answered *)

(** Where an execution stands after running to its next suspension. *)
Inductive Progress :=
| Continue (d : Driver)
| Settle (r : Result string).

Section Embedding.

Variable decodeJWT : string -> option DecodedJWT.

(** Lines 352-371: the part of the [try] block that follows the reply.
    The TypeError of a null decoded token is thrown while the new record is
    built, before anything is saved. *)
Definition on_response (tokenData : AuthToken) (data : LoginResponse)
  : M TokenManager string :=
  if negb (truthy (access_token data)) then throw (Err REFRESH_FAILED)
  else
    let decodedToken := decodeJWT (value_of (access_token data)) in
    let* claims := claims_of decodedToken in
    let updatedAuthToken :=
      {| token := access_token data;
         refreshToken := js_or (refresh_token data) (refreshToken tokenData);
         phoneNumber := js_or (jwt_phoneNumber claims) (phoneNumber tokenData);
         expiresAt := None;
         clientCode := js_or (jwt_uid claims) (clientCode tokenData);
         panNumber := js_or (jwt_panNumber claims) (panNumber tokenData) |} in
    let* _ := saveToken updatedAuthToken in
    ret (value_of (token updatedAuthToken)).

(** The head of the [for] loop, entered with [attempt]: the loop test, then
    either the pause of a retry or the post itself.  The second component
    counts the [axios.post] calls issued (0 or 1).  After the loop:
    [throw lastError || new Error('REFRESH_FAILED')]. *)
Definition enter_attempt (attempt : Z) (tokenData : AuthToken)
    (lastError : option JsError) : Progress * nat :=
  if attempt <=? maxRetries then
    if attempt >? 1
    then (Continue (AwaitPause attempt tokenData lastError), 0%nat)
    else (Continue (AwaitPost attempt tokenData lastError), 1%nat)
  else
    (Settle (Throw (match lastError with
                    | Some e => e
                    | None => Err REFRESH_FAILED
                    end)), 0%nat).

(** Lines 372-386: the [catch] block of one attempt. *)
Definition on_attempt_error (attempt : Z) (tokenData : AuthToken)
    (error : JsError) : Progress * nat :=
  if isAxiosError error && (status_is error 401 || status_is error 403)
  then (Settle (Throw (Err REFRESH_TOKEN_EXPIRED)), 0%nat)
  else if isAxiosError error && status_is error 400
  then (Settle (Throw (Err REFRESH_FAILED)), 0%nat)
  else enter_attempt (attempt + 1) tokenData (Some error).

(** Lines 340-371: what the [try] block does once the post is answered. *)
Definition after_post (tokenData : AuthToken) (r : Reply LoginResponse)
  : M TokenManager string :=
  match r with
  | Response data => on_response tokenData data
  | Rejected st => throw (AxiosError st)
  end.

(** One run of a suspended execution to its next suspension or to its end
    (the [finally] block is the machine's, see [step]).  The file operations
    inside [loadToken] and [saveToken] are part of the step that calls them.
    [None]: the input is not the one the execution waits for. *)
Definition driver_step (d : Driver) (i : Input) (tm : TokenManager)
  : option (Progress * nat * TokenManager) :=
  match d, i with
  | AwaitLoad, Resumed =>
      match loadToken tm with
      | (Ok (Some tokenData), tm') =>
          if truthy (refreshToken tokenData)
          then Some (enter_attempt 1 tokenData None, tm')
          else Some (Settle (Throw (Err REFRESH_TOKEN_MISSING)), 0%nat, tm')
      | (Ok None, tm') =>
          Some (Settle (Throw (Err REFRESH_TOKEN_MISSING)), 0%nat, tm')
      | (Throw e, tm') => Some (Settle (Throw e), 0%nat, tm')
      end
  | AwaitPause attempt tokenData lastError, Resumed =>
      Some (Continue (AwaitPost attempt tokenData lastError), 1%nat, tm)
  | AwaitPost attempt tokenData lastError, Replied r =>
      match after_post tokenData r tm with
      | (Ok newToken, tm') => Some (Settle (Ok newToken), 0%nat, tm')
      | (Throw error, tm') => Some (on_attempt_error attempt tokenData error, tm')
      end
  | _, _ => None
  end.

(* ------------------------------------------------------------------ *)
(** ** One caller at a time *)

(** The state a single logical request works on: the store and how many
    calls went out so far. *)
Record World := mkWorld {
  tm : TokenManager;
  refresh_posts : nat;      (* [axios.post] calls to the refresh endpoint *)
  renewals : nat;           (* executions of the refresh body started *)
  api_requests : nat        (* requests sent through the wrapped client *)
}.

(** The input a suspended execution receives when nothing else runs: the
    reply to the post it issued last. *)
Definition input_for (replies : nat -> Reply LoginResponse) (d : Driver)
    (w : World) : Input :=
  match d with
  | AwaitPost _ _ _ => Replied (replies (Nat.pred (refresh_posts w)))
  | _ => Resumed
  end.

Fixpoint drive (fuel : nat) (replies : nat -> Reply LoginResponse)
    (d : Driver) (w : World) : option (Result string * World) :=
  match fuel with
  | O => None
  | S fuel' =>
      match driver_step d (input_for replies d w) (tm w) with
      | Some (Continue d', n, tm') =>
          drive fuel' replies d'
            (mkWorld tm' (refresh_posts w + n) (renewals w) (api_requests w))
      | Some (Settle r, n, tm') =>
          Some (r, mkWorld tm' (refresh_posts w + n) (renewals w) (api_requests w))
      | None => None
      end
  end.

(** [await silentRefreshToken(tokenManager)] when no refresh is in progress
    and no other caller arrives before it settles: the caller starts the
    execution and receives its outcome; [refreshTokenPromise] is null again
    afterwards (callers that overlap are the subject of [Machine] below).
    Six suspensions are the most an execution goes through: the load, three
    posts and the two pauses between them. *)
Definition silentRefreshToken (replies : nat -> Reply LoginResponse) (w : World)
  : option (Result string * World) :=
  drive 6 replies AwaitLoad
    (mkWorld (tm w) (refresh_posts w) (S (renewals w)) (api_requests w)).

(* ================================================================== *)
(** * Request executor: the interceptor of [createAuthenticatedClient] *)
(* ================================================================== *)

(** The request configuration, as far as the interceptor touches it. *)
Record RequestConfig := mkConfig {
  authorization : string;          (* [headers['Authorization']] *)
  retry_flag : bool                (* [_retry] *)
}.

Definition SESSION_EXPIRED : string :=
  "Session Expired. Your refresh token has expired. Please login again: 1. Use fabits_request_otp with your phone number 2. Use fabits_verify_otp with the OTP you receive".
Definition ACCESS_TOKEN_EXPIRED : string :=
  "Access Token Expired. Your access token has expired. Try: 1. Use fabits_refresh_token to refresh your session 2. If that fails, login again with fabits_request_otp".

Definition bearer (t : string) : string := String.append "Bearer " t.

Section Client.

Context {B : Type}.
(** The remote platform: its reply to the n-th request, given the
    authorization header the request carries. *)
Variable api : nat -> string -> Reply B.
Variable replies : nat -> Reply LoginResponse.

(** [client(originalRequest)]: send, then run the response interceptor.
    The retry is [return client(originalRequest)] inside the [try] block
    without [await], so what the retried request rejects with does not pass
    through the [catch] block. *)
Fixpoint client (fuel : nat) (originalRequest : RequestConfig) (w : World)
  : option (Result B * World) :=
  match fuel with
  | O => None
  | S fuel' =>
      let w1 := mkWorld (tm w) (refresh_posts w) (renewals w) (S (api_requests w)) in
      match api (api_requests w) (authorization originalRequest) with
      | Response data => Some (Ok data, w1)
      | Rejected st =>
          let error := AxiosError st in
          if (status_is error 401 || status_is error 403)
             && negb (retry_flag originalRequest)
          then
            match silentRefreshToken replies w1 with
            | None => None
            | Some (Ok newToken, w2) =>
                client fuel' (mkConfig (bearer newToken) true) w2
            | Some (Throw refreshError, w2) =>
                if message_is refreshError REFRESH_TOKEN_EXPIRED
                then
                  let (_, tm') := clearToken (tm w2) in
                  Some (Throw (Err SESSION_EXPIRED),
                        mkWorld tm' (refresh_posts w2) (renewals w2) (api_requests w2))
                else Some (Throw (Err ACCESS_TOKEN_EXPIRED), w2)
            end
          else Some (Throw error, w1)
      end
  end.

(** One logical request: [createAuthenticatedClient] followed by one call
    of the client it returns. *)
Definition authenticated_request (fuel : nat) (w : World)
  : option (Result B * World) :=
  match requireToken (tm w) with
  | (Ok t, tm') =>
      client fuel (mkConfig (bearer t) false)
        (mkWorld tm' (refresh_posts w) (renewals w) (api_requests w))
  | (Throw e, tm') =>
      Some (Throw e, mkWorld tm' (refresh_posts w) (renewals w) (api_requests w))
  end.

End Client.

(** The two ways the interceptor treats a failed refresh: the branch on
    [refreshError.message === 'REFRESH_TOKEN_EXPIRED']. *)
Inductive RenewalClass :=
| RenewalCredentialExpired
| RenewalFailed.

Definition classify (refreshError : JsError) : RenewalClass :=
  if message_is refreshError REFRESH_TOKEN_EXPIRED
  then RenewalCredentialExpired
  else RenewalFailed.

(* ================================================================== *)
(** * Callers that overlap: the shared promise *)
(* ================================================================== *)

(** The module state of the refresh and the promises it created.  Promises
    are numbered in creation order.  A pending promise is owned by the
    suspended execution that will settle it. *)
Record Machine := mkMachine {
  store : TokenManager;
  refreshTokenPromise : option nat;
  next_promise : nat;
  pending : gmap nat Driver;
  settled : gmap nat (Result string);
  outbound : nat;                    (* refresh posts issued so far *)
  returned : list (nat * nat)        (* (caller, promise) of every call, latest first *)
}.

Inductive Event :=
| Renew (caller : nat)               (* a call of [silentRefreshToken] *)
| Wake (p : nat) (i : Input).        (* the execution behind promise [p] resumes *)

(** The event loop runs one task at a time: a call runs to its first
    suspension (the assignment to [refreshTokenPromise] included, because
    the function expression suspends at its first [await] before any other
    task can run); a resumed execution runs to its next suspension, or to
    its [finally] block and the settlement of its promise. *)
Definition step (m : Machine) (e : Event) : option Machine :=
  match e with
  | Renew c =>
      match refreshTokenPromise m with
      | Some p =>
          Some (mkMachine (store m) (Some p) (next_promise m) (pending m)
                  (settled m) (outbound m) ((c, p) :: returned m))
      | None =>
          let p := next_promise m in
          Some (mkMachine (store m) (Some p) (S p) (<[p := AwaitLoad]> (pending m))
                  (settled m) (outbound m) ((c, p) :: returned m))
      end
  | Wake p i =>
      match pending m !! p with
      | None => None
      | Some d =>
          match driver_step d i (store m) with
          | None => None
          | Some (Continue d', n, tm') =>
              Some (mkMachine tm' (refreshTokenPromise m) (next_promise m)
                      (<[p := d']> (pending m)) (settled m)
                      (outbound m + n) (returned m))
          | Some (Settle r, n, tm') =>
              Some (mkMachine tm' None (next_promise m)
                      (delete p (pending m)) (<[p := r]> (settled m))
                      (outbound m + n) (returned m))
          end
      end
  end.

Fixpoint run (m : Machine) (evs : list Event) : option Machine :=
  match evs with
  | [] => Some m
  | e :: evs' =>
      match step m e with
      | Some m' => run m' evs'
      | None => None
      end
  end.

(** A run during which a refresh stays in progress: the handle is set after
    every event. *)
Fixpoint run_in_flight (m : Machine) (evs : list Event) : option Machine :=
  match evs with
  | [] => Some m
  | e :: evs' =>
      match step m e with
      | Some m' =>
          match refreshTokenPromise m' with
          | Some _ => run_in_flight m' evs'
          | None => None
          end
      | None => None
      end
  end.

Definition boot (tm0 : TokenManager) : Machine :=
  mkMachine tm0 None 0 ∅ ∅ 0 [].

Definition reachable (m : Machine) : Prop :=
  exists tm0 evs, run (boot tm0) evs = Some m.

(** The callers of a list of events. *)
Fixpoint callers (evs : list Event) : list nat :=
  match evs with
  | [] => []
  | Renew c :: evs' => c :: callers evs'
  | Wake _ _ :: evs' => callers evs'
  end.

(** What the call that was handed promise [p] receives once [p] settles. *)
Definition delivered (m : Machine) (p : nat) : option (Result string) :=
  settled m !! p.

Definition is_post (d : Driver) : bool :=
  match d with AwaitPost _ _ _ => true | _ => false end.

(** Refresh posts in transit: executions suspended on [axios.post]. *)
Definition in_transit (m : Machine) : nat :=
  length (filter (fun pd => is_post (snd pd) = true) (map_to_list (pending m))).

End Embedding.

(* ================================================================== *)
(** * Polling: [pollPaymentStatus] and [pollMandateStatus] *)
(* ================================================================== *)

(** What a polling call touches: the probes it sent and the time it slept. *)
Record PollWorld := mkPollWorld {
  probes : nat;
  slept : Z
}.

(** [await client.post(endpoint, payload)]: the n-th probe of the call
    site; [None] as response body is a null or missing [response.data]. *)
Definition post {B} (probe : nat -> Reply B) : M PollWorld B :=
  fun w =>
    let w' := mkPollWorld (S (probes w)) (slept w) in
    match probe (probes w) with
    | Response data => (Ok data, w')
    | Rejected st => (Throw (AxiosError st), w')
    end.

(** [await new Promise((resolve) => setTimeout(resolve, intervalMs))]. *)
Definition sleep (intervalMs : Z) : M PollWorld unit :=
  fun w => (Ok tt, mkPollWorld (probes w) (slept w + Z.max 0 intervalMs)).

Definition TYPE_ERROR : string := "TypeError: Cannot read properties of undefined".

(** The object both polling functions return. *)
Record PollResult (D : Type) := mkPollResult {
  success : bool;
  status : string;
  data : D
}.
Arguments mkPollResult {D} success status data.
Arguments success {D} p.
Arguments status {D} p.
Arguments data {D} p.

(** How one iteration of a polling loop ends. *)
Inductive Iteration (A : Type) :=
| Return (a : A)          (* a [return] inside the loop body *)
| Next.                   (* fall through to the next iteration *)
Arguments Return {A} a.
Arguments Next {A}.

(** [v === s] for a possibly-undefined string [v]. *)
Definition str_is (v : option string) (s : string) : bool :=
  match v with
  | Some s' => String.eqb s' s
  | None => false
  end.

(** [v?.includes(marker)] used as a condition. *)
Definition opt_includes (v : option string) (marker : string) : bool :=
  match v with
  | Some s => includes marker s
  | None => false
  end.

(** [for (let attempt = 1; attempt <= maxAttempts; attempt++) { ... }]
    followed by the [return] of the timeout object, entered with [attempt].
    The two polling functions have this loop in common; they differ in the
    iteration and in the timeout object.  [None]: the fuel ran out before
    the loop ended. *)
Fixpoint poll_loop {R : Type} (fuel : nat) (iteration : M PollWorld (Iteration R))
    (timeout : R) (maxAttempts attempt : Z) (w : PollWorld)
  : option (Result R * PollWorld) :=
  match fuel with
  | O => None
  | S fuel' =>
      if attempt <=? maxAttempts then
        match iteration w with
        | (Ok (Return r), w') => Some (Ok r, w')
        | (Ok Next, w') => poll_loop fuel' iteration timeout maxAttempts (attempt + 1) w'
        | (Throw e, w') => Some (Throw e, w')
        end
      else Some (Ok timeout, w)
  end.

(* ------------------------------------------------------------------ *)
(** ** Payment status *)

(** The body of a payment-status response. *)
Record PaymentBody := mkPaymentBody {
  pay_status : option string;       (* [response.data.status] *)
  pay_data : option string          (* [response.data.data] *)
}.

Definition payment_approved (b : PaymentBody) : bool :=
  str_is (pay_status b) "SUCCESS" && opt_includes (pay_data b) "100|".

Definition payment_rejected (b : PaymentBody) : bool :=
  str_is (pay_status b) "FAILURE" && opt_includes (pay_data b) "101|".

Definition PAYMENT_TIMEOUT : PollResult string :=
  mkPollResult false "TIMEOUT"
    "Payment status could not be confirmed within the timeout period".

(** Lines 599-636: the [try]/[catch] statement of one iteration. *)
Definition payment_iteration (probe : nat -> Reply (option PaymentBody))
    (intervalMs : Z) : M PollWorld (Iteration (PollResult string)) :=
  try_catch
    (let* response_data := post probe in
     match response_data with
     | None => throw (Err TYPE_ERROR)
     | Some b =>
         if payment_approved b
         then ret (Return (mkPollResult true "APPROVED" (value_of (pay_data b))))
         else if payment_rejected b
         then ret (Return (mkPollResult false "REJECTED" (value_of (pay_data b))))
         else
           let* _ := sleep intervalMs in
           ret Next
     end)
    (fun error =>
       let* _ := sleep intervalMs in
       ret Next).

Definition pollPaymentStatus (probe : nat -> Reply (option PaymentBody))
    (maxAttempts intervalMs : Z) (w : PollWorld)
  : option (Result (PollResult string) * PollWorld) :=
  poll_loop (S (Z.to_nat maxAttempts)) (payment_iteration probe intervalMs)
    PAYMENT_TIMEOUT maxAttempts 1 w.

(* ------------------------------------------------------------------ *)
(** ** Mandate status *)

(** One entry of [MandateDetails]; [mandate_ref] stands for the fields the
    loop does not read. *)
Record MandateDetail := mkMandateDetail {
  detail_status : option string;
  mandate_ref : string
}.

(** [response.data.data]. *)
Record MandateInner := mkMandateInner {
  inner_details : option (list MandateDetail);   (* [.MandateDetails] *)
  inner_status : option string                   (* [.mandateStatus] *)
}.

(** [response.data]. *)
Record MandateBody := mkMandateBody {
  body_details : option (list MandateDetail);    (* [.MandateDetails] *)
  body_inner : option MandateInner               (* [.data] *)
}.

(** The [data] field of the object returned. *)
Inductive MandateData :=
| Detail (d : MandateDetail)
| Inner (i : MandateInner)
| Text (s : string)
| Undefined.

(** [x?.MandateDetails?.[0]]. *)
Definition first_detail (details : option (list MandateDetail))
  : option MandateDetail :=
  match details with
  | Some (d :: _) => Some d
  | _ => None
  end.

(** [a || b] on possibly-undefined objects. *)
Definition obj_or {A} (a b : option A) : option A :=
  match a with
  | Some x => Some x
  | None => b
  end.

(** [response.data?.MandateDetails?.[0] || response.data?.data?.MandateDetails?.[0]]. *)
Definition mandateDetails_of (response_data : option MandateBody)
  : option MandateDetail :=
  obj_or
    (first_detail (b ← response_data; body_details b))
    (first_detail (b ← response_data; i ← body_inner b; inner_details i)).

(** [mandateDetails?.status || response.data?.data?.mandateStatus]. *)
Definition mandateStatus_of (response_data : option MandateBody)
  : option string :=
  js_or
    (d ← mandateDetails_of response_data; detail_status d)
    (b ← response_data; i ← body_inner b; inner_status i).

(** [mandateDetails || response.data.data]; reading [.data] of a null
    [response.data] throws. *)
Definition mandate_payload (response_data : option MandateBody)
  : M PollWorld MandateData :=
  match mandateDetails_of response_data with
  | Some d => ret (Detail d)
  | None =>
      match response_data with
      | None => throw (Err TYPE_ERROR)
      | Some b =>
          match body_inner b with
          | Some i => ret (Inner i)
          | None => ret Undefined
          end
      end
  end.

Definition mandate_approved (mandateStatus : option string) : bool :=
  str_is mandateStatus "RECEIVED BY EXCHANGE"
  || str_is mandateStatus "APPROVED"
  || str_is mandateStatus "UNDER PROCESSING".

Definition mandate_failed (mandateStatus : option string) : bool :=
  str_is mandateStatus "FAILED" || str_is mandateStatus "REJECTED".

Definition MANDATE_TIMEOUT : PollResult MandateData :=
  mkPollResult false "TIMEOUT"
    (Text "Mandate status could not be confirmed within the timeout period").

(** Lines 1094-1149: the [try]/[catch] statement of one iteration. *)
Definition mandate_iteration (probe : nat -> Reply (option MandateBody))
    (intervalMs : Z) : M PollWorld (Iteration (PollResult MandateData)) :=
  try_catch
    (let* response_data := post probe in
     let mandateStatus := mandateStatus_of response_data in
     if mandate_approved mandateStatus
     then
       let* payload := mandate_payload response_data in
       ret (Return (mkPollResult true (value_of mandateStatus) payload))
     else if mandate_failed mandateStatus
     then
       let* payload := mandate_payload response_data in
       ret (Return (mkPollResult false (value_of mandateStatus) payload))
     else
       let* _ := sleep intervalMs in
       ret Next)
    (fun error =>
       let* _ := sleep intervalMs in
       ret Next).

Definition pollMandateStatus (probe : nat -> Reply (option MandateBody))
    (maxAttempts intervalMs : Z) (w : PollWorld)
  : option (Result (PollResult MandateData) * PollWorld) :=
  poll_loop (S (Z.to_nat maxAttempts)) (mandate_iteration probe intervalMs)
    MANDATE_TIMEOUT maxAttempts 1 w.

(** The three outcomes a caller tells apart: [result.success], then
    [result.status === 'TIMEOUT'] (for payments [=== 'REJECTED'], the
    remaining case being the timeout). *)
Inductive Outcome :=
| Success
| Failure
| Timeout.

Definition payment_outcome (r : PollResult string) : Outcome :=
  if success r then Success
  else if String.eqb (status r) "REJECTED" then Failure
  else Timeout.

Definition mandate_outcome (r : PollResult MandateData) : Outcome :=
  if success r then Success
  else if String.eqb (status r) "TIMEOUT" then Timeout
  else Failure.

(* ================================================================== *)
(** * Scenarios *)
(* ================================================================== *)

(** A reply stream that follows a list and then repeats a last reply. *)
Definition stream {A} (l : list A) (last : A) : nat -> A :=
  fun n => nth n l last.

(** A decoder for tokens that carry no identity claims. *)
Definition noClaims : string -> option DecodedJWT :=
  fun _ => Some (mkDecoded None None None).

(** The record written by a login that received bearer [b1] and renewal
    credential [r1]. *)
Definition loggedIn : AuthToken :=
  mkAuthToken (Some "b1") (Some "r1") (Some "+919876543210") None
    (Some "CLIENT1") (Some "ABCDE1234F").

Definition emptyDisk : Disk := mkDisk NoFile true.

Definition freshManager : TokenManager := mkTokenManager None emptyDisk.

(** The manager right after that login. *)
Definition sessionManager : TokenManager :=
  mkTokenManager (Some loggedIn) (mkDisk (Json loggedIn) true).

Definition sessionWorld : World := mkWorld sessionManager 0 0 0.

Definition renewed : LoginResponse := mkLoginResponse (Some "b2") (Some "r2").

(** The record and the state Scenario A ends in. *)
Definition renewedRecord : AuthToken :=
  mkAuthToken (Some "b2") (Some "r2") (Some "+919876543210") None
    (Some "CLIENT1") (Some "ABCDE1234F").

Definition clearedManager : TokenManager :=
  mkTokenManager None (mkDisk (Json emptyObject) true).

Definition renewedManager : TokenManager :=
  mkTokenManager (Some renewedRecord) (mkDisk (Json renewedRecord) true).

Definition renewedWorld : World :=
  mkWorld (mkTokenManager (Some renewedRecord) (mkDisk (Json renewedRecord) true))
    1 1 0.

Definition pollStart : PollWorld := mkPollWorld 0 0.

Definition pendingPayment : Reply (option PaymentBody) :=
  Response (Some (mkPaymentBody (Some "SUCCESS") (Some "pending"))).

Definition approvedPayment : Reply (option PaymentBody) :=
  Response (Some (mkPaymentBody (Some "SUCCESS") (Some "100|approved"))).

Definition newMandate : Reply (option MandateBody) :=
  Response (Some (mkMandateBody
                    (Some [mkMandateDetail (Some "NEW") "M-1"]) None)).

(** A platform that rejects every request with 401. *)
Definition alwaysUnauthorized : nat -> string -> Reply string :=
  fun _ _ => Rejected (Some 401).

(** One caller, one refresh that succeeds at the first attempt. *)
Definition oneRefresh : list Event :=
  [Renew 1; Wake 0 Resumed; Wake 0 (Replied (Response renewed))].

(** Two callers overlap a refresh whose first post is answered 500 and
    whose second post succeeds. *)
Definition twoCallersOneRetry : list Event :=
  [Renew 1; Renew 2; Wake 0 Resumed; Wake 0 (Replied (Rejected (Some 500)));
   Wake 0 Resumed].

(* ================================================================== *)
(** * Vocabulary of the proofs *)
(* ================================================================== *)

(** A rejection the refresh treats as transient: no response at all, or a
    status other than 400, 401 and 403. *)
Definition transient (st : option Z) : bool :=
  negb (status_is (AxiosError st) 401 || status_is (AxiosError st) 403
        || status_is (AxiosError st) 400).

(** A rejection with status 401 or 403. *)
Definition unauthorized (st : option Z) : bool :=
  status_is (AxiosError st) 401 || status_is (AxiosError st) 403.

(** The suspended executions the loop can produce. *)
Definition wf_driver (d : Driver) : Prop :=
  match d with
  | AwaitLoad => True
  | AwaitPause attempt _ _ => 2 <= attempt <= maxRetries
  | AwaitPost attempt _ _ => 1 <= attempt <= maxRetries
  end.

(** Suspensions an execution can still go through. *)
Definition steps_left (d : Driver) : nat :=
  match d with
  | AwaitLoad => 6
  | AwaitPause attempt _ _ => Z.to_nat (2 * (maxRetries - attempt) + 2)
  | AwaitPost attempt _ _ => Z.to_nat (2 * (maxRetries - attempt) + 1)
  end.

(** Posts an execution has issued when it is suspended at [d]. *)
Definition posts_made (d : Driver) : nat :=
  match d with
  | AwaitLoad => 0
  | AwaitPause attempt _ _ => Z.to_nat (attempt - 1)
  | AwaitPost attempt _ _ => Z.to_nat attempt
  end.

(** The record an execution suspended inside the loop works from. *)
Definition tokenData_of (d : Driver) : option AuthToken :=
  match d with
  | AwaitLoad => None
  | AwaitPause _ tokenData _ => Some tokenData
  | AwaitPost _ tokenData _ => Some tokenData
  end.

(** The replacement record a successful refresh writes, [claims] being
    the decoded new bearer credential. *)
Definition replacement (claims : DecodedJWT) (old : AuthToken)
    (data : LoginResponse) : AuthToken :=
  mkAuthToken (access_token data)
    (js_or (refresh_token data) (refreshToken old))
    (js_or (jwt_phoneNumber claims) (phoneNumber old))
    None
    (js_or (jwt_uid claims) (clientCode old))
    (js_or (jwt_panNumber claims) (panNumber old)).

(** The state once one more request went out through the client. *)
Definition sent (w : World) : World :=
  mkWorld (tm w) (refresh_posts w) (renewals w) (S (api_requests w)).

(** Whether a wrapped call ended with one of the two messages the
    interceptor writes when the session cannot be continued. *)
Definition is_session_expired {B} (r : Result B) : bool :=
  match r with
  | Ok _ => false
  | Throw e => message_is e SESSION_EXPIRED || message_is e ACCESS_TOKEN_EXPIRED
  end.

(** A probe after which polling goes on: a rejected request, a missing
    body, or a body that matches neither marker. *)
Definition payment_terminal (r : Reply (option PaymentBody)) : bool :=
  match r with
  | Response (Some b) => payment_approved b || payment_rejected b
  | _ => false
  end.

Definition mandate_terminal (r : Reply (option MandateBody)) : bool :=
  match r with
  | Response response_data =>
      mandate_approved (mandateStatus_of response_data)
      || mandate_failed (mandateStatus_of response_data)
  | Rejected _ => false
  end.

(** The state [k] pending iterations later. *)
Definition after_pending (intervalMs : Z) (k : nat) (w : PollWorld) : PollWorld :=
  mkPollWorld (probes w + k) (slept w + Z.of_nat k * Z.max 0 intervalMs).

(** The three shapes of the object a polling function returns. *)
Definition payment_shape (r : PollResult string) : Prop :=
  (payment_outcome r = Success /\ exists d, r = mkPollResult true "APPROVED" d)
  \/ (payment_outcome r = Failure /\ exists d, r = mkPollResult false "REJECTED" d)
  \/ (payment_outcome r = Timeout /\ r = PAYMENT_TIMEOUT).

Definition mandate_shape (r : PollResult MandateData) : Prop :=
  (mandate_outcome r = Success
   /\ exists s d, r = mkPollResult true s d /\ mandate_approved (Some s) = true)
  \/ (mandate_outcome r = Failure
      /\ exists s d, r = mkPollResult false s d /\ mandate_failed (Some s) = true)
  \/ (mandate_outcome r = Timeout /\ r = MANDATE_TIMEOUT).

(** What every reachable state of the machine satisfies: the handle names
    the one pending promise, if any; settled promises are neither pending
    nor yet to be created. *)
Definition Inv (m : Machine) : Prop :=
  match refreshTokenPromise m with
  | None => pending m = ∅
  | Some p =>
      (p < next_promise m)%nat
      /\ exists d, pending m = {[p := d]} /\ wf_driver d
  end
  /\ (forall p, is_Some (settled m !! p) ->
                (p < next_promise m)%nat /\ pending m !! p = None).

(** A refresh in progress on behalf of promise [p], started when [base]
    posts had gone out. *)
Definition in_progress (p base : nat) (m : Machine) : Prop :=
  refreshTokenPromise m = Some p
  /\ next_promise m = S p
  /\ exists d, pending m = {[p := d]} /\ wf_driver d
               /\ outbound m = (base + posts_made d)%nat.

(* ------------------------------------------------------------------ *)
(** ** Three statements the code does not satisfy

    Each is refuted below on a concrete run; the statement that holds in its
    place is proved next to the refutation. *)

(** The reading of the single-flight rule under which the callers that
    overlap one refresh cause exactly one post to the refresh endpoint. *)
Definition exactly_one_outbound_call : Prop :=
  forall (decodeJWT : string -> option DecodedJWT) (m m1 m2 : Machine) (c : nat)
         (evs : list Event) (e : Event),
    reachable decodeJWT m -> refreshTokenPromise m = None ->
    run_in_flight decodeJWT m (Renew c :: evs) = Some m1 ->
    step decodeJWT m1 e = Some m2 -> refreshTokenPromise m2 = None ->
    outbound m2 = S (outbound m).

(** The reading of the retry rule under which a second 401/403, received
    after a successful renewal and the one retry, reaches the caller as a
    session-expired error. *)
Definition second_rejection_is_session_expired : Prop :=
  forall (decodeJWT : string -> option DecodedJWT) (api : nat -> string -> Reply string)
         (replies : nat -> Reply LoginResponse) (h : string) (w w2 w' : World)
         (st1 st2 : option Z) (newToken : string) (r : Result string),
    api (api_requests w) h = Rejected st1 -> unauthorized st1 = true ->
    silentRefreshToken decodeJWT replies (sent w) = Some (Ok newToken, w2) ->
    api (S (api_requests w)) (bearer newToken) = Rejected st2 ->
    unauthorized st2 = true ->
    client decodeJWT api replies 2 (mkConfig h false) w = Some (r, w') ->
    is_session_expired r = true.

(** The reading under which the refresh itself clears the store when it
    rejects with [REFRESH_TOKEN_EXPIRED]. *)
Definition refresh_clears_store : Prop :=
  forall (decodeJWT : string -> option DecodedJWT) (replies : nat -> Reply LoginResponse)
         (w w' : World),
    silentRefreshToken decodeJWT replies w
    = Some (Throw (Err REFRESH_TOKEN_EXPIRED), w') ->
    fst (requireToken (tm w')) = Throw (Err NOT_AUTHENTICATED).

(* ================================================================== *)
(** * Further operations of the authentication module *)
(* ================================================================== *)

(** Strings are sequences of UTF-8 bytes.  A digit byte is an ASCII digit,
    so [/\D/g] removes exactly the bytes that are not digits. *)
Definition code (c : ascii) : N := N_of_ascii c.

Definition is_digit (c : ascii) : bool :=
  ((48 <=? code c) && (code c <=? 57))%N.

(** [s.replace(/\D/g, '')]. *)
Fixpoint digits_of (s : string) : string :=
  match s with
  | EmptyString => EmptyString
  | String c rest =>
      if is_digit c then String c (digits_of rest) else digits_of rest
  end.

(** The white space [trim] removes: tab, line feed, vertical tab, form
    feed, carriage return and space; U+00A0 (C2 A0); U+1680 (E1 9A 80);
    U+2000 to U+200A, U+2028, U+2029, U+202F (E2 80 ..); U+205F (E2 81 9F);
    U+3000 (E3 80 80); U+FEFF (EF BB BF). *)
Definition space1 (c : ascii) : bool :=
  (((9 <=? code c) && (code c <=? 13)) || (code c =? 32))%N.

Definition space2 (c1 c2 : ascii) : bool :=
  ((code c1 =? 194) && (code c2 =? 160))%N.

Definition space3 (c1 c2 c3 : ascii) : bool :=
  (((code c1 =? 225) && (code c2 =? 154) && (code c3 =? 128))
   || ((code c1 =? 226) && (code c2 =? 128)
       && (((128 <=? code c3) && (code c3 <=? 138))
           || (code c3 =? 168) || (code c3 =? 169) || (code c3 =? 175)))
   || ((code c1 =? 226) && (code c2 =? 129) && (code c3 =? 159))
   || ((code c1 =? 227) && (code c2 =? 128) && (code c3 =? 128))
   || ((code c1 =? 239) && (code c2 =? 187) && (code c3 =? 191)))%N.

(** [s.trimStart()]. *)
Fixpoint trimStart (s : string) : string :=
  match s with
  | EmptyString => s
  | String c1 r1 =>
      if space1 c1 then trimStart r1
      else
        match r1 with
        | EmptyString => s
        | String c2 r2 =>
            if space2 c1 c2 then trimStart r2
            else
              match r2 with
              | EmptyString => s
              | String c3 r3 => if space3 c1 c2 c3 then trimStart r3 else s
              end
        end
  end.

(** [s.trimEnd()]: the string is cut where only white space follows. *)
Fixpoint trimEnd (s : string) : string :=
  match s with
  | EmptyString => EmptyString
  | String c rest =>
      match trimStart s with
      | EmptyString => EmptyString
      | String _ _ => String c (trimEnd rest)
      end
  end.

(** [s.trim()]. *)
Definition trim (s : string) : string := trimEnd (trimStart s).

(** [formatPhoneNumber] (lines 478-502). *)
Definition formatPhoneNumber (phone : string) : string :=
  let hasPlus := String.prefix "+" (trim phone) in
  let digits := digits_of phone in
  if hasPlus then String.append "+" digits
  else if (String.length digits =? 12)%nat && String.prefix "91" digits
  then String.append "+" digits
  else if (String.length digits =? 10)%nat
  then String.append "+91" digits
  else String.append "+91" digits.

(** [getPhoneWithoutCountryCode] of the investment module:
    [phoneNumber.replace(/^\+91/, '')]. *)
Definition getPhoneWithoutCountryCode (phoneNumber : string) : string :=
  if String.prefix "+91" phoneNumber
  then String.substring 3 (String.length phoneNumber - 3) phoneNumber
  else phoneNumber.

(** [s.split(sep)] for a one-character separator: never an empty list. *)
Fixpoint split_on (sep : ascii) (s : string) : list string :=
  match s with
  | EmptyString => [EmptyString]
  | String c rest =>
      if Ascii.eqb c sep then EmptyString :: split_on sep rest
      else
        match split_on sep rest with
        | part :: parts => String c part :: parts
        | [] => [String c EmptyString]
        end
  end.

Definition emptyClaims : DecodedJWT := mkDecoded None None None.

(** [decodeJWT] (lines 593-606).  [parse_payload] is
    [JSON.parse(Buffer.from(payload, 'base64').toString('utf-8'))]: [None]
    when it throws, [Some None] when the payload parses to [null], else the
    value read at the three fields the module uses.  The [catch] block
    returns [{}]; a [null] is returned as it is. *)
Definition decodeJWT (parse_payload : string -> option (option DecodedJWT))
    (token : string) : option DecodedJWT :=
  match split_on "." token with
  | [_; payload; _] =>
      match parse_payload payload with
      | Some decoded => decoded
      | None => Some emptyClaims
      end
  | _ => Some emptyClaims
  end.

(* ------------------------------------------------------------------ *)
(** ** The tools that change the session *)

(** What a tool reports; each constructor stands for the text the tool
    returns, its arguments for the values the text interpolates. *)
Inductive AuthReport :=
| TokenRefreshed (phone clientCode : string)
| NotLoggedIn
| LoggedOut
| ActivatedKycRequired
| ActivatedLoggedIn.

(** A value inside a template string. *)
Definition interpolate (v : option string) : string :=
  match v with
  | Some s => s
  | None => "undefined"
  end.

Definition NO_REFRESH_TOKEN : string :=
  "No refresh token available. Please login again using fabits_request_otp and fabits_verify_otp".
Definition FAILED_TO_REFRESH : string := "Failed to refresh token".
Definition REFRESH_EXPIRED_LOGIN_AGAIN : string :=
  "Refresh token expired. Please login again using fabits_request_otp and fabits_verify_otp".
Definition ACTIVATION_INVALID : string := "Invalid OTP or activation failed".

(** A computation on the store, run inside a [World]. *)
Definition on_store {A} (m : M TokenManager A) : M World A :=
  fun w =>
    let (r, tm') := m (tm w) in
    (r, mkWorld tm' (refresh_posts w) (renewals w) (api_requests w)).

(** [await axios.post(REFRESH_TOKEN, {refresh_token})] outside the shared
    promise. *)
Definition refresh_post (replies : nat -> Reply LoginResponse)
  : M World LoginResponse :=
  fun w =>
    let w' := mkWorld (tm w) (S (refresh_posts w)) (renewals w) (api_requests w) in
    match replies (refresh_posts w) with
    | Response data => (Ok data, w')
    | Rejected st => (Throw (AxiosError st), w')
    end.

(** [refreshAccessToken] (lines 800-880), the tool behind
    [fabits_refresh_token].  [texts n] is
    [error.response?.data?.message || error.message] of the n-th post. *)
Definition refreshAccessToken (decodeJWT : string -> option DecodedJWT)
    (replies : nat -> Reply LoginResponse) (texts : nat -> string)
  : M World AuthReport :=
  try_catch
    (let* tokenData := on_store loadToken in
     match tokenData with
     | None => throw (Err NO_REFRESH_TOKEN)
     | Some tokenData =>
         if negb (truthy (refreshToken tokenData)) then throw (Err NO_REFRESH_TOKEN)
         else
           let* data := refresh_post replies in
           if negb (truthy (access_token data)) then throw (Err FAILED_TO_REFRESH)
           else
             let decodedToken := decodeJWT (value_of (access_token data)) in
             let* claims := claims_of decodedToken in
             let updatedAuthToken :=
               {| token := access_token data;
                  refreshToken := js_or (refresh_token data) (refreshToken tokenData);
                  phoneNumber := js_or (jwt_phoneNumber claims) (phoneNumber tokenData);
                  expiresAt := None;
                  clientCode := js_or (jwt_uid claims) (clientCode tokenData);
                  panNumber := js_or (jwt_panNumber claims) (panNumber tokenData) |} in
             let* _ := on_store (saveToken updatedAuthToken) in
             ret (TokenRefreshed
                    (interpolate (phoneNumber updatedAuthToken))
                    (value_of (js_or (clientCode updatedAuthToken)
                                 (Some "Not available"))))
     end)
    (fun error =>
       if isAxiosError error then
         if status_is error 401 || status_is error 403 then
           let* _ := on_store clearToken in
           throw (Err REFRESH_EXPIRED_LOGIN_AGAIN)
         else
           fun w =>
             throw (Err (String.append "Token refresh failed: "
                           (texts (Nat.pred (refresh_posts w))))) w
       else throw error).

(** The state of the tools that call the authentication server directly. *)
Record AuthWorld := mkAuthWorld {
  auth_store : TokenManager;
  auth_posts : nat           (* [axios.post] calls of the tool's endpoint *)
}.

Definition on_auth_store {A} (m : M TokenManager A) : M AuthWorld A :=
  fun w =>
    let (r, tm') := m (auth_store w) in
    (r, mkAuthWorld tm' (auth_posts w)).

Definition auth_post {B} (remote : nat -> Reply B) : M AuthWorld B :=
  fun w =>
    let w' := mkAuthWorld (auth_store w) (S (auth_posts w)) in
    match remote (auth_posts w) with
    | Response data => (Ok data, w')
    | Rejected st => (Throw (AxiosError st), w')
    end.

(** [logout] (lines 885-931). *)
Definition logout (remote : nat -> Reply unit) : M AuthWorld AuthReport :=
  try_catch
    (let* tokenData := on_auth_store loadToken in
     match tokenData with
     | None => ret NotLoggedIn
     | Some tokenData =>
         if negb (truthy (token tokenData)) then ret NotLoggedIn
         else
           let* _ := try_catch (auth_post remote) (fun apiError => ret tt) in
           let* _ := on_auth_store clearToken in
           ret LoggedOut
     end)
    (fun error =>
       throw (Err (String.append "Logout failed: " (error_text error)))).

(** [activateAccount] (lines 936-1000).  The OTP only travels in the
    request; [remote] is the server's answer to it. *)
Definition activateAccount (decodeJWT : string -> option DecodedJWT)
    (remote : nat -> Reply LoginResponse) (texts : nat -> string)
    (phoneNumber : string) : M AuthWorld AuthReport :=
  try_catch
    (let formattedPhone := formatPhoneNumber phoneNumber in
     let* data := auth_post remote in
     if negb (truthy (access_token data)) then throw (Err ACTIVATION_INVALID)
     else
       let decodedToken := decodeJWT (value_of (access_token data)) in
       let* claims := claims_of decodedToken in
       let authToken :=
         {| token := access_token data;
            refreshToken := refresh_token data;
            phoneNumber := js_or (jwt_phoneNumber claims) (Some formattedPhone);
            expiresAt := None;
            clientCode := jwt_uid claims;
            panNumber := jwt_panNumber claims |} in
       let* _ := on_auth_store (saveToken authToken) in
       if negb (truthy (clientCode authToken)) then ret ActivatedKycRequired
       else ret ActivatedLoggedIn)
    (fun error =>
       if isAxiosError error then
         fun w =>
           throw (Err (String.append "Activation failed: "
                         (texts (Nat.pred (auth_posts w))))) w
       else throw error).

(* ------------------------------------------------------------------ *)
(** ** The one-shot payment check of the investment module *)

Definition NOT_AUTHENTICATED_SHORT : string := "Not authenticated. Please login first.".
Definition CLIENT_CODE_NOT_FOUND : string := "Client code not found. Please re-login.".

(** [getClientCode] (lines 438-455); [toUpperCase] is the method of the
    runtime. *)
Definition getClientCode (toUpperCase : string -> string) : M TokenManager string :=
  let* tokenData := loadToken in
  match tokenData with
  | None => throw (Err NOT_AUTHENTICATED_SHORT)
  | Some tokenData =>
      if negb (truthy (clientCode tokenData)) then throw (Err CLIENT_CODE_NOT_FOUND)
      else
        ret (toUpperCase
               (hd EmptyString (split_on "-" (value_of (clientCode tokenData)))))
  end.

(** The order reference(s) of the request: one string or an array. *)
Inductive OrderNo :=
| One (orderNumber : string)
| Many (orderNumbers : list string).

(** Lines 661-663: comma-separated numbers are split, trimmed and the empty
    ones dropped. *)
Definition orderNumbers_of (orderNumber : string) : OrderNo :=
  if includes "," orderNumber
  then Many (List.filter (fun x => negb (String.eqb x EmptyString))
               (List.map trim (split_on "," orderNumber)))
  else One (trim orderNumber).

(** [pollPaymentStatus] takes its client as an argument.  In the model of
    the loop above the client is the stream of its answers; for a caller
    that hands in the client with the interceptor, [client.post] is a
    computation on the caller's state, which can run out of fuel. *)
Definition Partial (S A : Type) : Type := S -> option (Result A * S).

Definition total {S A} (m : M S A) : Partial S A := fun s => Some (m s).

Definition bind_partial {S A B} (m : Partial S A) (k : A -> Partial S B)
  : Partial S B :=
  fun s => match m s with
           | Some (Ok a, s') => k a s'
           | Some (Throw e, s') => Some (Throw e, s')
           | None => None
           end.

Definition try_catch_partial {S A} (m : Partial S A)
    (handler : JsError -> Partial S A) : Partial S A :=
  fun s => match m s with
           | Some (Ok a, s') => Some (Ok a, s')
           | Some (Throw e, s') => handler e s'
           | None => None
           end.

Section PollingWith.

Context {S : Type}.
(** [client.post(CONFIG.ENDPOINTS.PAYMENT_STATUS, {clientCode, orderNo})]
    and the timer. *)
Variable client_post : Partial S (option PaymentBody).
Variable wait : Z -> M S unit.

(** Lines 599-636 of the investment module, once more. *)
Definition payment_iteration_with (intervalMs : Z)
  : Partial S (Iteration (PollResult string)) :=
  try_catch_partial
    (bind_partial client_post (fun response_data =>
       match response_data with
       | None => total (throw (Err TYPE_ERROR))
       | Some b =>
           if payment_approved b
           then total (ret (Return (mkPollResult true "APPROVED" (value_of (pay_data b)))))
           else if payment_rejected b
           then total (ret (Return (mkPollResult false "REJECTED" (value_of (pay_data b)))))
           else
             total (let* _ := wait intervalMs in
                    ret Next)
       end))
    (fun error =>
       total (let* _ := wait intervalMs in
              ret Next)).

(** Lines 598-645: the loop and the timeout object. *)
Fixpoint poll_loop_with {R : Type} (fuel : nat)
    (iteration : Partial S (Iteration R)) (timeout : R) (maxAttempts attempt : Z)
    (s : S) : option (Result R * S) :=
  match fuel with
  | O => None
  | Datatypes.S fuel' =>
      if attempt <=? maxAttempts then
        match iteration s with
        | Some (Ok (Return r), s') => Some (Ok r, s')
        | Some (Ok Next, s') =>
            poll_loop_with fuel' iteration timeout maxAttempts (attempt + 1) s'
        | Some (Throw e, s') => Some (Throw e, s')
        | None => None
        end
      else Some (Ok timeout, s)
  end.

Definition pollPaymentStatus_with (maxAttempts intervalMs : Z)
  : Partial S (PollResult string) :=
  poll_loop_with (Datatypes.S (Z.to_nat maxAttempts))
    (payment_iteration_with intervalMs) PAYMENT_TIMEOUT maxAttempts 1.

End PollingWith.

(** What [checkPaymentStatus] touches: the store and the calls that went
    out, and the time it waited. *)
Record CheckWorld := mkCheckWorld {
  check_world : World;
  check_slept : Z
}.

Definition with_store (tm' : TokenManager) (w : CheckWorld) : CheckWorld :=
  mkCheckWorld
    (mkWorld tm' (refresh_posts (check_world w)) (renewals (check_world w))
       (api_requests (check_world w)))
    (check_slept w).

Definition check_sleep (intervalMs : Z) : M CheckWorld unit :=
  fun w => (Ok tt, mkCheckWorld (check_world w) (check_slept w + Z.max 0 intervalMs)).

(** One [client.post] of the client [createAuthenticatedClient] returned.
    Every call starts from the default headers, with the bearer credential
    read when the client was created and without the [_retry] mark; the
    response goes through the interceptor.  Fuel 2: the request and its one
    retry. *)
Definition authenticated_post {B} (decodeJWT : string -> option DecodedJWT)
    (api : nat -> string -> Reply B) (replies : nat -> Reply LoginResponse)
    (token : string) : Partial CheckWorld B :=
  fun w =>
    match client decodeJWT api replies 2 (mkConfig (bearer token) false)
            (check_world w) with
    | Some (r, world') => Some (r, mkCheckWorld world' (check_slept w))
    | None => None
    end.

(** The [catch] block of [checkPaymentStatus]. *)
Definition check_failed (error : JsError) : JsError :=
  Err (String.append "Payment status check failed: " (error_text error)).

(** [checkPaymentStatus] (lines 652-721).  [platform] answers the n-th
    request for a client code and order reference(s), given the
    authorization header the request carries; [replies] are the answers of
    the refresh endpoint.  The three boxes the tool prints are the three
    outcomes: successful, failed, pending. *)
Definition checkPaymentStatus (decodeJWT : string -> option DecodedJWT)
    (toUpperCase : string -> string)
    (platform : string -> OrderNo -> nat -> string -> Reply (option PaymentBody))
    (replies : nat -> Reply LoginResponse)
    (orderNumber : string) (w : CheckWorld)
  : option (Result Outcome * CheckWorld) :=
  match requireToken (tm (check_world w)) with
  | (Throw error, tm1) => Some (Throw (check_failed error), with_store tm1 w)
  | (Ok token, tm1) =>
      match getClientCode toUpperCase tm1 with
      | (Throw error, tm2) => Some (Throw (check_failed error), with_store tm2 w)
      | (Ok clientCode, tm2) =>
          let orderNumbers := orderNumbers_of orderNumber in
          let client_post :=
            authenticated_post decodeJWT (platform clientCode orderNumbers)
              replies token in
          match pollPaymentStatus_with client_post check_sleep 1 1000
                  (with_store tm2 w) with
          | None => None
          | Some (Throw error, w') => Some (Throw (check_failed error), w')
          | Some (Ok paymentStatus, w') =>
              Some (Ok (payment_outcome paymentStatus), w')
          end
      end
  end.

(* ------------------------------------------------------------------ *)
(** ** Vocabulary and scenarios of the further properties *)

(** A string of ASCII digits. *)
Fixpoint all_digits (s : string) : bool :=
  match s with
  | EmptyString => true
  | String c rest => is_digit c && all_digits rest
  end.

(** The record the store holds: the cached one, else the one on file. *)
Definition stored_record (tm0 : TokenManager) : option AuthToken :=
  match cachedToken tm0 with
  | Some t => Some t
  | None =>
      match contents (disk tm0) with
      | Json t => Some t
      | _ => None
      end
  end.



(** The text axios attaches to a rejected call in the scenarios. *)
Definition serverText : nat -> string :=
  fun _ => "Request failed with status code 500".

(** A session that was opened without a renewal credential. *)
Definition legacyRecord : AuthToken :=
  mkAuthToken (Some "b1") None (Some "+919876543210") None None None.

Definition legacyManager : TokenManager :=
  mkTokenManager (Some legacyRecord) (mkDisk (Json legacyRecord) true).

Definition legacyWorld : World := mkWorld legacyManager 0 0 0.

(** A logout endpoint that is down. *)
Definition logoutDown : nat -> Reply unit := fun _ => Rejected None.


(** A platform that rejects the bearer [b1] and accepts any other. *)
Definition acceptsRenewed : nat -> string -> Reply string :=
  fun _ h => if String.eqb h (bearer "b1") then Rejected (Some 401)
             else Response "holdings".

(** What one payment probe means to the caller. *)
Definition probe_outcome (r : Reply (option PaymentBody)) : Outcome :=
  match r with
  | Response (Some b) =>
      if payment_approved b then Success
      else if payment_rejected b then Failure
      else Timeout
  | _ => Timeout
  end.

(** What the answer of the client to one payment probe means to the
    caller: a thrown error and a missing body are a pending payment. *)
Definition call_outcome (r : Result (option PaymentBody)) : Outcome :=
  match r with
  | Ok (Some b) =>
      if payment_approved b then Success
      else if payment_rejected b then Failure
      else Timeout
  | _ => Timeout
  end.

Definition call_terminal (r : Result (option PaymentBody)) : bool :=
  match r with
  | Ok (Some b) => payment_approved b || payment_rejected b
  | _ => false
  end.

Definition underProcessing : MandateDetail :=
  mkMandateDetail (Some "UNDER PROCESSING") "M-1".

Definition rejectedPayment : Reply (option PaymentBody) :=
  Response (Some (mkPaymentBody (Some "FAILURE") (Some "101|rejected"))).

(** A payment platform that reports every order as pending. *)
Definition pendingPlatform
  : string -> OrderNo -> nat -> string -> Reply (option PaymentBody) :=
  fun _ _ _ _ => pendingPayment.

(** A payment platform that rejects the bearer [b1] and reports the order
    as approved to any other. *)
Definition approvesRenewed
  : string -> OrderNo -> nat -> string -> Reply (option PaymentBody) :=
  fun _ _ _ h => if String.eqb h (bearer "b1") then Rejected (Some 401)
                 else approvedPayment.

Definition checkStart (tm0 : TokenManager) : CheckWorld :=
  mkCheckWorld (mkWorld tm0 0 0 0) 0.

(** Upper case for ASCII letters, for the scenarios. *)
Fixpoint asciiUpper (s : string) : string :=
  match s with
  | EmptyString => EmptyString
  | String c rest =>
      String (if ((97 <=? code c) && (code c <=? 122))%N
              then ascii_of_N (code c - 32) else c)
        (asciiUpper rest)
  end.

(* ================================================================== *)
(** * Properties of the credential store *)
(* ================================================================== *)

Lemma loadToken_cached (t : AuthToken) (d : Disk) :
  loadToken (mkTokenManager (Some t) d) = (Ok (Some t), mkTokenManager (Some t) d).
Proof. reflexivity. Qed.

Lemma loadToken_never_throws (tm0 : TokenManager) :
  exists v tm1, loadToken tm0 = (Ok v, tm1).
Proof.
  destruct tm0 as [[t|] [[| |u] wr]]; cbn; eauto.
Qed.

Lemma saveToken_ok (t : AuthToken) (tm0 tm1 : TokenManager) :
  saveToken t tm0 = (Ok tt, tm1) ->
  tm1 = mkTokenManager (Some t) (mkDisk (Json t) true).
Proof.
  unfold saveToken, try_catch, bind, writeFile, set_cache, throw.
  destruct (writable (disk tm0)); cbn; congruence.
Qed.


Lemma saveToken_throws (t : AuthToken) (tm0 tm1 : TokenManager) (e : JsError) :
  saveToken t tm0 = (Throw e, tm1) ->
  tm1 = tm0 /\ isAxiosError e = false /\ message_is e REFRESH_TOKEN_EXPIRED = false.
Proof.
  unfold saveToken, try_catch, bind, writeFile, set_cache, throw.
  destruct (writable (disk tm0)); cbn; intros H; inversion H; subst.
  repeat split.
Qed.

Lemma requireToken_of_cached (t : AuthToken) (d : Disk) :
  truthy (token t) = true ->
  requireToken (mkTokenManager (Some t) d)
  = (Ok (value_of (token t)), mkTokenManager (Some t) d).
Proof.
  intros Ht. unfold requireToken, bind. rewrite loadToken_cached.
  rewrite Ht. reflexivity.
Qed.

(** After [clearToken] on a writable disk the store holds the empty object
    on file and nothing in memory. *)
Lemma clearToken_writable (tm0 : TokenManager) :
  writable (disk tm0) = true ->
  clearToken tm0 = (Ok tt, mkTokenManager None (mkDisk (Json emptyObject) true)).
Proof.
  intros Hw. unfold clearToken, bind, set_cache, try_catch, writeFile. cbn.
  rewrite Hw. reflexivity.
Qed.

Lemma requireToken_cleared :
  requireToken (mkTokenManager None (mkDisk (Json emptyObject) true))
  = (Throw (Err NOT_AUTHENTICATED),
     mkTokenManager (Some emptyObject) (mkDisk (Json emptyObject) true)).
Proof. reflexivity. Qed.

(** C9.  Writing a credential record with [saveToken] and reading it back
    with [loadToken], with no write in between, yields the record written,
    field for field; the same holds for a manager that starts with an empty
    cache on the file just written. *)
Theorem saveToken_loadToken_roundtrip (r : AuthToken) (tm0 tm1 : TokenManager) :
  saveToken r tm0 = (Ok tt, tm1) ->
  loadToken tm1 = (Ok (Some r), tm1)
  /\ fst (loadToken (mkTokenManager None (disk tm1))) = Ok (Some r).
Proof.
  intros Hsave. apply saveToken_ok in Hsave. subst tm1. split; reflexivity.
Qed.

Lemma saveToken_loadToken_roundtrip_witness :
  saveToken loggedIn freshManager = (Ok tt, sessionManager)
  /\ loadToken sessionManager = (Ok (Some loggedIn), sessionManager).
Proof.
  split; [reflexivity|].
  apply (saveToken_loadToken_roundtrip loggedIn freshManager sessionManager).
  reflexivity.
Defined.

(* ================================================================== *)
(** * Properties of the silent refresh *)
(* ================================================================== *)

Section RefreshProperties.

Variable decodeJWT : string -> option DecodedJWT.

Lemma on_response_ok (old : AuthToken) (data : LoginResponse)
    (tm0 tm1 : TokenManager) (b : string) :
  on_response decodeJWT old data tm0 = (Ok b, tm1) ->
  access_token data = Some b /\ b <> ""
  /\ exists claims,
       decodeJWT b = Some claims
       /\ tm1 = mkTokenManager (Some (replacement claims old data))
                  (mkDisk (Json (replacement claims old data)) true).
Proof.
  unfold on_response.
  destruct (truthy (access_token data)) eqn:Ht; cbn [negb]; [|discriminate].
  unfold bind at 1.
  destruct (decodeJWT (value_of (access_token data))) as [claims|] eqn:Hd;
    cbn [claims_of]; [unfold ret at 1|unfold throw; discriminate].
  unfold bind.
  match goal with |- context [saveToken ?t tm0] =>
    destruct (saveToken t tm0) as [[[]|e] tm'] eqn:Hs end; [|discriminate].
  apply saveToken_ok in Hs. subst tm'.
  intros H. inversion H; subst. clear H.
  destruct (access_token data) as [s|] eqn:Ha; [|discriminate].
  cbn in Ht, Hd |- *. split; [reflexivity|]. split.
  - intros ->. discriminate.
  - exists claims. split; [exact Hd|]. unfold replacement. rewrite Ha. reflexivity.
Qed.



Lemma on_response_throws (old : AuthToken) (data : LoginResponse)
    (tm0 tm1 : TokenManager) (e : JsError) :
  on_response decodeJWT old data tm0 = (Throw e, tm1) ->
  tm1 = tm0 /\ isAxiosError e = false /\ message_is e REFRESH_TOKEN_EXPIRED = false.
Proof.
  unfold on_response.
  destruct (truthy (access_token data)); cbn [negb].
  - unfold bind at 1.
    destruct (decodeJWT (value_of (access_token data))) as [claims|];
      cbn [claims_of].
    + unfold ret at 1. unfold bind.
      match goal with |- context [saveToken ?t tm0] =>
        destruct (saveToken t tm0) as [[[]|e'] tm'] eqn:Hs end; [discriminate|].
      intros H. inversion H; subst. eapply saveToken_throws; eassumption.
    + unfold throw. intros H. inversion H; subst. repeat split.
  - unfold throw. intros H. inversion H; subst. repeat split.
Qed.

Lemma after_post_throws (old : AuthToken) (r : Reply LoginResponse)
    (tm0 tm1 : TokenManager) (e : JsError) :
  after_post decodeJWT old r tm0 = (Throw e, tm1) -> tm1 = tm0.
Proof.
  destruct r as [data|st]; cbn.
  - intros H. apply on_response_throws in H. tauto.
  - unfold throw. congruence.
Qed.

Lemma enter_attempt_cases (attempt : Z) (td : AuthToken) (le : option JsError) :
  1 <= attempt ->
  (attempt = 1 /\ enter_attempt attempt td le = (Continue (AwaitPost 1 td le), 1%nat))
  \/ (2 <= attempt <= maxRetries
      /\ enter_attempt attempt td le = (Continue (AwaitPause attempt td le), 0%nat))
  \/ (maxRetries < attempt
      /\ exists e, enter_attempt attempt td le = (Settle (Throw e), 0%nat)).
Proof.
  intros H. unfold enter_attempt, maxRetries in *.
  destruct (Z.leb_spec attempt 3).
  - destruct (Z.gtb_spec attempt 1).
    + right; left. split; [lia|reflexivity].
    + left. assert (attempt = 1) by lia. subst. split; reflexivity.
  - right; right. split; [lia|]. eauto.
Qed.

Lemma on_attempt_error_cases (attempt : Z) (td : AuthToken) (e : JsError) :
  (exists e', on_attempt_error attempt td e = (Settle (Throw e'), 0%nat))
  \/ on_attempt_error attempt td e = enter_attempt (attempt + 1) td (Some e).
Proof.
  unfold on_attempt_error.
  destruct (isAxiosError e && (status_is e 401 || status_is e 403)); [eauto|].
  destruct (isAxiosError e && status_is e 400); eauto.
Qed.

(** A step that continues keeps the execution inside the loop bounds, uses
    up a suspension and accounts for the post it issued. *)
Lemma driver_step_continue (d d' : Driver) (i : Input) (tm0 tm1 : TokenManager)
    (n : nat) :
  wf_driver d ->
  driver_step decodeJWT d i tm0 = Some (Continue d', n, tm1) ->
  wf_driver d' /\ (steps_left d' < steps_left d)%nat
  /\ posts_made d' = (posts_made d + n)%nat.
Proof.
  intros Hwf Hstep. destruct d as [|a td le|a td le]; destruct i as [|r];
    cbn in Hstep; try discriminate.
  - destruct (loadToken tm0) as [[[td|]|e] tm'] eqn:Hl; try discriminate.
    destruct (truthy (refreshToken td)); [|discriminate].
    inversion Hstep; subst. cbn. unfold maxRetries. repeat split; lia.
  - inversion Hstep; subst. cbn in *. unfold maxRetries in *.
    repeat split; lia.
  - destruct (after_post decodeJWT td r tm0) as [[b|e] tm'] eqn:Ha;
      [discriminate|].
    cbn in Hwf. unfold maxRetries in Hwf.
    destruct (on_attempt_error_cases a td e) as [[e' He]|He];
      rewrite He in Hstep; [discriminate|].
    assert (H1 : 1 <= a + 1) by lia.
    destruct (enter_attempt_cases (a + 1) td (Some e) H1) as [[Ha1 _]|[[Hr Hc]|[_ [e' Hc]]]];
      [lia| |].
    + rewrite Hc in Hstep. inversion Hstep; subst. cbn. unfold maxRetries in *.
      repeat split; lia.
    + rewrite Hc in Hstep. discriminate.
Qed.

(** A step that settles issues no post. *)
Lemma driver_step_settle (d : Driver) (i : Input) (tm0 tm1 : TokenManager)
    (r : Result string) (n : nat) :
  wf_driver d ->
  driver_step decodeJWT d i tm0 = Some (Settle r, n, tm1) -> n = 0%nat.
Proof.
  intros Hwf Hstep. destruct d as [|a td le|a td le]; destruct i as [|rp];
    cbn in Hstep; try discriminate.
  - destruct (loadToken tm0) as [[[td|]|e] tm'] eqn:Hl;
      try (inversion Hstep; subst; reflexivity).
    destruct (truthy (refreshToken td));
      inversion Hstep; subst; reflexivity.
  - destruct (after_post decodeJWT td rp tm0) as [[b|e] tm'] eqn:Ha.
    + inversion Hstep; subst; reflexivity.
    + cbn in Hwf.
      destruct (on_attempt_error_cases a td e) as [[e' He]|He];
        rewrite He in Hstep; [inversion Hstep; reflexivity|].
      assert (H1 : 1 <= a + 1) by lia.
      destruct (enter_attempt_cases (a + 1) td (Some e) H1) as [[Ha1 _]|[[Hr Hc]|[_ [e' Hc]]]];
        [lia| |]; rewrite Hc in Hstep; inversion Hstep; reflexivity.
Qed.

Variable replies : nat -> Reply LoginResponse.

Lemma driver_step_enabled (d : Driver) (w : World) :
  driver_step decodeJWT d (input_for replies d w) (tm w) <> None.
Proof.
  destruct d as [|a td le|a td le]; cbn.
  - destruct (loadToken (tm w)) as [[[td|]|e] tm']; try discriminate.
    destruct (truthy (refreshToken td)); discriminate.
  - discriminate.
  - destruct (after_post decodeJWT td _ (tm w)) as [[b|e] tm']; discriminate.
Qed.

(** The execution always comes to an end: it settles within the
    suspensions it has left, having issued at most [maxRetries] posts. *)
Lemma drive_terminates (fuel : nat) :
  forall (d : Driver) (w : World),
    wf_driver d -> (steps_left d <= fuel)%nat ->
    exists r w',
      drive decodeJWT fuel replies d w = Some (r, w')
      /\ (refresh_posts w <= refresh_posts w')%nat
      /\ (refresh_posts w' + posts_made d <= refresh_posts w + 3)%nat
      /\ renewals w' = renewals w
      /\ api_requests w' = api_requests w.
Proof.
  induction fuel as [|fuel IH]; intros d w Hwf Hfuel.
  - exfalso. destruct d; cbn in *; unfold maxRetries in *; lia.
  - cbn [drive]. pose proof (driver_step_enabled d w) as Hen.
    destruct (driver_step decodeJWT d (input_for replies d w) (tm w))
      as [[[[d'|r] n] tm']|] eqn:Hstep; [| |congruence].
    + destruct (driver_step_continue _ _ _ _ _ _ Hwf Hstep) as (Hwf' & Hlt & Hposts).
      destruct (IH d' (mkWorld tm' (refresh_posts w + n) (renewals w) (api_requests w))
                  Hwf' ltac:(lia)) as (r & w' & Hd & H1 & H2 & H3 & H4).
      exists r, w'. cbn in *. repeat split; try assumption; lia.
    + pose proof (driver_step_settle _ _ _ _ _ _ Hwf Hstep) as ->.
      exists r, (mkWorld tm' (refresh_posts w + 0) (renewals w) (api_requests w)).
      cbn. repeat split; try lia.
      assert (posts_made d <= 3)%nat; [|lia].
      destruct d; cbn in *; unfold maxRetries in *; lia.
Qed.

(** [silentRefreshToken] always settles, after one execution of the refresh
    body and at most three posts. *)
Lemma silentRefreshToken_settles (w : World) :
  exists r w',
    silentRefreshToken decodeJWT replies w = Some (r, w')
    /\ (refresh_posts w <= refresh_posts w' <= refresh_posts w + 3)%nat
    /\ renewals w' = S (renewals w)
    /\ api_requests w' = api_requests w.
Proof.
  unfold silentRefreshToken.
  destruct (drive_terminates 6 AwaitLoad
              (mkWorld (tm w) (refresh_posts w) (S (renewals w)) (api_requests w))
              I ltac:(cbn; lia)) as (r & w' & Hd & H1 & H2 & H3 & H4).
  exists r, w'. cbn in *. repeat split; try assumption; lia.
Qed.

(** A successful execution ends on a reply that carries a bearer token and
    leaves the replacement record in the store. *)
Lemma drive_success (fuel : nat) :
  forall (d : Driver) (w w' : World) (b : string) (old : AuthToken),
    drive decodeJWT fuel replies d w = Some (Ok b, w') ->
    match tokenData_of d with
    | Some td => td = old
    | None => fst (loadToken (tm w)) = Ok (Some old)
    end ->
    exists data claims,
      replies (Nat.pred (refresh_posts w')) = Response data
      /\ access_token data = Some b /\ b <> ""
      /\ decodeJWT b = Some claims
      /\ tm w' = mkTokenManager (Some (replacement claims old data))
                   (mkDisk (Json (replacement claims old data)) true).
Proof.
  induction fuel as [|fuel IH]; intros d w w' b old Hd Hold; [discriminate|].
  cbn [drive] in Hd.
  destruct (driver_step decodeJWT d (input_for replies d w) (tm w))
    as [[[[d'|r] n] tm']|] eqn:Hstep; [| |discriminate].
  - (* the execution continues *)
    eapply IH; [exact Hd|].
    destruct d as [|a td le|a td le]; cbn in Hstep, Hold.
    + destruct (loadToken (tm w)) as [[[td|]|e] tm''] eqn:Hl; try discriminate.
      destruct (truthy (refreshToken td)); [|discriminate].
      cbn in Hold. inversion Hold; subst. inversion Hstep; subst. reflexivity.
    + inversion Hstep; subst. reflexivity.
    + destruct (after_post decodeJWT td _ (tm w)) as [[b'|e] tm''] eqn:Ha;
        [discriminate|].
      unfold on_attempt_error, enter_attempt in Hstep.
      repeat match type of Hstep with
             | context [if ?c then _ else _] => destruct c
             end; inversion Hstep; subst; reflexivity.
  - (* the execution settles *)
    inversion Hd; subst. clear Hd. cbn [refresh_posts tm].
    destruct d as [|a td le|a td le]; cbn in Hstep, Hold.
    + destruct (loadToken (tm w)) as [[[td|]|e] tm''] eqn:Hl;
        try (inversion Hstep; fail).
      destruct (truthy (refreshToken td)); inversion Hstep.
    + discriminate.
    + subst td.
      destruct (replies (Nat.pred (refresh_posts w))) as [data|st] eqn:Hr.
      * cbn in Hstep.
        destruct (on_response decodeJWT old data (tm w)) as [[b'|e] tm''] eqn:Ho.
        -- inversion Hstep; subst. apply on_response_ok in Ho.
           destruct Ho as (Hb & Hne & claims & Hdec & Htm). exists data, claims.
           rewrite Nat.add_0_r. auto.
        -- unfold on_attempt_error, enter_attempt in Hstep.
           repeat match type of Hstep with
                  | context [if ?c then _ else _] => destruct c
                  end; inversion Hstep.
      * cbn in Hstep. unfold throw in Hstep.
        unfold on_attempt_error, enter_attempt in Hstep.
        repeat match type of Hstep with
               | context [if ?c then _ else _] => destruct c
               end; inversion Hstep.
Qed.

Lemma transient_not_terminal (st : option Z) (attempt : Z) (td : AuthToken) :
  transient st = true ->
  on_attempt_error attempt td (AxiosError st)
  = enter_attempt (attempt + 1) td (Some (AxiosError st)).
Proof.
  unfold transient, on_attempt_error. intros H.
  apply negb_true_iff in H. apply orb_false_iff in H as [H H400].
  rewrite H, H400. reflexivity.
Qed.

Lemma drive_load (f : nat) (td : AuthToken) (tm0 tm1 : TokenManager)
    (n rn ar : nat) :
  loadToken tm0 = (Ok (Some td), tm1) ->
  truthy (refreshToken td) = true ->
  drive decodeJWT (S f) replies AwaitLoad (mkWorld tm0 n rn ar)
  = drive decodeJWT f replies (AwaitPost 1 td None) (mkWorld tm1 (S n) rn ar).
Proof.
  intros Hl Ht. cbn [drive input_for driver_step tm]. rewrite Hl, Ht.
  cbn. rewrite Nat.add_1_r. reflexivity.
Qed.

Lemma drive_post_transient (f : nat) (a : Z) (td : AuthToken)
    (le : option JsError) (tm0 : TokenManager) (n rn ar : nat) (st : option Z) :
  replies n = Rejected st -> transient st = true -> 1 <= a < maxRetries ->
  drive decodeJWT (S (S f)) replies (AwaitPost a td le) (mkWorld tm0 (S n) rn ar)
  = drive decodeJWT f replies (AwaitPost (a + 1) td (Some (AxiosError st)))
      (mkWorld tm0 (S (S n)) rn ar).
Proof.
  intros Hr Ht Ha. unfold maxRetries in Ha.
  cbn [drive input_for driver_step tm refresh_posts Nat.pred].
  rewrite Hr. cbn [after_post]. unfold throw.
  rewrite transient_not_terminal by assumption.
  assert (H1 : 1 <= a + 1) by lia.
  destruct (enter_attempt_cases (a + 1) td (Some (AxiosError st)) H1)
    as [[? _]|[[_ Hc]|[? _]]]; [lia| |unfold maxRetries in *; lia].
  rewrite Hc. cbn [renewals api_requests refresh_posts tm].
  f_equal. f_equal. lia.
Qed.

Lemma drive_post_exhausted (f : nat) (td : AuthToken) (le : option JsError)
    (tm0 : TokenManager) (n rn ar : nat) (st : option Z) :
  replies n = Rejected st -> transient st = true ->
  drive decodeJWT (S f) replies (AwaitPost maxRetries td le) (mkWorld tm0 (S n) rn ar)
  = Some (Throw (AxiosError st), mkWorld tm0 (S n) rn ar).
Proof.
  intros Hr Ht.
  cbn [drive input_for driver_step tm refresh_posts Nat.pred].
  rewrite Hr. cbn [after_post]. unfold throw.
  rewrite transient_not_terminal by assumption.
  unfold enter_attempt, maxRetries.
  change (3 + 1 <=? 3) with false. cbn iota.
  rewrite Nat.add_0_r. reflexivity.
Qed.

Lemma drive_post_unauthorized (f : nat) (a : Z) (td : AuthToken)
    (le : option JsError) (tm0 : TokenManager) (n rn ar : nat) (st : option Z) :
  replies n = Rejected st -> unauthorized st = true ->
  drive decodeJWT (S f) replies (AwaitPost a td le) (mkWorld tm0 (S n) rn ar)
  = Some (Throw (Err REFRESH_TOKEN_EXPIRED), mkWorld tm0 (S n) rn ar).
Proof.
  intros Hr Hu. unfold unauthorized in Hu.
  cbn [drive input_for driver_step tm refresh_posts Nat.pred].
  rewrite Hr. cbn [after_post]. unfold throw, on_attempt_error.
  rewrite Hu. cbn. rewrite Nat.add_0_r. reflexivity.
Qed.



(** C8.  A successful renewal replaces the whole credential record: the new
    bearer credential; the renewal credential of the reply if it carries
    one, else the old one; each identity field taken from the decoded new
    bearer credential where it has it, else from the old record.  The
    replacement is in the cache and on file, and [requireToken] then returns
    the new bearer credential. *)
Theorem renewal_replaces_record (w w' : World) (b : string) :
  silentRefreshToken decodeJWT replies w = Some (Ok b, w') ->
  exists old data claims new,
    fst (loadToken (tm w)) = Ok (Some old)
    /\ replies (Nat.pred (refresh_posts w')) = Response data
    /\ access_token data = Some b
    /\ decodeJWT b = Some claims
    /\ cachedToken (tm w') = Some new
    /\ contents (disk (tm w')) = Json new
    /\ token new = Some b
    /\ refreshToken new
       = (if truthy (refresh_token data) then refresh_token data
          else refreshToken old)
    /\ phoneNumber new = js_or (jwt_phoneNumber claims) (phoneNumber old)
    /\ clientCode new = js_or (jwt_uid claims) (clientCode old)
    /\ panNumber new = js_or (jwt_panNumber claims) (panNumber old)
    /\ requireToken (tm w') = (Ok b, tm w').
Proof.
  intros Hrun. unfold silentRefreshToken in Hrun.
  assert (Hold : exists old, fst (loadToken (tm w)) = Ok (Some old)).
  { cbn [drive input_for driver_step tm] in Hrun.
    destruct (loadToken (tm w)) as [[[td|]|e] tm1]; [eauto|discriminate..]. }
  destruct Hold as [old Hold].
  destruct (drive_success 6 AwaitLoad _ w' b old Hrun Hold)
    as (data & claims & Hreply & Hacc & Hne & Hdec & Htm).
  exists old, data, claims, (replacement claims old data).
  rewrite Htm. cbn [cachedToken disk contents].
  split; [exact Hold|]. split; [exact Hreply|]. split; [exact Hacc|].
  split; [exact Hdec|].
  split; [reflexivity|]. split; [reflexivity|].
  split; [exact Hacc|]. split; [reflexivity|].
  unfold replacement. cbn [phoneNumber clientCode panNumber token].
  split; [reflexivity|]. split; [reflexivity|]. split; [reflexivity|].
  rewrite requireToken_of_cached; cbn [token].
  - rewrite Hacc. reflexivity.
  - rewrite Hacc. cbn. destruct b; [congruence|reflexivity].
Qed.

(** When the (k+1)-th post is the first one answered 401 or 403, the
    earlier ones having been rejected transiently, the refresh rejects with
    [REFRESH_TOKEN_EXPIRED] after exactly k+1 posts and leaves the store as
    the initial load left it. *)
Lemma silentRefreshToken_unauthorized (w : World) (td : AuthToken)
    (tm1 : TokenManager) (k : nat) (st : option Z) :
  loadToken (tm w) = (Ok (Some td), tm1) ->
  truthy (refreshToken td) = true ->
  (k < 3)%nat ->
  (forall j, (j < k)%nat ->
             exists stj, replies (refresh_posts w + j) = Rejected stj
                         /\ transient stj = true) ->
  replies (refresh_posts w + k) = Rejected st ->
  unauthorized st = true ->
  silentRefreshToken decodeJWT replies w
  = Some (Throw (Err REFRESH_TOKEN_EXPIRED),
          mkWorld tm1 (refresh_posts w + k + 1) (S (renewals w)) (api_requests w)).
Proof.
  intros Hl Ht Hk Hprev Hr Hu.
  unfold silentRefreshToken.
  rewrite (drive_load _ _ _ _ _ _ _ Hl Ht).
  destruct k as [|[|[|k]]]; [| | |lia].
  - rewrite Nat.add_0_r in Hr.
    rewrite (drive_post_unauthorized _ _ _ _ _ _ _ _ _ Hr Hu).
    do 2 f_equal. f_equal. lia.
  - destruct (Hprev 0%nat ltac:(lia)) as (st0 & Hr0 & Ht0).
    rewrite Nat.add_0_r in Hr0.
    rewrite (drive_post_transient _ _ _ _ _ _ _ _ _ Hr0 Ht0)
      by (unfold maxRetries; lia).
    rewrite Nat.add_1_r in Hr.
    rewrite (drive_post_unauthorized _ _ _ _ _ _ _ _ _ Hr Hu).
    do 2 f_equal. f_equal. lia.
  - destruct (Hprev 0%nat ltac:(lia)) as (st0 & Hr0 & Ht0).
    destruct (Hprev 1%nat ltac:(lia)) as (st1 & Hr1 & Ht1).
    rewrite Nat.add_0_r in Hr0. rewrite Nat.add_1_r in Hr1.
    rewrite (drive_post_transient _ _ _ _ _ _ _ _ _ Hr0 Ht0)
      by (unfold maxRetries; lia).
    rewrite (drive_post_transient _ _ _ _ _ _ _ _ _ Hr1 Ht1)
      by (unfold maxRetries; lia).
    replace (refresh_posts w + 2)%nat with (S (S (refresh_posts w))) in Hr by lia.
    rewrite (drive_post_unauthorized _ _ _ _ _ _ _ _ _ Hr Hu).
    do 2 f_equal. f_equal. lia.
Qed.

(** C5.  A 401 or 403 from the refresh endpoint ends the execution on the
    spot, on whichever attempt it arrives, with [REFRESH_TOKEN_EXPIRED] and
    without a further post; when it answers the (k+1)-th post, exactly k+1
    posts went out, so a 403 on the first attempt costs exactly one. *)
Theorem refresh_stops_on_unauthorized :
  (forall attempt td le tm0 st,
      unauthorized st = true ->
      driver_step decodeJWT (AwaitPost attempt td le) (Replied (Rejected st)) tm0
      = Some (Settle (Throw (Err REFRESH_TOKEN_EXPIRED)), 0%nat, tm0))
  /\ (forall w td tm1 k st,
         loadToken (tm w) = (Ok (Some td), tm1) ->
         truthy (refreshToken td) = true ->
         (k < 3)%nat ->
         (forall j, (j < k)%nat ->
                    exists stj, replies (refresh_posts w + j) = Rejected stj
                                /\ transient stj = true) ->
         replies (refresh_posts w + k) = Rejected st ->
         unauthorized st = true ->
         silentRefreshToken decodeJWT replies w
         = Some (Throw (Err REFRESH_TOKEN_EXPIRED),
                 mkWorld tm1 (refresh_posts w + k + 1) (S (renewals w))
                   (api_requests w))
         /\ classify (Err REFRESH_TOKEN_EXPIRED) = RenewalCredentialExpired).
Proof.
  split.
  - intros attempt td le tm0 st Hu. unfold unauthorized in Hu.
    cbn. unfold on_attempt_error. rewrite Hu. reflexivity.
  - intros w td tm1 k st Hl Ht Hk Hprev Hr Hu. split; [|reflexivity].
    apply (silentRefreshToken_unauthorized w td tm1 k st); assumption.
Qed.

(** C6.  Three attempts that all fail with a transient rejection (no
    response, or a status other than 400, 401 and 403) exhaust the loop: the
    execution rejects with the error of the last attempt after exactly three
    posts, and that error falls in the class [RenewalFailed]. *)
Theorem refresh_exhaustion_is_RenewalFailed
    (w : World) (td : AuthToken) (tm1 : TokenManager) (st1 st2 st3 : option Z) :
  loadToken (tm w) = (Ok (Some td), tm1) ->
  truthy (refreshToken td) = true ->
  replies (refresh_posts w) = Rejected st1 -> transient st1 = true ->
  replies (refresh_posts w + 1) = Rejected st2 -> transient st2 = true ->
  replies (refresh_posts w + 2) = Rejected st3 -> transient st3 = true ->
  silentRefreshToken decodeJWT replies w
  = Some (Throw (AxiosError st3),
          mkWorld tm1 (refresh_posts w + 3) (S (renewals w)) (api_requests w))
  /\ classify (AxiosError st3) = RenewalFailed.
Proof.
  intros Hl Ht Hr1 Ht1 Hr2 Ht2 Hr3 Ht3. split; [|reflexivity].
  unfold silentRefreshToken.
  rewrite (drive_load _ _ _ _ _ _ _ Hl Ht).
  rewrite Nat.add_1_r in Hr2.
  replace (refresh_posts w + 2)%nat with (S (S (refresh_posts w))) in Hr3 by lia.
  rewrite (drive_post_transient _ _ _ _ _ _ _ _ _ Hr1 Ht1)
    by (unfold maxRetries; lia).
  rewrite (drive_post_transient _ _ _ _ _ _ _ _ _ Hr2 Ht2)
    by (unfold maxRetries; lia).
  change (1 + 1 + 1) with maxRetries.
  rewrite (drive_post_exhausted _ _ _ _ _ _ _ _ Hr3 Ht3).
  do 2 f_equal. f_equal. lia.
Qed.

End RefreshProperties.

(** Scenario A: after a login with renewal credential [r1], a renewal
    answered with bearer [b2] and renewal credential [r2]. *)
Lemma renewal_replaces_record_witness :
  silentRefreshToken noClaims (stream [Response renewed] (Rejected None)) sessionWorld
  = Some (Ok "b2", renewedWorld)
  /\ exists old data claims new,
      fst (loadToken (tm sessionWorld)) = Ok (Some old)
      /\ stream [Response renewed] (Rejected None)
           (Nat.pred (refresh_posts renewedWorld)) = Response data
      /\ access_token data = Some "b2"
      /\ noClaims "b2" = Some claims
      /\ cachedToken (tm renewedWorld) = Some new
      /\ contents (disk (tm renewedWorld)) = Json new
      /\ token new = Some "b2"
      /\ refreshToken new
         = (if truthy (refresh_token data) then refresh_token data
            else refreshToken old)
      /\ phoneNumber new = js_or (jwt_phoneNumber claims) (phoneNumber old)
      /\ clientCode new = js_or (jwt_uid claims) (clientCode old)
      /\ panNumber new = js_or (jwt_panNumber claims) (panNumber old)
      /\ requireToken (tm renewedWorld) = (Ok "b2", tm renewedWorld).
Proof.
  split; [reflexivity|].
  apply (renewal_replaces_record noClaims
           (stream [Response renewed] (Rejected None)) sessionWorld renewedWorld "b2").
  reflexivity.
Defined.

(** A 403 on the first of the three attempts: one post, no more. *)
Lemma refresh_stops_on_unauthorized_witness :
  silentRefreshToken noClaims
    (stream [Rejected (Some 403)] (Response renewed)) sessionWorld
  = Some (Throw (Err REFRESH_TOKEN_EXPIRED), mkWorld sessionManager 1 1 0).
Proof.
  apply (proj2 (refresh_stops_on_unauthorized noClaims
                  (stream [Rejected (Some 403)] (Response renewed)))
           sessionWorld loggedIn sessionManager 0%nat (Some 403));
    try reflexivity; lia.
Defined.

Lemma refresh_exhaustion_is_RenewalFailed_witness :
  silentRefreshToken noClaims
    (stream [Rejected (Some 500); Rejected None; Rejected (Some 503)]
       (Response renewed)) sessionWorld
  = Some (Throw (AxiosError (Some 503)), mkWorld sessionManager 3 1 0)
  /\ classify (AxiosError (Some 503)) = RenewalFailed.
Proof.
  apply (refresh_exhaustion_is_RenewalFailed noClaims
           (stream [Rejected (Some 500); Rejected None; Rejected (Some 503)]
              (Response renewed))
           sessionWorld loggedIn sessionManager (Some 500) None (Some 503));
    reflexivity.
Defined.

(* ================================================================== *)
(** * Properties of the request executor *)
(* ================================================================== *)

Lemma loadToken_disk (tm0 tm1 : TokenManager) (v : Result (option AuthToken)) :
  loadToken tm0 = (v, tm1) -> disk tm1 = disk tm0.
Proof.
  destruct tm0 as [[t|] [[| |u] wr]]; cbn; intros H; inversion H; reflexivity.
Qed.

Section ClientProperties.

Variable decodeJWT : string -> option DecodedJWT.
Context {B : Type}.
Variable api : nat -> string -> Reply B.
Variable replies : nat -> Reply LoginResponse.

(** A request that carries the retry mark is sent once and its outcome is
    handed on as it is. *)
Lemma client_retried (f : nat) (cfg : RequestConfig) (w : World) :
  retry_flag cfg = true ->
  client decodeJWT api replies (S f) cfg w
  = Some (match api (api_requests w) (authorization cfg) with
          | Response data => Ok data
          | Rejected st => Throw (AxiosError st)
          end, sent w).
Proof.
  intros Hflag. cbn [client]. rewrite Hflag.
  destruct (api (api_requests w) (authorization cfg)) as [data|st]; [reflexivity|].
  rewrite andb_false_r. reflexivity.
Qed.

(** A first sending rejected 401/403 whose renewal succeeds: the request is
    sent once more, with the new bearer credential and the retry mark. *)
Lemma client_renewed (fuel : nat) (h : string) (w w2 : World) (st : option Z)
    (newToken : string) :
  (2 <= fuel)%nat ->
  api (api_requests w) h = Rejected st -> unauthorized st = true ->
  silentRefreshToken decodeJWT replies (sent w) = Some (Ok newToken, w2) ->
  client decodeJWT api replies fuel (mkConfig h false) w
  = Some (match api (api_requests w2) (bearer newToken) with
          | Response data => Ok data
          | Rejected st2 => Throw (AxiosError st2)
          end, sent w2).
Proof.
  intros Hf Hapi Hun Hrun. destruct fuel as [|[|fuel]]; [lia|lia|].
  remember (S fuel) as fuel' eqn:Hfuel.
  cbn [client authorization retry_flag].
  rewrite Hapi. unfold unauthorized in Hun. rewrite Hun. cbn [negb andb].
  fold (sent w). rewrite Hrun. subst fuel'.
  rewrite client_retried by reflexivity. reflexivity.
Qed.

(** A first sending rejected 401/403 whose renewal fails: nothing more is
    sent; the store is cleared when the renewal credential has expired. *)
Lemma client_renewal_failed (fuel : nat) (h : string) (w w2 : World)
    (st : option Z) (e : JsError) :
  (1 <= fuel)%nat ->
  api (api_requests w) h = Rejected st -> unauthorized st = true ->
  silentRefreshToken decodeJWT replies (sent w) = Some (Throw e, w2) ->
  client decodeJWT api replies fuel (mkConfig h false) w
  = Some (match classify e with
          | RenewalCredentialExpired =>
              (Throw (Err SESSION_EXPIRED),
               mkWorld (snd (clearToken (tm w2))) (refresh_posts w2) (renewals w2)
                 (api_requests w2))
          | RenewalFailed => (Throw (Err ACCESS_TOKEN_EXPIRED), w2)
          end).
Proof.
  intros Hf Hapi Hun Hrun. destruct fuel as [|fuel]; [lia|].
  cbn [client authorization retry_flag].
  rewrite Hapi. unfold unauthorized in Hun. rewrite Hun. cbn [negb andb].
  fold (sent w). rewrite Hrun. unfold classify.
  destruct (message_is e REFRESH_TOKEN_EXPIRED); [|reflexivity].
  destruct (clearToken (tm w2)); reflexivity.
Qed.

(** C2 (amended).  A logical request is sent once or twice, never more, and
    at most one renewal is performed.  The second sending happens only after
    a renewal that succeeded: it then happens exactly once, with the new
    bearer credential, and what the retried request returns or is rejected
    with reaches the caller unchanged, a second 401/403 included.  When the
    renewal fails no retry is sent and the caller gets one of the
    interceptor's two session-expired errors, chosen by the class of the
    renewal's failure; those errors arise in no other way.  A first sending
    that is answered, or rejected with another status, is the only one and
    starts no renewal. *)
Theorem request_retried_at_most_once (h : string) (w : World) :
  exists r w',
    (forall fuel, (2 <= fuel)%nat ->
        client decodeJWT api replies fuel (mkConfig h false) w = Some (r, w'))
    /\ (api_requests w < api_requests w' <= api_requests w + 2)%nat
    /\ (renewals w <= renewals w' <= renewals w + 1)%nat
    /\ (api_requests w' = (api_requests w + 2)%nat ->
        renewals w' = (renewals w + 1)%nat)
    /\ (forall st1 newToken w2 st2,
           api (api_requests w) h = Rejected st1 -> unauthorized st1 = true ->
           silentRefreshToken decodeJWT replies (sent w) = Some (Ok newToken, w2) ->
           api (S (api_requests w)) (bearer newToken) = Rejected st2 ->
           r = Throw (AxiosError st2)
           /\ api_requests w' = (api_requests w + 2)%nat)
    /\ (is_session_expired r = true ->
        exists st1 e w2,
          api (api_requests w) h = Rejected st1 /\ unauthorized st1 = true
          /\ silentRefreshToken decodeJWT replies (sent w) = Some (Throw e, w2)
          /\ api_requests w' = (api_requests w + 1)%nat
          /\ r = Throw (Err (match classify e with
                             | RenewalCredentialExpired => SESSION_EXPIRED
                             | RenewalFailed => ACCESS_TOKEN_EXPIRED
                             end)))
    /\ (forall st1 newToken w2,
           api (api_requests w) h = Rejected st1 -> unauthorized st1 = true ->
           silentRefreshToken decodeJWT replies (sent w) = Some (Ok newToken, w2) ->
           w' = sent w2
           /\ api_requests w' = (api_requests w + 2)%nat
           /\ renewals w' = (renewals w + 1)%nat
           /\ r = match api (S (api_requests w)) (bearer newToken) with
                  | Response data => Ok data
                  | Rejected st2 => Throw (AxiosError st2)
                  end)
    /\ (forall st1 e w2,
           api (api_requests w) h = Rejected st1 -> unauthorized st1 = true ->
           silentRefreshToken decodeJWT replies (sent w) = Some (Throw e, w2) ->
           api_requests w' = (api_requests w + 1)%nat
           /\ renewals w' = (renewals w + 1)%nat
           /\ refresh_posts w' = refresh_posts w2
           /\ r = Throw (Err (match classify e with
                              | RenewalCredentialExpired => SESSION_EXPIRED
                              | RenewalFailed => ACCESS_TOKEN_EXPIRED
                              end)))
    /\ (api_requests w' = (api_requests w + 2)%nat ->
        exists st1 newToken w2,
          api (api_requests w) h = Rejected st1 /\ unauthorized st1 = true
          /\ silentRefreshToken decodeJWT replies (sent w) = Some (Ok newToken, w2))
    /\ ((forall st1, api (api_requests w) h = Rejected st1 ->
                     unauthorized st1 = false) ->
        w' = sent w
        /\ r = match api (api_requests w) h with
               | Response data => Ok data
               | Rejected st1 => Throw (AxiosError st1)
               end).
Proof.
  destruct (api (api_requests w) h) as [data|st] eqn:Hapi.
  - (* answered at once *)
    exists (Ok data), (sent w).
    refine (conj _ (conj _ (conj _ (conj _ (conj _ (conj _
              (conj _ (conj _ (conj _ _)))))))));
        cbn [api_requests renewals sent].
    + intros [|fuel] Hf; [lia|]. cbn. rewrite Hapi. reflexivity.
    + lia.
    + lia.
    + lia.
    + discriminate.
    + discriminate.
    + discriminate.
    + discriminate.
    + lia.
    + intros _. split; reflexivity.
  - destruct (unauthorized st) eqn:Hun.
    + destruct (silentRefreshToken_settles decodeJWT replies (sent w))
        as (r0 & w2 & Hrun & Hposts & Hren & Hreq).
      cbn in Hren, Hreq.
      destruct r0 as [newToken|e].
      * (* renewed: the one retry *)
        exists (match api (api_requests w2) (bearer newToken) with
                | Response data => Ok data
                | Rejected st2 => Throw (AxiosError st2)
                end), (sent w2).
        refine (conj _ (conj _ (conj _ (conj _ (conj _ (conj _
                  (conj _ (conj _ (conj _ _)))))))));
          cbn [api_requests renewals sent]; rewrite ?Hreq, ?Hren.
        -- intros fuel Hf.
           rewrite (client_renewed fuel h w w2 st newToken Hf Hapi Hun Hrun).
           rewrite Hreq. reflexivity.
        -- lia.
        -- lia.
        -- lia.
        -- intros st1 nt w3 st2 _ _ H Hst2. rewrite Hrun in H.
           inversion H; subst. rewrite Hst2. split; [reflexivity|lia].
        -- destruct (api (S (api_requests w)) (bearer newToken)); discriminate.
        -- intros st1 nt w3 _ _ H. rewrite Hrun in H. inversion H; subst.
           split; [reflexivity|]. split; [lia|]. split; [lia|reflexivity].
        -- intros st1 e w3 _ _ H. rewrite Hrun in H. discriminate.
        -- intros _. exists st, newToken, w2. auto.
        -- intros Hno. specialize (Hno st eq_refl). congruence.
      * (* the renewal failed: no retry *)
        pose proof (client_renewal_failed 1 h w w2 st e ltac:(lia) Hapi Hun Hrun)
          as Hcall.
        assert (Hfuel : forall r w',
                   client decodeJWT api replies 1 (mkConfig h false) w = Some (r, w') ->
                   forall fuel, (2 <= fuel)%nat ->
                     client decodeJWT api replies fuel (mkConfig h false) w
                     = Some (r, w')).
        { intros r w' H1 fuel Hf.
          rewrite (client_renewal_failed fuel h w w2 st e ltac:(lia) Hapi Hun Hrun).
          rewrite <- H1. exact (eq_sym Hcall). }
        destruct (classify e) eqn:Hclass.
        -- exists (Throw (Err SESSION_EXPIRED)),
             (mkWorld (snd (clearToken (tm w2))) (refresh_posts w2) (renewals w2)
                (api_requests w2)).
           refine (conj _ (conj _ (conj _ (conj _ (conj _ (conj _
                     (conj _ (conj _ (conj _ _)))))))));
             cbn [api_requests renewals refresh_posts sent].
           ++ apply Hfuel. exact Hcall.
           ++ lia.
           ++ lia.
           ++ lia.
           ++ intros st1 nt w3 st2 _ _ H. rewrite Hrun in H. discriminate.
           ++ intros _. exists st, e, w2. rewrite Hclass.
              repeat split; try assumption; try reflexivity; lia.
           ++ intros st1 nt w3 _ _ H. rewrite Hrun in H. discriminate.
           ++ intros st1 e' w3 _ _ H. rewrite Hrun in H. inversion H; subst.
              rewrite Hclass. repeat split; lia.
           ++ lia.
           ++ intros Hno. specialize (Hno st eq_refl). congruence.
        -- exists (Throw (Err ACCESS_TOKEN_EXPIRED)), w2.
           refine (conj _ (conj _ (conj _ (conj _ (conj _ (conj _
                     (conj _ (conj _ (conj _ _)))))))));
             cbn [api_requests renewals refresh_posts sent].
           ++ apply Hfuel. exact Hcall.
           ++ lia.
           ++ lia.
           ++ lia.
           ++ intros st1 nt w3 st2 _ _ H. rewrite Hrun in H. discriminate.
           ++ intros _. exists st, e, w2. rewrite Hclass.
              repeat split; try assumption; try reflexivity; lia.
           ++ intros st1 nt w3 _ _ H. rewrite Hrun in H. discriminate.
           ++ intros st1 e' w3 _ _ H. rewrite Hrun in H. inversion H; subst.
              rewrite Hclass. repeat split; lia.
           ++ lia.
           ++ intros Hno. specialize (Hno st eq_refl). congruence.
    + (* any other rejection passes through *)
      exists (Throw (AxiosError st)), (sent w).
      refine (conj _ (conj _ (conj _ (conj _ (conj _ (conj _
                (conj _ (conj _ (conj _ _)))))))));
        cbn [api_requests renewals sent].
      * intros [|fuel] Hf; [lia|]. cbn [client authorization retry_flag].
        rewrite Hapi. unfold unauthorized in Hun. rewrite Hun. reflexivity.
      * lia.
      * lia.
      * lia.
      * intros st1 nt w3 st2 H Hu. inversion H; subst. congruence.
      * discriminate.
      * intros st1 nt w3 H Hu. inversion H; subst. congruence.
      * intros st1 e w3 H Hu. inversion H; subst. congruence.
      * lia.
      * intros _. split; reflexivity.
Qed.

Lemma loadToken_some (tm0 tm1 : TokenManager) (td : AuthToken) :
  loadToken tm0 = (Ok (Some td), tm1) -> cachedToken tm1 = Some td.
Proof.
  destruct tm0 as [[t|] [[| |u] wr]]; cbn; intros H; inversion H; reflexivity.
Qed.

(** C3 (amended).  When a request is rejected with 401/403 and the renewal
    it triggers is answered 401/403 by the refresh endpoint, the refresh
    itself rejects with [REFRESH_TOKEN_EXPIRED] and leaves the record in the
    store; it is the interceptor that, on catching that error, clears the
    store before it raises the session-expired error to its caller.  With a
    writable token file the next [requireToken] then fails with the
    not-authenticated error. *)
Theorem expired_renewal_clears_store (h : string) (w : World) (td : AuthToken)
    (tm1 : TokenManager) (k : nat) (st0 st : option Z) :
  api (api_requests w) h = Rejected st0 -> unauthorized st0 = true ->
  loadToken (tm w) = (Ok (Some td), tm1) ->
  truthy (refreshToken td) = true ->
  (k < 3)%nat ->
  (forall j, (j < k)%nat ->
             exists stj, replies (refresh_posts w + j) = Rejected stj
                         /\ transient stj = true) ->
  replies (refresh_posts w + k) = Rejected st -> unauthorized st = true ->
  writable (disk (tm w)) = true ->
  silentRefreshToken decodeJWT replies (sent w)
  = Some (Throw (Err REFRESH_TOKEN_EXPIRED),
          mkWorld tm1 (refresh_posts w + k + 1) (S (renewals w)) (S (api_requests w)))
  /\ cachedToken tm1 = Some td
  /\ (forall fuel, (1 <= fuel)%nat ->
        client decodeJWT api replies fuel (mkConfig h false) w
        = Some (Throw (Err SESSION_EXPIRED),
                mkWorld clearedManager (refresh_posts w + k + 1) (S (renewals w))
                  (S (api_requests w))))
  /\ fst (requireToken clearedManager) = Throw (Err NOT_AUTHENTICATED).
Proof.
  intros Hapi Hun0 Hl Ht Hk Hprev Hr Hun Hw.
  assert (Hrun : silentRefreshToken decodeJWT replies (sent w)
                 = Some (Throw (Err REFRESH_TOKEN_EXPIRED),
                         mkWorld tm1 (refresh_posts w + k + 1) (S (renewals w))
                           (S (api_requests w)))).
  { apply (silentRefreshToken_unauthorized decodeJWT replies (sent w) td tm1 k st);
      assumption. }
  split; [exact Hrun|]. split; [eapply loadToken_some; exact Hl|].
  split; [|reflexivity].
  intros [|fuel] Hf; [lia|]. cbn [client authorization retry_flag].
  rewrite Hapi. unfold unauthorized in Hun0. rewrite Hun0. cbn [negb andb].
  fold (sent w). rewrite Hrun.
  change (message_is (Err REFRESH_TOKEN_EXPIRED) REFRESH_TOKEN_EXPIRED) with true.
  cbn [tm refresh_posts renewals api_requests].
  rewrite clearToken_writable; [reflexivity|].
  rewrite (loadToken_disk _ _ _ Hl). exact Hw.
Qed.

End ClientProperties.

(** A platform that keeps answering 401: the request goes out twice, one
    renewal succeeds in between, and the caller receives the second 401 as
    it is, not a session-expired error. *)
Lemma second_rejection_counterexample :
  client noClaims alwaysUnauthorized (stream [Response renewed] (Rejected None)) 2
    (mkConfig (bearer "b1") false) sessionWorld
  = Some (Throw (AxiosError (Some 401)), mkWorld renewedManager 1 1 2)
  /\ ~ second_rejection_is_session_expired.
Proof.
  split; [reflexivity|].
  intros H.
  specialize (H noClaims alwaysUnauthorized
                (stream [Response renewed] (Rejected None)) (bearer "b1")
                sessionWorld (mkWorld renewedManager 1 1 1)
                (mkWorld renewedManager 1 1 2)
                (Some 401) (Some 401) "b2" (Throw (AxiosError (Some 401)))
                eq_refl eq_refl eq_refl eq_refl eq_refl eq_refl).
  discriminate H.
Qed.

(** A platform that keeps answering 401, first with a renewal that
    succeeds, then with a renewal the refresh endpoint answers 400. *)
Lemma request_retried_at_most_once_witness :
  (exists r w',
      client noClaims alwaysUnauthorized (stream [Response renewed] (Rejected None)) 2
        (mkConfig (bearer "b1") false) sessionWorld = Some (r, w')
      /\ (api_requests w' <= 2)%nat /\ (renewals w' <= 1)%nat)
  /\ (exists r w',
         client noClaims alwaysUnauthorized
           (stream [Rejected (Some 400)] (Response renewed)) 2
           (mkConfig (bearer "b1") false) sessionWorld = Some (r, w')
         /\ api_requests w' = 1%nat /\ refresh_posts w' = 1%nat
         /\ r = Throw (Err ACCESS_TOKEN_EXPIRED)).
Proof.
  split.
  - destruct (request_retried_at_most_once noClaims alwaysUnauthorized
                (stream [Response renewed] (Rejected None)) (bearer "b1") sessionWorld)
      as (r & w' & Hrun & Hreq & Hren & _).
    exists r, w'. split; [apply Hrun; lia|]. cbn in Hreq, Hren. lia.
  - destruct (request_retried_at_most_once noClaims alwaysUnauthorized
                (stream [Rejected (Some 400)] (Response renewed)) (bearer "b1")
                sessionWorld)
      as (r & w' & Hrun & _ & _ & _ & _ & _ & _ & Hfailed & _).
    destruct (Hfailed (Some 401) (Err REFRESH_FAILED) (mkWorld sessionManager 1 1 1)
                eq_refl eq_refl eq_refl) as (Hreq & _ & Hposts & Hr).
    exists r, w'. split; [apply Hrun; lia|].
    split; [exact Hreq|]. split; [exact Hposts|exact Hr].
Defined.

(** The refresh answered 403 rejects and leaves the store as it was: the
    bearer credential is still handed out right after it. *)
Lemma refresh_clears_store_counterexample :
  silentRefreshToken noClaims (stream [Rejected (Some 403)] (Rejected None)) sessionWorld
  = Some (Throw (Err REFRESH_TOKEN_EXPIRED), mkWorld sessionManager 1 1 0)
  /\ requireToken sessionManager = (Ok "b1", sessionManager)
  /\ ~ refresh_clears_store.
Proof.
  split; [reflexivity|]. split; [reflexivity|].
  intros H.
  specialize (H noClaims (stream [Rejected (Some 403)] (Rejected None))
                sessionWorld (mkWorld sessionManager 1 1 0) eq_refl).
  discriminate H.
Qed.

(** Scenario B through the interceptor: the request is rejected 401, the
    renewal is rejected 403. *)
Lemma expired_renewal_clears_store_witness :
  client noClaims alwaysUnauthorized (stream [Rejected (Some 403)] (Rejected None)) 2
    (mkConfig (bearer "b1") false) sessionWorld
  = Some (Throw (Err SESSION_EXPIRED), mkWorld clearedManager 1 1 1)
  /\ fst (requireToken clearedManager) = Throw (Err NOT_AUTHENTICATED).
Proof.
  destruct (expired_renewal_clears_store noClaims alwaysUnauthorized
              (stream [Rejected (Some 403)] (Rejected None))
              (bearer "b1") sessionWorld loggedIn sessionManager 0%nat
              (Some 401) (Some 403))
    as (_ & _ & Hclient & Hreq); try reflexivity; try lia.
  split; [apply Hclient; lia|exact Hreq].
Defined.

(* ================================================================== *)
(** * Properties of the polling loops *)
(* ================================================================== *)

Lemma after_pending_0 (intervalMs : Z) (w : PollWorld) :
  after_pending intervalMs 0 w = w.
Proof.
  destruct w as [n t]. unfold after_pending. cbn [probes slept].
  f_equal; lia.
Qed.

Lemma after_pending_S (intervalMs : Z) (j : nat) (w : PollWorld) :
  after_pending intervalMs j (after_pending intervalMs 1 w)
  = after_pending intervalMs (S j) w.
Proof.
  unfold after_pending. cbn [probes slept]. f_equal; lia.
Qed.

Section LoopProperties.

Context {R : Type}.
Variable iteration : M PollWorld (Iteration R).
Variable timeout : R.
Variables maxAttempts intervalMs : Z.

(** [k] pending iterations in a row move the loop [k] attempts on. *)
Lemma poll_loop_skip (k : nat) :
  forall (f : nat) (attempt : Z) (w : PollWorld),
    attempt + Z.of_nat k <= maxAttempts + 1 ->
    (forall j, (j < k)%nat ->
               iteration (after_pending intervalMs j w)
               = (Ok Next, after_pending intervalMs (S j) w)) ->
    poll_loop (k + f) iteration timeout maxAttempts attempt w
    = poll_loop f iteration timeout maxAttempts (attempt + Z.of_nat k)
        (after_pending intervalMs k w).
Proof.
  induction k as [|k IH]; intros f attempt w Hle Hpending.
  - rewrite after_pending_0. cbn [Nat.add]. f_equal. lia.
  - cbn [Nat.add poll_loop].
    destruct (Z.leb_spec attempt maxAttempts) as [_|Hgt]; [|lia].
    pose proof (Hpending 0%nat ltac:(lia)) as H0.
    rewrite after_pending_0 in H0. rewrite H0.
    rewrite IH.
    + rewrite after_pending_S. f_equal. lia.
    + lia.
    + intros j Hj. rewrite !after_pending_S. apply Hpending. lia.
Qed.

(** An iteration that never throws makes the loop end with a result. *)
Lemma poll_loop_total :
  (forall w, exists it w', iteration w = (Ok it, w') /\ probes w' = S (probes w)) ->
  forall (fuel : nat) (attempt : Z) (w : PollWorld),
    (Z.to_nat (maxAttempts + 1 - attempt) < fuel)%nat ->
    exists r w',
      poll_loop fuel iteration timeout maxAttempts attempt w = Some (Ok r, w')
      /\ (probes w <= probes w'
          <= probes w + Z.to_nat (maxAttempts + 1 - attempt))%nat
      /\ (attempt <= maxAttempts -> (probes w < probes w')%nat)
      /\ (r = timeout \/ exists w1 w2, iteration w1 = (Ok (Return r), w2)).
Proof.
  intros Hiter. induction fuel as [|fuel IH]; intros attempt w Hfuel; [lia|].
  cbn [poll_loop]. destruct (Z.leb_spec attempt maxAttempts) as [Hle|Hgt].
  - destruct (Hiter w) as (it & w1 & Hit & Hprobe). rewrite Hit.
    destruct it as [r|].
    + exists r, w1. rewrite Hprobe. repeat split; try lia. right. eauto.
    + destruct (IH (attempt + 1) w1 ltac:(lia)) as (r & w' & Hrun & Hb & _ & Hr).
      exists r, w'. rewrite Hprobe in Hb. repeat split; try assumption; lia.
  - exists timeout, w. repeat split; try lia. left. reflexivity.
Qed.

End LoopProperties.

(* ------------------------------------------------------------------ *)
(** ** Payment status *)

Section PaymentProperties.

Variable probe : nat -> Reply (option PaymentBody).
Variable intervalMs : Z.

Lemma payment_iteration_total (w : PollWorld) :
  exists it w', payment_iteration probe intervalMs w = (Ok it, w')
                /\ probes w' = S (probes w).
Proof.
  unfold payment_iteration, try_catch, bind, post, sleep, ret, throw.
  destruct (probe (probes w)) as [[b|]|st]; cbn.
  - destruct (payment_approved b); [eauto|].
    destruct (payment_rejected b); eauto.
  - eauto.
  - eauto.
Qed.

Lemma payment_iteration_return (w1 w2 : PollWorld) (r : PollResult string) :
  payment_iteration probe intervalMs w1 = (Ok (Return r), w2) ->
  payment_shape r.
Proof.
  unfold payment_iteration, try_catch, bind, post, sleep, ret, throw.
  destruct (probe (probes w1)) as [[b|]|st]; cbn; try discriminate.
  destruct (payment_approved b).
  - intros H. inversion H; subst. left. split; [reflexivity|eauto].
  - destruct (payment_rejected b); [|discriminate].
    intros H. inversion H; subst. right; left. split; [reflexivity|eauto].
Qed.

Lemma payment_iteration_pending (j : nat) (w : PollWorld) :
  payment_terminal (probe (probes w + j)) = false ->
  payment_iteration probe intervalMs (after_pending intervalMs j w)
  = (Ok Next, after_pending intervalMs (S j) w).
Proof.
  intros Hnt.
  unfold payment_iteration, try_catch, bind, post, sleep, ret, throw.
  cbn [probes slept after_pending].
  assert (Hnext : mkPollWorld (S (probes w + j))
                    (slept w + Z.of_nat j * Z.max 0 intervalMs + Z.max 0 intervalMs)
                  = after_pending intervalMs (S j) w).
  { unfold after_pending. f_equal; lia. }
  destruct (probe (probes w + j)%nat) as [[b|]|st]; cbn in Hnt |- *.
  - apply orb_false_iff in Hnt as [Ha Hr]. rewrite Ha, Hr. cbn.
    rewrite Hnext. reflexivity.
  - rewrite Hnext. reflexivity.
  - rewrite Hnext. reflexivity.
Qed.

Lemma payment_iteration_approved (w : PollWorld) (b : PaymentBody) :
  probe (probes w) = Response (Some b) ->
  payment_approved b = true ->
  payment_iteration probe intervalMs w
  = (Ok (Return (mkPollResult true "APPROVED" (value_of (pay_data b)))),
     mkPollWorld (S (probes w)) (slept w)).
Proof.
  intros Hp Ha.
  unfold payment_iteration, try_catch, bind, post, sleep, ret, throw.
  rewrite Hp. cbn. rewrite Ha. reflexivity.
Qed.

End PaymentProperties.

(* ------------------------------------------------------------------ *)
(** ** Mandate status *)

Lemma str_is_value (v : option string) (s : string) :
  str_is v s = true -> v = Some s /\ value_of v = s.
Proof.
  destruct v as [s'|]; cbn; [|discriminate].
  intros H. apply String.eqb_eq in H. subst. split; reflexivity.
Qed.

Lemma mandate_approved_value (v : option string) :
  mandate_approved v = true -> mandate_approved (Some (value_of v)) = true.
Proof.
  intros H. destruct v as [s|]; [exact H|discriminate].
Qed.

Lemma mandate_failed_value (v : option string) :
  mandate_failed v = true ->
  mandate_failed (Some (value_of v)) = true
  /\ String.eqb (value_of v) "TIMEOUT" = false.
Proof.
  intros H. split; [destruct v as [s|]; [exact H|discriminate]|].
  unfold mandate_failed in H. apply orb_true_iff in H as [H|H];
    apply str_is_value in H as [_ ->]; reflexivity.
Qed.

Section MandateProperties.

Variable probe : nat -> Reply (option MandateBody).
Variable intervalMs : Z.

Lemma mandate_iteration_total (w : PollWorld) :
  exists it w', mandate_iteration probe intervalMs w = (Ok it, w')
                /\ probes w' = S (probes w).
Proof.
  unfold mandate_iteration, try_catch, bind, post, sleep, ret, throw.
  destruct (probe (probes w)) as [rd|st]; cbn; [|eauto].
  destruct (mandate_approved (mandateStatus_of rd)).
  - destruct (mandate_payload rd _) as [[pl|e] w'] eqn:Hp;
      unfold mandate_payload, ret, throw in Hp;
      repeat match type of Hp with
             | context [match ?x with _ => _ end] => destruct x
             end; inversion Hp; subst; cbn; eauto.
  - destruct (mandate_failed (mandateStatus_of rd)); [|eauto].
    destruct (mandate_payload rd _) as [[pl|e] w'] eqn:Hp;
      unfold mandate_payload, ret, throw in Hp;
      repeat match type of Hp with
             | context [match ?x with _ => _ end] => destruct x
             end; inversion Hp; subst; cbn; eauto.
Qed.

Lemma mandate_iteration_return (w1 w2 : PollWorld) (r : PollResult MandateData) :
  mandate_iteration probe intervalMs w1 = (Ok (Return r), w2) ->
  mandate_shape r.
Proof.
  unfold mandate_iteration, try_catch, bind, post, sleep, ret, throw.
  destruct (probe (probes w1)) as [rd|st]; cbn; [|discriminate].
  destruct (mandate_approved (mandateStatus_of rd)) eqn:Ha.
  - destruct (mandate_payload rd _) as [[pl|e] w']; [|discriminate].
    intros H. inversion H; subst. left. split; [reflexivity|].
    eexists _, _. split; [reflexivity|]. apply mandate_approved_value, Ha.
  - destruct (mandate_failed (mandateStatus_of rd)) eqn:Hf; [|discriminate].
    destruct (mandate_payload rd _) as [[pl|e] w']; [|discriminate].
    intros H. inversion H; subst.
    apply mandate_failed_value in Hf as [Hf Hne].
    right; left. split.
    + unfold mandate_outcome. cbn [success status]. rewrite Hne. reflexivity.
    + eexists _, _. split; [reflexivity|exact Hf].
Qed.

Lemma mandate_iteration_pending (j : nat) (w : PollWorld) :
  mandate_terminal (probe (probes w + j)) = false ->
  mandate_iteration probe intervalMs (after_pending intervalMs j w)
  = (Ok Next, after_pending intervalMs (S j) w).
Proof.
  intros Hnt.
  unfold mandate_iteration, try_catch, bind, post, sleep, ret, throw.
  cbn [probes slept after_pending].
  assert (Hnext : mkPollWorld (S (probes w + j))
                    (slept w + Z.of_nat j * Z.max 0 intervalMs + Z.max 0 intervalMs)
                  = after_pending intervalMs (S j) w).
  { unfold after_pending. f_equal; lia. }
  destruct (probe (probes w + j)%nat) as [rd|st]; cbn in Hnt |- *.
  - apply orb_false_iff in Hnt as [Ha Hr]. rewrite Ha, Hr. cbn.
    rewrite Hnext. reflexivity.
  - rewrite Hnext. reflexivity.
Qed.

End MandateProperties.

(** C4.  Neither polling function ever throws.  For every probe stream,
    every [maxAttempts >= 1] and every interval the call returns an object
    of exactly one of the three shapes (success, failure, timeout), after at
    least one and at most [maxAttempts] probes: a probe that fails counts as
    one iteration and nothing more.  When none of the [maxAttempts] probes
    is terminal the call returns the timeout object after exactly
    [maxAttempts] probes. *)
Theorem polling_never_throws :
  (forall (probe : nat -> Reply (option PaymentBody)) (maxAttempts intervalMs : Z)
          (w : PollWorld),
      1 <= maxAttempts ->
      exists r w',
        pollPaymentStatus probe maxAttempts intervalMs w = Some (Ok r, w')
        /\ (probes w < probes w' <= probes w + Z.to_nat maxAttempts)%nat
        /\ payment_shape r
        /\ ((forall j, (j < Z.to_nat maxAttempts)%nat ->
                       payment_terminal (probe (probes w + j)%nat) = false) ->
            r = PAYMENT_TIMEOUT
            /\ probes w' = (probes w + Z.to_nat maxAttempts)%nat))
  /\ (forall (probe : nat -> Reply (option MandateBody)) (maxAttempts intervalMs : Z)
             (w : PollWorld),
         1 <= maxAttempts ->
         exists r w',
           pollMandateStatus probe maxAttempts intervalMs w = Some (Ok r, w')
           /\ (probes w < probes w' <= probes w + Z.to_nat maxAttempts)%nat
           /\ mandate_shape r
           /\ ((forall j, (j < Z.to_nat maxAttempts)%nat ->
                          mandate_terminal (probe (probes w + j)%nat) = false) ->
               r = MANDATE_TIMEOUT
               /\ probes w' = (probes w + Z.to_nat maxAttempts)%nat)).
Proof.
  split; intros probe maxAttempts intervalMs w Hmax.
  - destruct (poll_loop_total (payment_iteration probe intervalMs) PAYMENT_TIMEOUT
                maxAttempts (payment_iteration_total probe intervalMs)
                (S (Z.to_nat maxAttempts)) 1 w ltac:(lia))
      as (r & w' & Hrun & Hb & Hlt & Hr).
    exists r, w'. unfold pollPaymentStatus.
    split; [exact Hrun|]. split; [split; [apply Hlt|]; lia|]. split.
    + destruct Hr as [->|(w1 & w2 & Hit)].
      * right; right. split; reflexivity.
      * eapply payment_iteration_return, Hit.
    + intros Hpending.
      rewrite <- (Nat.add_1_r (Z.to_nat maxAttempts)) in Hrun.
      rewrite (poll_loop_skip _ _ maxAttempts intervalMs) in Hrun.
      * cbn [poll_loop] in Hrun.
        destruct (Z.leb_spec (1 + Z.of_nat (Z.to_nat maxAttempts)) maxAttempts);
          [lia|].
        inversion Hrun; subst. split; reflexivity.
      * lia.
      * intros j Hj. apply payment_iteration_pending, Hpending, Hj.
  - destruct (poll_loop_total (mandate_iteration probe intervalMs) MANDATE_TIMEOUT
                maxAttempts (mandate_iteration_total probe intervalMs)
                (S (Z.to_nat maxAttempts)) 1 w ltac:(lia))
      as (r & w' & Hrun & Hb & Hlt & Hr).
    exists r, w'. unfold pollMandateStatus.
    split; [exact Hrun|]. split; [split; [apply Hlt|]; lia|]. split.
    + destruct Hr as [->|(w1 & w2 & Hit)].
      * right; right. split; reflexivity.
      * eapply mandate_iteration_return, Hit.
    + intros Hpending.
      rewrite <- (Nat.add_1_r (Z.to_nat maxAttempts)) in Hrun.
      rewrite (poll_loop_skip _ _ maxAttempts intervalMs) in Hrun.
      * cbn [poll_loop] in Hrun.
        destruct (Z.leb_spec (1 + Z.of_nat (Z.to_nat maxAttempts)) maxAttempts);
          [lia|].
        inversion Hrun; subst. split; reflexivity.
      * lia.
      * intros j Hj. apply mandate_iteration_pending, Hpending, Hj.
Qed.

(** Scenario D: three mandate probes that all report [NEW]. *)
Lemma polling_never_throws_witness :
  exists r w',
    pollMandateStatus (stream [] newMandate) 3 10000 pollStart = Some (Ok r, w')
    /\ r = MANDATE_TIMEOUT /\ probes w' = 3%nat.
Proof.
  destruct (proj2 polling_never_throws (stream [] newMandate) 3 10000 pollStart
              ltac:(lia))
    as (r & w' & Hrun & _ & _ & Htimeout).
  exists r, w'. split; [exact Hrun|]. apply Htimeout.
  intros [|[|[|j]]] Hj; reflexivity.
Defined.

(** C7.  Payment confirmation stops at the first probe that answers with
    status [SUCCESS] and data containing [100|]: when the probes before it
    were all pending, the call returns the approved object carrying that
    data, after exactly as many probes as it took to get there.  With the
    probes pending, pending, approved and [maxAttempts = 5] that is after
    exactly three probes. *)
Theorem payment_poll_stops_at_first_approval :
  (forall (probe : nat -> Reply (option PaymentBody)) (maxAttempts intervalMs : Z)
          (w : PollWorld) (k : nat) (b : PaymentBody) (d : string),
      Z.of_nat k < maxAttempts ->
      (forall j, (j < k)%nat -> payment_terminal (probe (probes w + j)%nat) = false) ->
      probe (probes w + k)%nat = Response (Some b) ->
      pay_status b = Some "SUCCESS" ->
      pay_data b = Some d ->
      includes "100|" d = true ->
      pollPaymentStatus probe maxAttempts intervalMs w
      = Some (Ok (mkPollResult true "APPROVED" d),
              mkPollWorld (probes w + k + 1)
                (slept w + Z.of_nat k * Z.max 0 intervalMs)))
  /\ pollPaymentStatus
       (stream [pendingPayment; pendingPayment; approvedPayment] pendingPayment)
       5 5000 pollStart
     = Some (Ok (mkPollResult true "APPROVED" "100|approved"), mkPollWorld 3 10000).
Proof.
  split; [|reflexivity].
  intros probe maxAttempts intervalMs w k b d Hk Hpending Hprobe Hst Hd Hinc.
  unfold pollPaymentStatus.
  replace (S (Z.to_nat maxAttempts))
    with (k + S (Z.to_nat maxAttempts - k))%nat by lia.
  rewrite (poll_loop_skip _ _ maxAttempts intervalMs).
  - cbn [poll_loop].
    destruct (Z.leb_spec (1 + Z.of_nat k) maxAttempts); [|lia].
    rewrite (payment_iteration_approved probe intervalMs _ b).
    + rewrite Hd. cbn [value_of after_pending probes slept].
      do 3 f_equal. lia.
    + exact Hprobe.
    + unfold payment_approved. rewrite Hst, Hd. cbn. exact Hinc.
  - lia.
  - intros j Hj. apply payment_iteration_pending, Hpending, Hj.
Qed.

Lemma payment_poll_stops_at_first_approval_witness :
  pollPaymentStatus
    (stream [pendingPayment; pendingPayment; approvedPayment] pendingPayment)
    5 5000 pollStart
  = Some (Ok (mkPollResult true "APPROVED" "100|approved"),
          mkPollWorld (0 + 2 + 1) (0 + Z.of_nat 2 * Z.max 0 5000)).
Proof.
  apply (proj1 payment_poll_stops_at_first_approval
           (stream [pendingPayment; pendingPayment; approvedPayment] pendingPayment)
           5 5000 pollStart 2%nat
           (mkPaymentBody (Some "SUCCESS") (Some "100|approved")) "100|approved");
    try reflexivity; try lia.
  intros [|[|j]] Hj; [reflexivity|reflexivity|lia].
Defined.

(* ================================================================== *)
(** * Properties of the shared promise *)
(* ================================================================== *)

Section SingleFlight.

Variable decodeJWT : string -> option DecodedJWT.

Lemma boot_Inv (tm0 : TokenManager) : Inv (boot tm0).
Proof.
  split; cbn; [reflexivity|].
  intros p [r Hr]. rewrite lookup_empty in Hr. discriminate.
Qed.

(** A resumed execution is the one the handle names. *)
Lemma wake_pending (m : Machine) (p : nat) (d : Driver) :
  Inv m -> pending m !! p = Some d ->
  refreshTokenPromise m = Some p /\ pending m = {[p := d]} /\ wf_driver d
  /\ (p < next_promise m)%nat /\ settled m !! p = None.
Proof.
  intros [Hh Hs] Hp.
  destruct (refreshTokenPromise m) as [q|].
  - destruct Hh as (Hq & d0 & Hpend & Hwf).
    rewrite Hpend in Hp. apply lookup_singleton_Some in Hp as [-> ->].
    repeat split; try assumption.
    destruct (settled m !! p) as [r|] eqn:Hr; [|reflexivity].
    destruct (Hs p (ex_intro _ r Hr)) as [_ Hnone].
    rewrite Hpend, lookup_singleton_eq in Hnone. discriminate.
  - rewrite Hh, lookup_empty in Hp. discriminate.
Qed.

Lemma step_Inv (m m' : Machine) (e : Event) :
  Inv m -> step decodeJWT m e = Some m' -> Inv m'.
Proof.
  intros HI Hstep. destruct e as [c|p i]; cbn in Hstep.
  - destruct HI as [Hh Hs].
    destruct (refreshTokenPromise m) as [q|] eqn:Hq;
      inversion Hstep; subst; clear Hstep; split; cbn; rewrite ?Hq.
    + exact Hh.
    + exact Hs.
    + split; [lia|]. exists AwaitLoad. rewrite Hh, insert_empty.
      split; [reflexivity|exact I].
    + intros p Hp. destruct (Hs p Hp) as [Hlt _]. split; [lia|].
      rewrite lookup_insert_ne by lia. rewrite Hh. apply lookup_empty.
  - destruct (pending m !! p) as [d|] eqn:Hp; [|discriminate].
    destruct (wake_pending m p d HI Hp) as (Hh & Hpend & Hwf & Hlt & Hnone).
    destruct HI as [_ Hs].
    destruct (driver_step decodeJWT d i (store m)) as [[[[d'|r] n] tm']|] eqn:Hd;
      inversion Hstep; subst; clear Hstep; split; cbn; rewrite ?Hh.
    + split; [exact Hlt|]. exists d'. rewrite Hpend, insert_singleton_eq.
      split; [reflexivity|].
      eapply driver_step_continue; eassumption.
    + intros q Hq. destruct (Hs q Hq) as [Hql Hqn]. split; [exact Hql|].
      rewrite lookup_insert_ne; [exact Hqn|].
      intros ->. rewrite Hp in Hqn. discriminate.
    + rewrite Hpend. apply delete_singleton_eq.
    + intros q Hq. rewrite Hpend, delete_singleton_eq, lookup_empty.
      apply lookup_insert_is_Some in Hq as [->|[_ Hq]].
      * split; [exact Hlt|reflexivity].
      * split; [apply (Hs q Hq)|reflexivity].
Qed.

Lemma run_Inv (evs : list Event) :
  forall m m', Inv m -> run decodeJWT m evs = Some m' -> Inv m'.
Proof.
  induction evs as [|e evs IH]; intros m m' HI Hrun; cbn in Hrun.
  - inversion Hrun; subst. exact HI.
  - destruct (step decodeJWT m e) as [m1|] eqn:Hstep; [|discriminate].
    eapply IH; [|exact Hrun]. eapply step_Inv; eassumption.
Qed.

Lemma reachable_Inv (m : Machine) : reachable decodeJWT m -> Inv m.
Proof.
  intros (tm0 & evs & Hrun). eapply run_Inv; [apply boot_Inv|exact Hrun].
Qed.

(** While a refresh is in progress every event either hands the same
    promise to one more caller or moves the one execution on. *)
Lemma in_progress_step (p base : nat) (m m' : Machine) (e : Event) :
  in_progress p base m ->
  step decodeJWT m e = Some m' ->
  refreshTokenPromise m' <> None ->
  in_progress p base m'
  /\ settled m' = settled m
  /\ returned m' = (map (fun c => (c, p)) (callers [e]) ++ returned m)%list.
Proof.
  intros (Hh & Hn & d & Hpend & Hwf & Hout) Hstep Hflight.
  destruct e as [c|q i]; cbn in Hstep.
  - rewrite Hh in Hstep. inversion Hstep; subst; clear Hstep.
    unfold in_progress. cbn.
    split; [|split; reflexivity].
    split; [reflexivity|]. split; [exact Hn|]. exists d. auto.
  - destruct (pending m !! q) as [d0|] eqn:Hq; [|discriminate].
    rewrite Hpend in Hq. apply lookup_singleton_Some in Hq as [<- <-].
    destruct (driver_step decodeJWT d i (store m)) as [[[[d'|r] n] tm']|] eqn:Hd;
      inversion Hstep; subst; clear Hstep; cbn in *; [|congruence].
    destruct (driver_step_continue _ _ _ _ _ _ _ Hwf Hd) as (Hwf' & _ & Hposts).
    unfold in_progress. cbn.
    split; [|split; reflexivity].
    split; [exact Hh|]. split; [exact Hn|].
    exists d'. rewrite Hpend, insert_singleton_eq.
    split; [reflexivity|]. split; [exact Hwf'|]. lia.
Qed.

Lemma in_progress_run (p base : nat) (evs : list Event) :
  forall m m',
    in_progress p base m ->
    run_in_flight decodeJWT m evs = Some m' ->
    in_progress p base m'
    /\ settled m' = settled m
    /\ returned m' = (map (fun c => (c, p)) (rev (callers evs)) ++ returned m)%list.
Proof.
  induction evs as [|e evs IH]; intros m m' Hin Hrun; cbn in Hrun.
  - inversion Hrun; subst. auto.
  - destruct (step decodeJWT m e) as [m1|] eqn:Hstep; [|discriminate].
    destruct (refreshTokenPromise m1) as [q|] eqn:Hq; [|discriminate].
    destruct (in_progress_step p base m m1 e Hin Hstep ltac:(congruence))
      as (Hin1 & Hs1 & Hr1).
    destruct (IH m1 m' Hin1 Hrun) as (Hin' & Hs' & Hr').
    split; [exact Hin'|]. split; [congruence|].
    rewrite Hr', Hr1. destruct e as [c|q' i]; cbn.
    + rewrite map_app, <- app_assoc. reflexivity.
    + reflexivity.
Qed.

Lemma in_transit_singleton (m : Machine) (p : nat) (d : Driver) :
  pending m = {[p := d]} -> (in_transit m <= 1)%nat.
Proof.
  intros Hpend. unfold in_transit. rewrite Hpend, map_to_list_singleton.
  etransitivity; [apply length_filter|]. reflexivity.
Qed.

(** C1 (amended).  Starting from a state with no refresh in progress, let
    any number of calls of [silentRefreshToken] arrive, interleaved in any
    way with the progress of the refresh, before it settles.  Then exactly
    one execution of the refresh body was started, every one of the calls
    was handed the promise of that execution, the execution issued at most
    three posts with at most one of them in transit, and when it settles all
    the callers receive its one outcome. *)
Theorem single_flight (m m1 : Machine) (c : nat) (evs : list Event) :
  reachable decodeJWT m -> refreshTokenPromise m = None ->
  run_in_flight decodeJWT m (Renew c :: evs) = Some m1 ->
  let p := next_promise m in
  refreshTokenPromise m1 = Some p
  /\ next_promise m1 = S p
  /\ (forall q, is_Some (pending m1 !! q) -> q = p)
  /\ returned m1
     = (map (fun c' => (c', p)) (rev (callers (Renew c :: evs))) ++ returned m)%list
  /\ delivered m1 p = None
  /\ (outbound m <= outbound m1 <= outbound m + 3)%nat
  /\ (in_transit m1 <= 1)%nat
  /\ (forall e m2,
         step decodeJWT m1 e = Some m2 -> refreshTokenPromise m2 = None ->
         exists r, delivered m2 p = Some r
                   /\ returned m2 = returned m1
                   /\ next_promise m2 = S p
                   /\ outbound m2 = outbound m1).
Proof.
  intros Hreach Hidle Hrun p.
  pose proof (reachable_Inv m Hreach) as [Hh Hs]. rewrite Hidle in Hh.
  cbn [run_in_flight step] in Hrun. rewrite Hidle in Hrun.
  cbn [refreshTokenPromise] in Hrun. fold p in Hrun.
  match type of Hrun with
  | run_in_flight _ ?m0 _ = _ =>
      assert (Hin : in_progress p (outbound m) m0)
  end.
  { unfold in_progress. cbn. split; [reflexivity|]. split; [reflexivity|].
    exists AwaitLoad. rewrite Hh, insert_empty.
    split; [reflexivity|]. split; [exact I|]. cbn. lia. }
  destruct (in_progress_run p (outbound m) evs _ m1 Hin Hrun)
    as ((Hh1 & Hn1 & d & Hpend & Hwf & Hout) & Hset & Hret).
  cbn [settled returned] in Hset, Hret.
  assert (Hfresh : settled m !! p = None).
  { destruct (settled m !! p) as [r|] eqn:Hr; [|reflexivity].
    destruct (Hs p (ex_intro _ r Hr)) as [Hlt _]. unfold p in Hlt. lia. }
  refine (conj Hh1 (conj Hn1 (conj _ (conj _ (conj _ (conj _ (conj _ _))))))).
  - intros q [d0 Hq]. rewrite Hpend in Hq.
    apply lookup_singleton_Some in Hq as [<- _]. reflexivity.
  - rewrite Hret. cbn [callers rev]. rewrite map_app, <- app_assoc. reflexivity.
  - unfold delivered. rewrite Hset. exact Hfresh.
  - rewrite Hout. assert (posts_made d <= 3)%nat; [|lia].
    destruct d; cbn in *; unfold maxRetries in *; lia.
  - eapply in_transit_singleton, Hpend.
  - intros e m2 Hstep Hnone. destruct e as [c'|q i]; cbn in Hstep.
    + rewrite Hh1 in Hstep. inversion Hstep; subst. cbn in Hnone. discriminate.
    + destruct (pending m1 !! q) as [d0|] eqn:Hq; [|discriminate].
      rewrite Hpend in Hq. apply lookup_singleton_Some in Hq as [<- <-].
      destruct (driver_step decodeJWT d i (store m1)) as [[[[d'|r] n] tm']|] eqn:Hd;
        inversion Hstep; subst; clear Hstep; cbn in Hnone; [congruence|].
      pose proof (driver_step_settle _ _ _ _ _ _ _ Hwf Hd) as ->.
      exists r. unfold delivered. cbn. rewrite lookup_insert_eq.
      repeat split; try assumption; try reflexivity. lia.
Qed.

(** C10.  In every reachable state at most one promise is pending, and it
    is the one the handle names; a settled promise is never the one the
    handle names, because the step that settles a promise is the step that
    resets the handle; and a call made when no refresh is in progress is
    handed a promise that is new and unsettled, whose execution starts from
    the beginning. *)
Theorem handle_reset_on_completion (m : Machine) :
  reachable decodeJWT m ->
  (forall p q, is_Some (pending m !! p) -> is_Some (pending m !! q) -> p = q)
  /\ (forall p, refreshTokenPromise m = Some p <-> is_Some (pending m !! p))
  /\ (forall p, is_Some (settled m !! p) -> refreshTokenPromise m <> Some p)
  /\ (forall p i m',
         step decodeJWT m (Wake p i) = Some m' ->
         is_Some (settled m' !! p) ->
         refreshTokenPromise m' = None /\ pending m' = ∅)
  /\ (forall c,
         refreshTokenPromise m = None ->
         exists m',
           step decodeJWT m (Renew c) = Some m'
           /\ refreshTokenPromise m' = Some (next_promise m)
           /\ returned m' = (c, next_promise m) :: returned m
           /\ pending m' !! next_promise m = Some AwaitLoad
           /\ settled m' !! next_promise m = None
           /\ (forall q, is_Some (settled m' !! q) -> q <> next_promise m)).
Proof.
  intros Hreach. pose proof (reachable_Inv m Hreach) as HI.
  pose proof HI as [Hh Hs].
  assert (Hiff : forall p, refreshTokenPromise m = Some p <-> is_Some (pending m !! p)).
  { intros p. split.
    - intros Hp. rewrite Hp in Hh. destruct Hh as (_ & d & Hpend & _).
      rewrite Hpend, lookup_singleton_eq. eauto.
    - intros [d Hd]. apply (wake_pending m p d HI Hd). }
  refine (conj _ (conj Hiff (conj _ (conj _ _)))).
  - intros p q Hp Hq. apply Hiff in Hp. apply Hiff in Hq. congruence.
  - intros p Hp Hhandle. apply Hiff in Hhandle as [d Hd].
    destruct (Hs p Hp) as [_ Hnone]. congruence.
  - intros p i m' Hstep Hsettled. cbn in Hstep.
    destruct (pending m !! p) as [d|] eqn:Hp; [|discriminate].
    destruct (wake_pending m p d HI Hp) as (Hhp & Hpend & Hwf & Hlt & Hnone).
    destruct (driver_step decodeJWT d i (store m)) as [[[[d'|r] n] tm']|] eqn:Hd;
      inversion Hstep; subst; clear Hstep; cbn in *.
    + rewrite Hnone in Hsettled. destruct Hsettled; discriminate.
    + split; [reflexivity|]. rewrite Hpend. apply delete_singleton_eq.
  - intros c Hidle. rewrite Hidle in Hh. cbn [step]. rewrite Hidle.
    eexists. split; [reflexivity|]. cbn.
    assert (Hfresh : forall q, is_Some (settled m !! q) -> q <> next_promise m).
    { intros q Hq. destruct (Hs q Hq). lia. }
    repeat split; try assumption.
    + apply lookup_insert_eq.
    + destruct (settled m !! next_promise m) as [r|] eqn:Hr; [|reflexivity].
      exfalso. apply (Hfresh (next_promise m)); eauto.
Qed.

End SingleFlight.

Lemma boot_reachable (decodeJWT : string -> option DecodedJWT) (tm0 : TokenManager) :
  reachable decodeJWT (boot tm0).
Proof. exists tm0, []. reflexivity. Qed.

(** Two callers share a refresh that needs two posts: both are handed
    promise 0 and receive the bearer credential [b2], one execution was
    started, and two posts went out, not one. *)
Lemma exactly_one_outbound_call_counterexample :
  (exists m1 m2,
      run_in_flight noClaims (boot sessionManager) twoCallersOneRetry = Some m1
      /\ step noClaims m1 (Wake 0 (Replied (Response renewed))) = Some m2
      /\ refreshTokenPromise m2 = None
      /\ returned m2 = [(2, 0); (1, 0)]%nat
      /\ next_promise m2 = 1%nat
      /\ delivered m2 0 = Some (Ok "b2")
      /\ outbound m2 = 2%nat)
  /\ ~ exactly_one_outbound_call.
Proof.
  assert (E : exists m1 m2,
             run_in_flight noClaims (boot sessionManager) twoCallersOneRetry = Some m1
             /\ step noClaims m1 (Wake 0 (Replied (Response renewed))) = Some m2
             /\ refreshTokenPromise m2 = None
             /\ returned m2 = [(2, 0); (1, 0)]%nat
             /\ next_promise m2 = 1%nat
             /\ delivered m2 0 = Some (Ok "b2")
             /\ outbound m2 = 2%nat).
  { eexists. eexists. split; [vm_compute; reflexivity|].
    split; [vm_compute; reflexivity|]. repeat split. }
  split; [exact E|].
  destruct E as (m1 & m2 & Hrun & Hstep & Hnone & _ & _ & _ & Hout).
  intros H.
  specialize (H noClaims (boot sessionManager) m1 m2 1%nat _ _
                (boot_reachable noClaims sessionManager) eq_refl Hrun Hstep Hnone).
  rewrite Hout in H. discriminate H.
Qed.

Lemma single_flight_witness :
  exists m1,
    run_in_flight noClaims (boot sessionManager) twoCallersOneRetry = Some m1
    /\ refreshTokenPromise m1 = Some 0%nat
    /\ next_promise m1 = 1%nat
    /\ returned m1 = [(2, 0); (1, 0)]%nat
    /\ (outbound m1 <= 3)%nat.
Proof.
  destruct (run_in_flight noClaims (boot sessionManager) twoCallersOneRetry)
    as [m1|] eqn:Hrun; [|vm_compute in Hrun; discriminate].
  exists m1. split; [reflexivity|].
  destruct (single_flight noClaims (boot sessionManager) m1 1%nat _
              (boot_reachable noClaims sessionManager) eq_refl Hrun)
    as (H1 & H2 & _ & H4 & _ & H6 & _).
  cbn in H1, H2, H4, H6. repeat split; try assumption. lia.
Defined.

(** After a refresh has completed, the next call starts promise 1 from the
    beginning instead of reading the outcome of promise 0. *)
Lemma handle_reset_on_completion_witness :
  exists m m',
    run noClaims (boot sessionManager) oneRefresh = Some m
    /\ delivered m 0 = Some (Ok "b2")
    /\ refreshTokenPromise m = None
    /\ step noClaims m (Renew 2) = Some m'
    /\ refreshTokenPromise m' = Some 1%nat
    /\ pending m' !! 1%nat = Some AwaitLoad
    /\ settled m' !! 1%nat = None.
Proof.
  destruct (run noClaims (boot sessionManager) oneRefresh) as [m|] eqn:Hrun;
    [|vm_compute in Hrun; discriminate].
  assert (Hreach : reachable noClaims m) by (exists sessionManager, oneRefresh; exact Hrun).
  assert (Hfacts : delivered m 0 = Some (Ok "b2") /\ refreshTokenPromise m = None
                   /\ next_promise m = 1%nat).
  { vm_compute in Hrun. inversion Hrun; subst. repeat split. }
  destruct Hfacts as (Hd & Hidle & Hnext).
  destruct (handle_reset_on_completion noClaims m Hreach) as (_ & _ & _ & _ & Hcall).
  destruct (Hcall 2%nat Hidle) as (m' & Hstep & Hh & _ & Hp & Hs & _).
  rewrite Hnext in Hh, Hp, Hs.
  exists m, m'. repeat split; assumption.
Defined.

(* ------------------------------------------------------------------ *)
(** ** The single caller as a run of the machine *)

Section SoleCaller.

Variable decodeJWT : string -> option DecodedJWT.
Variable replies : nat -> Reply LoginResponse.

(** What [drive] computes is what the machine does when the execution is
    resumed with the reply to its last post, and nothing else happens. *)
Lemma drive_is_a_machine_run (fuel : nat) :
  forall (d : Driver) (w w' : World) (r : Result string) (m : Machine) (p : nat),
    drive decodeJWT fuel replies d w = Some (r, w') ->
    pending m = {[p := d]} -> store m = tm w -> outbound m = refresh_posts w ->
    exists evs m',
      run decodeJWT m evs = Some m'
      /\ callers evs = []
      /\ settled m' = <[p := r]> (settled m)
      /\ pending m' = ∅
      /\ refreshTokenPromise m' = None
      /\ returned m' = returned m
      /\ store m' = tm w' /\ outbound m' = refresh_posts w'.
Proof.
  induction fuel as [|fuel IH]; intros d w w' r m p Hd Hpend Hstore Hout;
    [discriminate|].
  cbn [drive] in Hd.
  destruct (driver_step decodeJWT d (input_for replies d w) (tm w))
    as [[[[d'|r0] n] tm']|] eqn:Hstep; [| |discriminate].
  - set (m1 := mkMachine tm' (refreshTokenPromise m) (next_promise m)
                 (<[p := d']> (pending m)) (settled m) (outbound m + n) (returned m)).
    destruct (IH d' _ w' r m1 p Hd) as (evs & m' & Hrun & Hc & Hs & Hp & Hh & Hr & Hst & Ho).
    + cbn. rewrite Hpend. apply insert_singleton_eq.
    + reflexivity.
    + cbn. lia.
    + exists (Wake p (input_for replies d w) :: evs), m'.
      split; [|auto 10].
      cbn [run step]. rewrite Hpend, lookup_singleton_eq, Hstore, Hstep.
      rewrite <- Hpend. exact Hrun.
  - inversion Hd; subst. clear Hd.
    exists [Wake p (input_for replies d w)].
    eexists. split.
    + cbn [run step]. rewrite Hpend, lookup_singleton_eq, Hstore, Hstep. reflexivity.
    + cbn. rewrite delete_singleton_eq. repeat split. lia.
Qed.

(** A call that no other call overlaps is served as [silentRefreshToken]
    says. *)
Lemma sole_caller_is_served_sequentially (m : Machine) (c : nat) (w w' : World)
    (r : Result string) :
  Inv m -> refreshTokenPromise m = None ->
  store m = tm w -> outbound m = refresh_posts w ->
  silentRefreshToken decodeJWT replies w = Some (r, w') ->
  exists evs m',
    run decodeJWT m (Renew c :: evs) = Some m'
    /\ callers evs = []
    /\ returned m' = (c, next_promise m) :: returned m
    /\ delivered m' (next_promise m) = Some r
    /\ refreshTokenPromise m' = None
    /\ store m' = tm w' /\ outbound m' = refresh_posts w'.
Proof.
  intros [Hh _] Hidle Hstore Hout Hrun. rewrite Hidle in Hh.
  unfold silentRefreshToken in Hrun.
  set (p := next_promise m).
  set (m0 := mkMachine (store m) (Some p) (S p) (<[p := AwaitLoad]> (pending m))
                (settled m) (outbound m) ((c, p) :: returned m)).
  destruct (drive_is_a_machine_run 6 AwaitLoad _ w' r m0 p Hrun)
    as (evs & m' & Hm & Hc & Hs & Hp & Hh' & Hr & Hst & Ho).
  - cbn. rewrite Hh. apply insert_empty.
  - exact Hstore.
  - exact Hout.
  - exists evs, m'. cbn [run step]. rewrite Hidle. fold p. fold m0.
    split; [exact Hm|]. split; [exact Hc|]. split; [exact Hr|].
    split; [unfold delivered; rewrite Hs; apply lookup_insert_eq|]. auto.
Qed.

(** A settled promise keeps its outcome. *)
Lemma settled_forever (m m' : Machine) (e : Event) (p : nat) (r : Result string) :
  Inv m -> step decodeJWT m e = Some m' ->
  delivered m p = Some r -> delivered m' p = Some r.
Proof.
  unfold delivered. intros HI Hstep Hp. destruct e as [c|q i]; cbn in Hstep.
  - destruct (refreshTokenPromise m); inversion Hstep; subst; exact Hp.
  - destruct (pending m !! q) as [d|] eqn:Hq; [|discriminate].
    destruct (wake_pending m q d HI Hq) as (_ & _ & _ & _ & Hnone).
    destruct (driver_step decodeJWT d i (store m)) as [[[[d'|r0] n] tm']|];
      inversion Hstep; subst; cbn; [exact Hp|].
    rewrite lookup_insert_ne; [exact Hp|]. intros ->. congruence.
Qed.

End SoleCaller.

(* ------------------------------------------------------------------ *)
(** ** Worked examples *)

Example includes_marker : includes "100|" "100|approved" = true.
Proof. reflexivity. Qed.

Example includes_inside : includes "101|" "order 7: 101|rejected" = true.
Proof. reflexivity. Qed.

Example includes_absent : includes "100|" "pending" = false.
Proof. reflexivity. Qed.

Example js_or_empty_string : js_or (Some "") (Some "old") = Some "old".
Proof. reflexivity. Qed.

Example requireToken_fresh :
  fst (requireToken freshManager) = Throw (Err NOT_AUTHENTICATED).
Proof. reflexivity. Qed.

(** [clearToken] on a disk that refuses the write empties the cache only:
    the next read finds the old record on file again. *)
Example clearToken_unwritable :
  let tm0 := mkTokenManager (Some loggedIn) (mkDisk (Json loggedIn) false) in
  fst (requireToken (snd (clearToken tm0))) = Ok "b1".
Proof. reflexivity. Qed.

(** Scenario B, end to end: a request rejected 401 whose renewal is
    rejected 403 fails with the session-expired message, and the request
    after it fails before anything is sent. *)
Example scenario_B :
  exists w1,
    authenticated_request noClaims alwaysUnauthorized
      (stream [Rejected (Some 403)] (Rejected None)) 2 sessionWorld
    = Some (Throw (Err SESSION_EXPIRED), w1)
    /\ refresh_posts w1 = 1%nat
    /\ exists w2,
        authenticated_request noClaims alwaysUnauthorized
          (stream [Rejected (Some 403)] (Rejected None)) 2 w1
        = Some (Throw (Err NOT_AUTHENTICATED), w2)
        /\ api_requests w2 = api_requests w1.
Proof.
  eexists. split; [reflexivity|]. split; [reflexivity|].
  eexists. split; reflexivity.
Qed.

(** A mandate that is under processing counts as a success. *)
Example mandate_under_processing :
  pollMandateStatus
    (stream [newMandate]
       (Response (Some (mkMandateBody
                          (Some [mkMandateDetail (Some "UNDER PROCESSING") "M-1"])
                          None))))
    60 10000 pollStart
  = Some (Ok (mkPollResult true "UNDER PROCESSING"
                (Detail (mkMandateDetail (Some "UNDER PROCESSING") "M-1"))),
          mkPollWorld 2 10000).
Proof. reflexivity. Qed.

(** A single attempt whose probe fails is a timeout, not an exception. *)
Example payment_single_failed_probe :
  pollPaymentStatus (stream [] (Rejected None)) 1 1000 pollStart
  = Some (Ok PAYMENT_TIMEOUT, mkPollWorld 1 1000).
Proof. reflexivity. Qed.

(* ================================================================== *)
(** * Properties of the phone number format *)
(* ================================================================== *)

Lemma digits_of_all_digits (s : string) : all_digits (digits_of s) = true.
Proof.
  induction s as [|c s IH]; [reflexivity|]. cbn.
  destruct (is_digit c) eqn:Hc; [cbn; rewrite Hc; exact IH|exact IH].
Qed.

Lemma digits_of_digits (s : string) : all_digits s = true -> digits_of s = s.
Proof.
  induction s as [|c s IH]; [reflexivity|]. cbn. intros H.
  apply andb_true_iff in H as [Hc Hs]. rewrite Hc, IH by assumption. reflexivity.
Qed.

(** '+' and the digits are no white space and start no white space. *)
Lemma plain_byte (c : ascii) :
  is_digit c = true \/ c = "+"%char ->
  space1 c = false /\ (forall c2, space2 c c2 = false)
  /\ (forall c2 c3, space3 c c2 c3 = false).
Proof.
  intros H.
  assert (Hc : (43 <= code c <= 57)%N).
  { destruct H as [H| ->]; [|cbn; lia].
    unfold is_digit in H. apply andb_true_iff in H as [H1 H2].
    apply N.leb_le in H1, H2. lia. }
  unfold space1, space2, space3.
  repeat split; intros;
    repeat match goal with
           | |- context [(?a =? ?b)%N] => destruct (N.eqb_spec a b); try lia
           | |- context [(?a <=? ?b)%N] => destruct (N.leb_spec a b); try lia
           end; reflexivity.
Qed.

Lemma trimStart_plain (c : ascii) (rest : string) :
  is_digit c = true \/ c = "+"%char ->
  trimStart (String c rest) = String c rest.
Proof.
  intros H. destruct (plain_byte c H) as (H1 & H2 & H3).
  cbn. rewrite H1. destruct rest as [|c2 [|c3 r3]]; [reflexivity| |].
  - rewrite H2. reflexivity.
  - rewrite H2, H3. reflexivity.
Qed.

Lemma trim_starts_plain (c : ascii) (rest : string) :
  is_digit c = true \/ c = "+"%char ->
  exists rest', trim (String c rest) = String c rest'.
Proof.
  intros H. unfold trim. rewrite (trimStart_plain c rest H).
  cbn [trimEnd]. rewrite (trimStart_plain c rest H). eauto.
Qed.

Lemma is_digit_not_plus (c : ascii) : is_digit c = true -> c <> "+"%char.
Proof. intros H ->. discriminate H. Qed.

(** A string of digits has no leading plus, trimmed or not. *)
Lemma digits_no_plus (d : string) :
  all_digits d = true -> String.prefix "+" (trim d) = false.
Proof.
  destruct d as [|c rest]; [reflexivity|]. cbn [all_digits]. intros H.
  apply andb_true_iff in H as [Hc _].
  destruct (trim_starts_plain c rest (or_introl Hc)) as [rest' ->].
  cbn [String.prefix].
  destruct (ascii_dec "+" c) as [<-|Hne]; [discriminate Hc|reflexivity].
Qed.

Lemma substring_all (s : string) : String.substring 0 (String.length s) s = s.
Proof.
  induction s as [|c s IH]; [reflexivity|].
  cbn [String.length String.substring]. f_equal. exact IH.
Qed.

Lemma length_digits_append (a b : string) :
  String.length (String.append a b) = (String.length a + String.length b)%nat.
Proof.
  induction a as [|c a IH]; [reflexivity|].
  change (String.append (String c a) b) with (String c (String.append a b)).
  cbn [String.length Nat.add]. f_equal. exact IH.
Qed.

Lemma all_digits_append (a b : string) :
  all_digits (String.append a b) = all_digits a && all_digits b.
Proof.
  induction a as [|c a IH]; [reflexivity|].
  change (String.append (String c a) b) with (String c (String.append a b)).
  cbn [all_digits]. rewrite IH, andb_assoc. reflexivity.
Qed.

Lemma digits_of_plus (s : string) : digits_of (String "+" s) = digits_of s.
Proof. reflexivity. Qed.

Lemma prefix_plus (s : string) : String.prefix "+" (String "+" s) = true.
Proof. destruct s; reflexivity. Qed.

Lemma formatPhoneNumber_plus (ds : string) :
  all_digits ds = true -> formatPhoneNumber (String "+" ds) = String "+" ds.
Proof.
  intros Hds. unfold formatPhoneNumber.
  destruct (trim_starts_plain "+" ds (or_intror eq_refl)) as [rest' ->].
  rewrite prefix_plus, digits_of_plus, (digits_of_digits ds Hds). reflexivity.
Qed.

Lemma formatPhoneNumber_cases (phone : string) :
  formatPhoneNumber phone = String "+" (digits_of phone)
  \/ formatPhoneNumber phone = String "+" (String.append "91" (digits_of phone)).
Proof.
  unfold formatPhoneNumber.
  destruct (String.prefix "+" (trim phone)); [left; reflexivity|].
  destruct ((String.length (digits_of phone) =? 12)%nat
            && String.prefix "91" (digits_of phone)); [left; reflexivity|].
  destruct (String.length (digits_of phone) =? 10)%nat; right; reflexivity.
Qed.

(** The result of [formatPhoneNumber] is a plus sign followed by digits
    only: the digits of the input in their order, with 91 put in front of
    them or not. *)
Theorem formatPhoneNumber_shape (phone : string) :
  exists ds,
    formatPhoneNumber phone = String "+" ds
    /\ all_digits ds = true
    /\ (ds = digits_of phone \/ ds = String.append "91" (digits_of phone)).
Proof.
  pose proof (digits_of_all_digits phone) as Hd.
  destruct (formatPhoneNumber_cases phone) as [H|H]; rewrite H.
  - exists (digits_of phone). auto.
  - exists (String.append "91" (digits_of phone)).
    split; [reflexivity|]. split; [|auto].
    rewrite all_digits_append, Hd. reflexivity.
Qed.

(** Formatting a formatted number changes nothing. *)
Theorem formatPhoneNumber_idempotent (phone : string) :
  formatPhoneNumber (formatPhoneNumber phone) = formatPhoneNumber phone.
Proof.
  pose proof (digits_of_all_digits phone) as Hd.
  destruct (formatPhoneNumber_cases phone) as [H|H]; rewrite H;
    apply formatPhoneNumber_plus; [exact Hd|].
  rewrite all_digits_append, Hd. reflexivity.
Qed.

(** A ten-digit number is given the country code once, however it is
    spelt: bare, with 91 in front, or with +91 in front. *)
Theorem formatPhoneNumber_country_code_once (d : string) :
  all_digits d = true -> String.length d = 10%nat ->
  formatPhoneNumber d = String.append "+91" d
  /\ formatPhoneNumber (String.append "91" d) = String.append "+91" d
  /\ formatPhoneNumber (String.append "+91" d) = String.append "+91" d.
Proof.
  intros Hd Hlen. repeat split.
  - unfold formatPhoneNumber. rewrite (digits_no_plus d Hd), (digits_of_digits d Hd), Hlen.
    reflexivity.
  - assert (H91 : all_digits (String.append "91" d) = true)
      by (rewrite all_digits_append, Hd; reflexivity).
    unfold formatPhoneNumber.
    rewrite (digits_no_plus _ H91), (digits_of_digits _ H91).
    rewrite length_digits_append, Hlen. destruct d; reflexivity.
  - change (String.append "+91" d) with (String "+" (String.append "91" d)).
    apply formatPhoneNumber_plus.
    rewrite all_digits_append, Hd. reflexivity.
Qed.

Lemma formatPhoneNumber_country_code_once_witness :
  formatPhoneNumber "9876543210" = "+919876543210"
  /\ formatPhoneNumber "919876543210" = "+919876543210"
  /\ formatPhoneNumber "+919876543210" = "+919876543210".
Proof.
  apply (formatPhoneNumber_country_code_once "9876543210"); reflexivity.
Defined.

Lemma getPhoneWithoutCountryCode_strip (ds : string) :
  getPhoneWithoutCountryCode (String.append "+91" ds) = ds.
Proof.
  change (String.append "+91" ds) with (String "+" (String "9" (String "1" ds))).
  unfold getPhoneWithoutCountryCode.
  assert (Hp : String.prefix "+91" (String "+" (String "9" (String "1" ds))) = true)
    by (destruct ds; reflexivity).
  rewrite Hp.
  replace (String.length (String "+" (String "9" (String "1" ds))) - 3)%nat
    with (String.length ds) by (cbn [String.length]; lia).
  cbn [String.substring]. apply substring_all.
Qed.

(** Where [formatPhoneNumber] puts +91 in front (no leading plus, and not
    twelve digits that begin with 91), [getPhoneWithoutCountryCode] gives
    back the digits of the input: a ten-digit number makes the round trip
    unchanged. *)
Theorem phone_country_code_round_trip (phone : string) :
  String.prefix "+" (trim phone) = false ->
  (String.length (digits_of phone) =? 12)%nat
  && String.prefix "91" (digits_of phone) = false ->
  getPhoneWithoutCountryCode (formatPhoneNumber phone) = digits_of phone
  /\ (all_digits phone = true ->
      getPhoneWithoutCountryCode (formatPhoneNumber phone) = phone).
Proof.
  intros Hplus H12.
  assert (H : getPhoneWithoutCountryCode (formatPhoneNumber phone) = digits_of phone).
  { unfold formatPhoneNumber. rewrite Hplus, H12.
    assert (Hf : (if (String.length (digits_of phone) =? 10)%nat
                  then String.append "+91" (digits_of phone)
                  else String.append "+91" (digits_of phone))
                 = String.append "+91" (digits_of phone))
      by (destruct (String.length (digits_of phone) =? 10)%nat; reflexivity).
    rewrite Hf. apply getPhoneWithoutCountryCode_strip. }
  split; [exact H|]. intros Hd. rewrite H. apply digits_of_digits, Hd.
Qed.

Lemma phone_country_code_round_trip_witness :
  getPhoneWithoutCountryCode (formatPhoneNumber "98765 43210") = "9876543210".
Proof.
  apply (phone_country_code_round_trip "98765 43210"); reflexivity.
Defined.

(* ================================================================== *)
(** * Further properties of the credential store and of the refresh *)
(* ================================================================== *)

(** [requireToken] returns a bearer credential exactly when the store
    holds a record (in the cache, else on file) whose token is a non-empty
    string; in every other case, an unreadable or missing file included, it
    throws the not-authenticated error and nothing else. *)
Theorem requireToken_characterised (tm0 : TokenManager) (b : string) :
  (fst (requireToken tm0) = Ok b
   <-> exists t, stored_record tm0 = Some t /\ token t = Some b /\ b <> "")
  /\ (forall e, fst (requireToken tm0) = Throw e -> e = Err NOT_AUTHENTICATED).
Proof.
  assert (Hreq : forall t,
             stored_record tm0 = Some t ->
             fst (requireToken tm0)
             = if truthy (token t) then Ok (value_of (token t))
               else Throw (Err NOT_AUTHENTICATED)).
  { intros t Ht. unfold stored_record in Ht. unfold requireToken, bind.
    destruct tm0 as [[c|] [[| |u] wr]]; cbn in Ht |- *; inversion Ht; subst;
      destruct (truthy (token t)); reflexivity. }
  assert (Hnone : stored_record tm0 = None ->
                  fst (requireToken tm0) = Throw (Err NOT_AUTHENTICATED)).
  { unfold stored_record.
    destruct tm0 as [[c|] [[| |u] wr]]; cbn; intros H;
      first [discriminate H|reflexivity]. }
  destruct (stored_record tm0) as [t|] eqn:Hst.
  - rewrite (Hreq t eq_refl). split.
    + split.
      * destruct (token t) as [s|] eqn:Htok; cbn; [|discriminate].
        destruct (String.eqb_spec s ""); cbn; [discriminate|].
        intros H. inversion H; subst. exists t. auto.
      * intros (t' & Ht' & Htok & Hne). inversion Ht'; subst t'.
        rewrite Htok. cbn. destruct (String.eqb_spec b ""); [contradiction|].
        reflexivity.
    + intros e. destruct (truthy (token t)); congruence.
  - rewrite (Hnone eq_refl). split.
    + split; [discriminate|]. intros (t & Ht & _). discriminate.
    + congruence.
Qed.

Lemma requireToken_characterised_witness :
  fst (requireToken sessionManager) = Ok "b1".
Proof.
  apply (proj1 (requireToken_characterised sessionManager "b1")).
  exists loggedIn. repeat split. discriminate.
Defined.

(** Clearing twice is clearing once: [clearToken] never throws and a second
    call leaves the store as the first left it, whether the file can be
    written or not. *)
Theorem clearToken_idempotent (tm0 : TokenManager) :
  fst (clearToken tm0) = Ok tt
  /\ clearToken (snd (clearToken tm0)) = (Ok tt, snd (clearToken tm0))
  /\ cachedToken (snd (clearToken tm0)) = None.
Proof.
  destruct tm0 as [c [f [|]]]; repeat split.
Qed.


Section UndecodableToken.

Variable parse_payload : string -> option (option DecodedJWT).
Variable replies : nat -> Reply LoginResponse.


End UndecodableToken.


(* ================================================================== *)
(** * Properties of the explicit refresh *)
(* ================================================================== *)

Section ExplicitRefresh.

Variable decodeJWT : string -> option DecodedJWT.
Variable replies : nat -> Reply LoginResponse.
Variable texts : nat -> string.

(** A 401 or 403 from the refresh endpoint makes [refreshAccessToken]
    clear the store itself, after its one post, before it throws: with a
    writable token file the next [requireToken] fails. *)
Theorem explicit_refresh_unauthorized_clears (w : World) (td : AuthToken)
    (tm1 : TokenManager) (st : option Z) :
  loadToken (tm w) = (Ok (Some td), tm1) ->
  truthy (refreshToken td) = true ->
  replies (refresh_posts w) = Rejected st -> unauthorized st = true ->
  writable (disk (tm w)) = true ->
  refreshAccessToken decodeJWT replies texts w
  = (Throw (Err REFRESH_EXPIRED_LOGIN_AGAIN),
     mkWorld clearedManager (S (refresh_posts w)) (renewals w) (api_requests w))
  /\ fst (requireToken clearedManager) = Throw (Err NOT_AUTHENTICATED).
Proof.
  intros Hl Ht Hr Hu Hw. split; [|reflexivity].
  unfold refreshAccessToken, try_catch, bind, on_store at 1.
  rewrite Hl, Ht. cbn [negb]. unfold refresh_post. cbn [tm refresh_posts].
  rewrite Hr. cbn [isAxiosError]. unfold unauthorized in Hu. rewrite Hu.
  unfold on_store, throw. cbn [tm refresh_posts renewals api_requests].
  rewrite clearToken_writable; [reflexivity|].
  rewrite (loadToken_disk _ _ _ Hl). exact Hw.
Qed.

(** Any other rejection (a 400, a 5xx, no response) ends
    [refreshAccessToken] after its one post, without a retry, and leaves the
    session in the store. *)
Theorem explicit_refresh_failure_keeps_session (w : World) (td : AuthToken)
    (tm1 : TokenManager) (st : option Z) :
  loadToken (tm w) = (Ok (Some td), tm1) ->
  truthy (refreshToken td) = true ->
  replies (refresh_posts w) = Rejected st -> unauthorized st = false ->
  refreshAccessToken decodeJWT replies texts w
  = (Throw (Err (String.append "Token refresh failed: " (texts (refresh_posts w)))),
     mkWorld tm1 (S (refresh_posts w)) (renewals w) (api_requests w))
  /\ cachedToken tm1 = Some td.
Proof.
  intros Hl Ht Hr Hu. split; [|eapply loadToken_some; exact Hl].
  unfold refreshAccessToken, try_catch, bind, on_store at 1.
  rewrite Hl, Ht. cbn [negb]. unfold refresh_post. cbn [tm refresh_posts].
  rewrite Hr. cbn [isAxiosError]. unfold unauthorized in Hu. rewrite Hu.
  reflexivity.
Qed.


Lemma silentRefreshToken_missing (w : World) :
  (forall td, fst (loadToken (tm w)) = Ok (Some td) ->
              truthy (refreshToken td) = false) ->
  silentRefreshToken decodeJWT replies w
  = Some (Throw (Err REFRESH_TOKEN_MISSING),
          mkWorld (snd (loadToken (tm w))) (refresh_posts w) (S (renewals w))
            (api_requests w)).
Proof.
  intros Hno.
  destruct (loadToken_never_throws (tm w)) as (v & tm1 & Hl).
  rewrite Hl in Hno |- *. cbn [fst snd] in *.
  unfold silentRefreshToken. cbn [drive input_for driver_step tm]. rewrite Hl.
  destruct v as [td|]; [rewrite (Hno td eq_refl)|]; cbn;
    rewrite Nat.add_0_r; reflexivity.
Qed.

(** Without a renewal credential in the store neither refresh contacts the
    platform: both fail before any post. *)
Theorem refresh_needs_renewal_credential (w : World) :
  (forall td, fst (loadToken (tm w)) = Ok (Some td) ->
              truthy (refreshToken td) = false) ->
  refreshAccessToken decodeJWT replies texts w
  = (Throw (Err NO_REFRESH_TOKEN),
     mkWorld (snd (loadToken (tm w))) (refresh_posts w) (renewals w) (api_requests w))
  /\ silentRefreshToken decodeJWT replies w
     = Some (Throw (Err REFRESH_TOKEN_MISSING),
             mkWorld (snd (loadToken (tm w))) (refresh_posts w) (S (renewals w))
               (api_requests w)).
Proof.
  intros Hno. split; [|apply silentRefreshToken_missing; exact Hno].
  destruct (loadToken_never_throws (tm w)) as (v & tm1 & Hl).
  rewrite Hl in Hno |- *. cbn [fst snd] in *.
  unfold refreshAccessToken, try_catch, bind, on_store at 1. rewrite Hl.
  destruct v as [td|]; [rewrite (Hno td eq_refl)|]; reflexivity.
Qed.

End ExplicitRefresh.

Lemma explicit_refresh_unauthorized_clears_witness :
  refreshAccessToken noClaims (stream [Rejected (Some 401)] (Rejected None))
    serverText sessionWorld
  = (Throw (Err REFRESH_EXPIRED_LOGIN_AGAIN), mkWorld clearedManager 1 0 0)
  /\ fst (requireToken clearedManager) = Throw (Err NOT_AUTHENTICATED).
Proof.
  apply (explicit_refresh_unauthorized_clears noClaims
           (stream [Rejected (Some 401)] (Rejected None)) serverText
           sessionWorld loggedIn sessionManager (Some 401)); reflexivity.
Defined.

Lemma explicit_refresh_failure_keeps_session_witness :
  refreshAccessToken noClaims (stream [Rejected (Some 500)] (Rejected None))
    serverText sessionWorld
  = (Throw (Err "Token refresh failed: Request failed with status code 500"),
     mkWorld sessionManager 1 0 0)
  /\ cachedToken sessionManager = Some loggedIn.
Proof.
  apply (explicit_refresh_failure_keeps_session noClaims
           (stream [Rejected (Some 500)] (Rejected None)) serverText
           sessionWorld loggedIn sessionManager (Some 500)); reflexivity.
Defined.


Lemma refresh_needs_renewal_credential_witness :
  refreshAccessToken noClaims (stream [] (Response renewed)) serverText legacyWorld
  = (Throw (Err NO_REFRESH_TOKEN), legacyWorld)
  /\ silentRefreshToken noClaims (stream [] (Response renewed)) legacyWorld
     = Some (Throw (Err REFRESH_TOKEN_MISSING), mkWorld legacyManager 0 1 0).
Proof.
  apply (refresh_needs_renewal_credential noClaims (stream [] (Response renewed))
           serverText legacyWorld).
  intros td H. inversion H. reflexivity.
Defined.

(* ================================================================== *)
(** * Properties of logout and activation *)
(* ================================================================== *)

Lemma clearToken_ok (tm0 : TokenManager) :
  clearToken tm0 = (Ok tt, snd (clearToken tm0)).
Proof. destruct tm0 as [c [f [|]]]; reflexivity. Qed.

Section Logout.

Variable remote : nat -> Reply unit.

Lemma logout_logged_in (w : AuthWorld) (td : AuthToken) (tm1 : TokenManager) :
  loadToken (auth_store w) = (Ok (Some td), tm1) ->
  truthy (token td) = true ->
  logout remote w
  = (Ok LoggedOut, mkAuthWorld (snd (clearToken tm1)) (S (auth_posts w))).
Proof.
  intros Hl Ht.
  unfold logout, try_catch, bind, on_auth_store at 1. rewrite Hl, Ht.
  cbn [negb]. unfold auth_post. cbn [auth_store auth_posts].
  unfold on_auth_store, ret.
  destruct (remote (auth_posts w)) as [[]|st]; cbn [auth_store auth_posts];
    rewrite (clearToken_ok tm1); reflexivity.
Qed.

(** [logout] never throws and calls the logout endpoint at most once.  On
    a session with a bearer credential it calls the endpoint exactly once
    and clears the store whatever the endpoint answers; with a writable
    token file the next [requireToken] fails. *)
Theorem logout_clears_whatever_the_remote_says (w : AuthWorld) :
  (exists report w',
      logout remote w = (Ok report, w')
      /\ (auth_posts w <= auth_posts w' <= S (auth_posts w))%nat)
  /\ (forall td tm1,
         loadToken (auth_store w) = (Ok (Some td), tm1) ->
         truthy (token td) = true ->
         logout remote w
         = (Ok LoggedOut, mkAuthWorld (snd (clearToken tm1)) (S (auth_posts w)))
         /\ cachedToken (snd (clearToken tm1)) = None
         /\ (writable (disk (auth_store w)) = true ->
             snd (clearToken tm1) = clearedManager
             /\ fst (requireToken clearedManager) = Throw (Err NOT_AUTHENTICATED))).
Proof.
  split.
  - destruct (loadToken_never_throws (auth_store w)) as ([td|] & tm1 & Hl).
    + destruct (truthy (token td)) eqn:Ht.
      * rewrite (logout_logged_in w td tm1 Hl Ht).
        eexists _, _. split; [reflexivity|]. cbn. lia.
      * unfold logout, try_catch, bind, on_auth_store at 1. rewrite Hl, Ht.
        eexists _, _. split; [reflexivity|]. cbn. lia.
    + unfold logout, try_catch, bind, on_auth_store at 1. rewrite Hl.
      eexists _, _. split; [reflexivity|]. cbn. lia.
  - intros td tm1 Hl Ht. split; [exact (logout_logged_in w td tm1 Hl Ht)|].
    split; [destruct tm1 as [c [f [|]]]; reflexivity|].
    intros Hw. split; [|reflexivity].
    rewrite clearToken_writable; [reflexivity|].
    rewrite (loadToken_disk _ _ _ Hl). exact Hw.
Qed.

(** A second [logout] in a row finds nobody logged in: it reports so and
    does not call the endpoint again. *)
Theorem logout_twice (w : AuthWorld) (td : AuthToken) (tm1 : TokenManager) :
  loadToken (auth_store w) = (Ok (Some td), tm1) ->
  truthy (token td) = true ->
  writable (disk (auth_store w)) = true ->
  exists w1 w2,
    logout remote w = (Ok LoggedOut, w1)
    /\ logout remote w1 = (Ok NotLoggedIn, w2)
    /\ auth_posts w1 = S (auth_posts w)
    /\ auth_posts w2 = auth_posts w1
    /\ fst (requireToken (auth_store w2)) = Throw (Err NOT_AUTHENTICATED).
Proof.
  intros Hl Ht Hw.
  rewrite (logout_logged_in w td tm1 Hl Ht).
  rewrite clearToken_writable
    by (rewrite (loadToken_disk _ _ _ Hl); exact Hw).
  eexists _, _. split; [reflexivity|]. split; [reflexivity|]. repeat split.
Qed.

(** When the token file cannot be written, [logout] still reports success,
    but only the cache is emptied: the record on file survives and the next
    [requireToken] hands the bearer credential out again. *)
Theorem logout_unwritable_file_keeps_session (td : AuthToken) (n : nat)
    (cache : option AuthToken) :
  truthy (token td) = true ->
  cache = None \/ cache = Some td ->
  let w := mkAuthWorld (mkTokenManager cache (mkDisk (Json td) false)) n in
  fst (logout remote w) = Ok LoggedOut
  /\ cachedToken (auth_store (snd (logout remote w))) = None
  /\ fst (requireToken (auth_store (snd (logout remote w))))
     = Ok (value_of (token td)).
Proof.
  intros Ht Hc w.
  assert (Hl : loadToken (auth_store w)
               = (Ok (Some td), mkTokenManager (Some td) (mkDisk (Json td) false)))
    by (destruct Hc as [-> | ->]; reflexivity).
  rewrite (logout_logged_in w td _ Hl Ht). cbn [fst snd auth_store].
  split; [reflexivity|]. split; [reflexivity|].
  unfold requireToken, bind. cbn. rewrite Ht. reflexivity.
Qed.

End Logout.

Lemma logout_clears_whatever_the_remote_says_witness :
  logout logoutDown (mkAuthWorld sessionManager 0)
  = (Ok LoggedOut, mkAuthWorld clearedManager 1).
Proof.
  destruct (proj2 (logout_clears_whatever_the_remote_says logoutDown
                     (mkAuthWorld sessionManager 0))
              loggedIn sessionManager eq_refl eq_refl) as (H & _ & _).
  exact H.
Defined.

Lemma logout_twice_witness :
  exists w1 w2,
    logout logoutDown (mkAuthWorld sessionManager 0) = (Ok LoggedOut, w1)
    /\ logout logoutDown w1 = (Ok NotLoggedIn, w2)
    /\ auth_posts w1 = 1%nat
    /\ auth_posts w2 = auth_posts w1
    /\ fst (requireToken (auth_store w2)) = Throw (Err NOT_AUTHENTICATED).
Proof.
  apply (logout_twice logoutDown (mkAuthWorld sessionManager 0) loggedIn sessionManager);
    reflexivity.
Defined.

Lemma logout_unwritable_file_keeps_session_witness :
  fst (logout logoutDown
         (mkAuthWorld (mkTokenManager (Some loggedIn) (mkDisk (Json loggedIn) false)) 0))
  = Ok LoggedOut
  /\ fst (requireToken
            (auth_store
               (snd (logout logoutDown
                       (mkAuthWorld
                          (mkTokenManager (Some loggedIn) (mkDisk (Json loggedIn) false))
                          0)))))
     = Ok "b1".
Proof.
  destruct (logout_unwritable_file_keeps_session logoutDown loggedIn 0
              (Some loggedIn) eq_refl (or_intror eq_refl)) as (H1 & _ & H3).
  split; [exact H1|exact H3].
Defined.


Section Activation.

Variable decodeJWT : string -> option DecodedJWT.
Variable remote : nat -> Reply LoginResponse.
Variable texts : nat -> string.


(** An activation that fails, for whatever reason, costs one post and
    leaves the store as it was: a session that was open stays open. *)
Theorem failed_activation_keeps_store (phone : string) (w w' : AuthWorld)
    (e : JsError) :
  activateAccount decodeJWT remote texts phone w = (Throw e, w') ->
  auth_store w' = auth_store w /\ auth_posts w' = S (auth_posts w).
Proof.
  unfold activateAccount, try_catch, bind, auth_post.
  destruct (remote (auth_posts w)) as [data|st].
  - destruct (truthy (access_token data)); cbn [negb].
    + destruct (decodeJWT (value_of (access_token data))) as [claims|];
        cbn [claims_of].
      * unfold ret at 1.
        unfold on_auth_store. cbn [auth_store auth_posts].
        match goal with |- context [saveToken ?t (auth_store w)] =>
          destruct (saveToken t (auth_store w)) as [[[]|e'] tm'] eqn:Hs end.
        -- destruct (truthy _); cbn; discriminate.
        -- apply saveToken_throws in Hs as (-> & Hax & _). rewrite Hax.
           unfold throw. intros H. inversion H; subst. split; reflexivity.
      * cbn. unfold throw. intros H. inversion H; subst. split; reflexivity.
    + cbn. unfold throw. intros H. inversion H; subst. split; reflexivity.
  - cbn. unfold throw. intros H. inversion H; subst. split; reflexivity.
Qed.

End Activation.


Lemma failed_activation_keeps_store_witness :
  auth_store (snd (activateAccount noClaims (stream [] (Rejected (Some 400))) serverText
                     "98765 43210" (mkAuthWorld sessionManager 0)))
  = sessionManager.
Proof.
  apply (failed_activation_keeps_store noClaims (stream [] (Rejected (Some 400)))
           serverText "98765 43210" (mkAuthWorld sessionManager 0) _
           (Err "Activation failed: Request failed with status code 500")).
  reflexivity.
Defined.

(* ================================================================== *)
(** * Further properties of the request executor *)
(* ================================================================== *)

Section Executor.

Variable decodeJWT : string -> option DecodedJWT.
Context {B : Type}.
Variable api : nat -> string -> Reply B.
Variable replies : nat -> Reply LoginResponse.

(** A response, or a rejection that is not a 401/403, reaches the caller
    as it is after a single request: no renewal is started and the store is
    not touched, whether the request is a first sending or a retry. *)
Theorem client_passes_other_outcomes_through (cfg : RequestConfig) (w : World)
    (fuel : nat) :
  (forall st, api (api_requests w) (authorization cfg) = Rejected st ->
              unauthorized st = false) ->
  (1 <= fuel)%nat ->
  client decodeJWT api replies fuel cfg w
  = Some (match api (api_requests w) (authorization cfg) with
          | Response data => Ok data
          | Rejected st => Throw (AxiosError st)
          end,
          mkWorld (tm w) (refresh_posts w) (renewals w) (S (api_requests w))).
Proof.
  intros Hother Hfuel. destruct fuel as [|fuel]; [lia|].
  cbn [client].
  destruct (api (api_requests w) (authorization cfg)) as [data|st]; [reflexivity|].
  specialize (Hother st eq_refl). unfold unauthorized in Hother.
  rewrite Hother. reflexivity.
Qed.

(** A request rejected 401/403 whose renewal succeeds is sent once more
    with the new bearer credential, and when the platform accepts it the
    caller receives the response as if nothing had happened; the store then
    holds the new bearer credential. *)
Theorem renewal_is_transparent (h : string) (w w2 : World) (st : option Z)
    (newToken : string) (data : B) (fuel : nat) :
  api (api_requests w) h = Rejected st -> unauthorized st = true ->
  silentRefreshToken decodeJWT replies (sent w) = Some (Ok newToken, w2) ->
  api (S (api_requests w)) (bearer newToken) = Response data ->
  (2 <= fuel)%nat ->
  client decodeJWT api replies fuel (mkConfig h false) w = Some (Ok data, sent w2)
  /\ api_requests (sent w2) = (api_requests w + 2)%nat
  /\ fst (requireToken (tm w2)) = Ok newToken.
Proof.
  intros Hapi Hun Hrun Hretry Hfuel.
  destruct (silentRefreshToken_settles decodeJWT replies (sent w))
    as (r0 & w2' & Hrun' & _ & _ & Hreq).
  rewrite Hrun in Hrun'. inversion Hrun'; subst r0 w2'. cbn in Hreq.
  repeat split.
  - destruct fuel as [|[|fuel]]; [lia|lia|].
    remember (S fuel) as fuel' eqn:Hf.
    cbn [client authorization retry_flag].
    rewrite Hapi. unfold unauthorized in Hun. rewrite Hun. cbn [negb andb].
    fold (sent w). rewrite Hrun. subst fuel'.
    rewrite client_retried by reflexivity. cbn [authorization].
    rewrite Hreq, Hretry. reflexivity.
  - cbn. lia.
  - assert (Hold : exists old, fst (loadToken (tm (sent w))) = Ok (Some old)).
    { unfold silentRefreshToken in Hrun.
      cbn [drive input_for driver_step tm] in Hrun.
      destruct (loadToken (tm (sent w))) as [[[td|]|e] tm1]; [eauto|discriminate..]. }
    destruct Hold as [old Hold].
    destruct (drive_success decodeJWT replies 6 AwaitLoad _ w2 newToken old Hrun Hold)
      as (d & claims & _ & Hacc & Hne & _ & Htm).
    rewrite Htm, requireToken_of_cached; unfold replacement; cbn [token];
      rewrite Hacc; [reflexivity|].
    cbn. destruct newToken; [congruence|reflexivity].
Qed.

(** On a session without renewal credential a 401/403 is final: the caller
    gets the access-token-expired error, the refresh endpoint is never
    contacted, nothing is retried and the store is not cleared. *)
Theorem unauthorized_without_renewal_credential (h : string) (w : World)
    (st : option Z) (fuel : nat) :
  api (api_requests w) h = Rejected st -> unauthorized st = true ->
  (forall td, fst (loadToken (tm w)) = Ok (Some td) ->
              truthy (refreshToken td) = false) ->
  (1 <= fuel)%nat ->
  client decodeJWT api replies fuel (mkConfig h false) w
  = Some (Throw (Err ACCESS_TOKEN_EXPIRED),
          mkWorld (snd (loadToken (tm w))) (refresh_posts w) (S (renewals w))
            (S (api_requests w))).
Proof.
  intros Hapi Hun Hno Hfuel. destruct fuel as [|fuel]; [lia|].
  cbn [client authorization retry_flag].
  rewrite Hapi. unfold unauthorized in Hun. rewrite Hun. cbn [negb andb].
  fold (sent w).
  rewrite (silentRefreshToken_missing decodeJWT replies (sent w)) by exact Hno.
  reflexivity.
Qed.

End Executor.

Lemma client_passes_other_outcomes_through_witness :
  client noClaims (fun _ _ => Rejected (Some 500) : Reply string)
    (stream [] (Response renewed)) 2 (mkConfig (bearer "b1") false) sessionWorld
  = Some (Throw (AxiosError (Some 500)), mkWorld sessionManager 0 0 1).
Proof.
  apply (client_passes_other_outcomes_through noClaims
           (fun _ _ => Rejected (Some 500) : Reply string)
           (stream [] (Response renewed)) (mkConfig (bearer "b1") false) sessionWorld 2).
  - intros st H. inversion H. reflexivity.
  - lia.
Defined.

Lemma renewal_is_transparent_witness :
  client noClaims acceptsRenewed (stream [Response renewed] (Rejected None)) 2
    (mkConfig (bearer "b1") false) sessionWorld
  = Some (Ok "holdings", mkWorld renewedManager 1 1 2).
Proof.
  apply (renewal_is_transparent noClaims acceptsRenewed
           (stream [Response renewed] (Rejected None)) (bearer "b1") sessionWorld
           (mkWorld renewedManager 1 1 1) (Some 401) "b2" "holdings" 2);
    reflexivity.
Defined.

Lemma unauthorized_without_renewal_credential_witness :
  client noClaims alwaysUnauthorized (stream [] (Response renewed)) 2
    (mkConfig (bearer "b1") false) legacyWorld
  = Some (Throw (Err ACCESS_TOKEN_EXPIRED), mkWorld legacyManager 0 1 1).
Proof.
  apply (unauthorized_without_renewal_credential noClaims alwaysUnauthorized
           (stream [] (Response renewed)) (bearer "b1") legacyWorld (Some 401) 2);
    try reflexivity; try lia.
  intros td H. inversion H. reflexivity.
Defined.

(* ================================================================== *)
(** * Further properties of the polling loops *)
(* ================================================================== *)

(** When none of the probes a call may send is terminal, the call returns
    the timeout object after [maxAttempts] probes and as many waits: it
    waits once more after the last probe.  With [maxAttempts <= 0] that is
    no probe and no wait at all. *)
Theorem polling_timeout_accounting (maxAttempts intervalMs : Z) (w : PollWorld) :
  let after :=
    mkPollWorld (probes w + Z.to_nat maxAttempts)
      (slept w + Z.max 0 maxAttempts * Z.max 0 intervalMs) in
  (forall probe,
      (forall j, (j < Z.to_nat maxAttempts)%nat ->
                 payment_terminal (probe (probes w + j)%nat) = false) ->
      pollPaymentStatus probe maxAttempts intervalMs w = Some (Ok PAYMENT_TIMEOUT, after))
  /\ (forall probe,
         (forall j, (j < Z.to_nat maxAttempts)%nat ->
                    mandate_terminal (probe (probes w + j)%nat) = false) ->
         pollMandateStatus probe maxAttempts intervalMs w
         = Some (Ok MANDATE_TIMEOUT, after)).
Proof.
  intros after.
  assert (Hafter : 0 <= maxAttempts ->
                   after = after_pending intervalMs (Z.to_nat maxAttempts) w).
  { intros H. unfold after, after_pending. f_equal. f_equal. lia. }
  assert (Hneg : maxAttempts < 0 -> after = w).
  { intros H. unfold after. destruct w as [n t]. cbn [probes slept]. f_equal; lia. }
  split; intros probe Hpending.
  - unfold pollPaymentStatus. destruct (Z.ltb_spec maxAttempts 0) as [Hlt|Hge].
    + rewrite (Hneg Hlt). replace (Z.to_nat maxAttempts) with 0%nat by lia.
      cbn [poll_loop]. destruct (Z.leb_spec 1 maxAttempts); [lia|reflexivity].
    + rewrite (Hafter Hge).
      rewrite <- (Nat.add_1_r (Z.to_nat maxAttempts)).
      rewrite (poll_loop_skip _ _ maxAttempts intervalMs).
      * cbn [poll_loop].
        destruct (Z.leb_spec (1 + Z.of_nat (Z.to_nat maxAttempts)) maxAttempts);
          [lia|reflexivity].
      * lia.
      * intros j Hj. apply payment_iteration_pending, Hpending, Hj.
  - unfold pollMandateStatus. destruct (Z.ltb_spec maxAttempts 0) as [Hlt|Hge].
    + rewrite (Hneg Hlt). replace (Z.to_nat maxAttempts) with 0%nat by lia.
      cbn [poll_loop]. destruct (Z.leb_spec 1 maxAttempts); [lia|reflexivity].
    + rewrite (Hafter Hge).
      rewrite <- (Nat.add_1_r (Z.to_nat maxAttempts)).
      rewrite (poll_loop_skip _ _ maxAttempts intervalMs).
      * cbn [poll_loop].
        destruct (Z.leb_spec (1 + Z.of_nat (Z.to_nat maxAttempts)) maxAttempts);
          [lia|reflexivity].
      * lia.
      * intros j Hj. apply mandate_iteration_pending, Hpending, Hj.
Qed.

Lemma polling_timeout_accounting_witness :
  pollPaymentStatus (stream [] pendingPayment) 3 5000 pollStart
  = Some (Ok PAYMENT_TIMEOUT, mkPollWorld 3 15000)
  /\ pollMandateStatus (stream [] newMandate) 0 10000 pollStart
     = Some (Ok MANDATE_TIMEOUT, pollStart).
Proof.
  split.
  - apply (proj1 (polling_timeout_accounting 3 5000 pollStart)).
    intros j _. destruct j as [|[|[|j]]]; reflexivity.
  - apply (proj2 (polling_timeout_accounting 0 10000 pollStart)).
    intros j Hj. cbn in Hj. lia.
Defined.

(** Payment confirmation stops at the first probe that answers with status
    [FAILURE] and data containing [101|]: after pending probes only, the
    call returns the rejected object carrying that data, with no wait after
    the probe that decided. *)
Theorem payment_poll_stops_at_first_rejection
    (probe : nat -> Reply (option PaymentBody)) (maxAttempts intervalMs : Z)
    (w : PollWorld) (k : nat) (b : PaymentBody) (d : string) :
  Z.of_nat k < maxAttempts ->
  (forall j, (j < k)%nat -> payment_terminal (probe (probes w + j)%nat) = false) ->
  probe (probes w + k)%nat = Response (Some b) ->
  pay_status b = Some "FAILURE" ->
  pay_data b = Some d ->
  includes "101|" d = true ->
  pollPaymentStatus probe maxAttempts intervalMs w
  = Some (Ok (mkPollResult false "REJECTED" d),
          mkPollWorld (probes w + k + 1) (slept w + Z.of_nat k * Z.max 0 intervalMs)).
Proof.
  intros Hk Hpending Hprobe Hst Hd Hinc.
  unfold pollPaymentStatus.
  replace (S (Z.to_nat maxAttempts))
    with (k + S (Z.to_nat maxAttempts - k))%nat by lia.
  rewrite (poll_loop_skip _ _ maxAttempts intervalMs).
  - cbn [poll_loop].
    destruct (Z.leb_spec (1 + Z.of_nat k) maxAttempts); [|lia].
    unfold payment_iteration, try_catch, bind, post, ret.
    cbn [after_pending probes slept]. rewrite Hprobe.
    unfold payment_approved, payment_rejected. rewrite Hst, Hd. cbn.
    rewrite Hinc. cbn. do 3 f_equal. lia.
  - lia.
  - intros j Hj. apply payment_iteration_pending, Hpending, Hj.
Qed.

Lemma payment_poll_stops_at_first_rejection_witness :
  pollPaymentStatus (stream [pendingPayment; rejectedPayment] pendingPayment)
    60 5000 pollStart
  = Some (Ok (mkPollResult false "REJECTED" "101|rejected"),
          mkPollWorld (0 + 1 + 1) (0 + Z.of_nat 1 * Z.max 0 5000)).
Proof.
  apply (payment_poll_stops_at_first_rejection
           (stream [pendingPayment; rejectedPayment] pendingPayment) 60 5000
           pollStart 1%nat (mkPaymentBody (Some "FAILURE") (Some "101|rejected"))
           "101|rejected"); try reflexivity; try lia.
  intros [|j] Hj; [reflexivity|lia].
Defined.

(** Mandate confirmation stops at the first probe whose first mandate
    entry has one of the three accepted statuses, [UNDER PROCESSING]
    included: after pending probes only, the call returns success with that
    status and that entry. *)
Theorem mandate_poll_stops_at_first_approval
    (probe : nat -> Reply (option MandateBody)) (maxAttempts intervalMs : Z)
    (w : PollWorld) (k : nat) (body : MandateBody) (d : MandateDetail)
    (others : list MandateDetail) (s : string) :
  Z.of_nat k < maxAttempts ->
  (forall j, (j < k)%nat -> mandate_terminal (probe (probes w + j)%nat) = false) ->
  probe (probes w + k)%nat = Response (Some body) ->
  body_details body = Some (d :: others) ->
  detail_status d = Some s ->
  mandate_approved (Some s) = true ->
  pollMandateStatus probe maxAttempts intervalMs w
  = Some (Ok (mkPollResult true s (Detail d)),
          mkPollWorld (probes w + k + 1) (slept w + Z.of_nat k * Z.max 0 intervalMs)).
Proof.
  intros Hk Hpending Hprobe Hdet Hst Happ.
  assert (Hms : mandateStatus_of (Some body) = Some s).
  { unfold mandateStatus_of, mandateDetails_of. cbn. rewrite Hdet. cbn.
    rewrite Hst. unfold js_or.
    destruct (truthy (Some s)) eqn:Ht; [reflexivity|].
    cbn in Ht. apply negb_false_iff, String.eqb_eq in Ht. subst s. discriminate Happ. }
  unfold pollMandateStatus.
  replace (S (Z.to_nat maxAttempts))
    with (k + S (Z.to_nat maxAttempts - k))%nat by lia.
  rewrite (poll_loop_skip _ _ maxAttempts intervalMs).
  - cbn [poll_loop].
    destruct (Z.leb_spec (1 + Z.of_nat k) maxAttempts); [|lia].
    unfold mandate_iteration, try_catch, bind, post, ret.
    cbn [after_pending probes slept]. rewrite Hprobe, Hms, Happ.
    unfold mandate_payload, mandateDetails_of. cbn. rewrite Hdet. cbn.
    do 3 f_equal. lia.
  - lia.
  - intros j Hj. apply mandate_iteration_pending, Hpending, Hj.
Qed.

Lemma mandate_poll_stops_at_first_approval_witness :
  pollMandateStatus
    (stream [newMandate]
       (Response (Some (mkMandateBody (Some [underProcessing]) None))))
    60 10000 pollStart
  = Some (Ok (mkPollResult true "UNDER PROCESSING" (Detail underProcessing)),
          mkPollWorld (0 + 1 + 1) (0 + Z.of_nat 1 * Z.max 0 10000)).
Proof.
  apply (mandate_poll_stops_at_first_approval
           (stream [newMandate]
              (Response (Some (mkMandateBody (Some [underProcessing]) None))))
           60 10000 pollStart 1%nat (mkMandateBody (Some [underProcessing]) None)
           underProcessing [] "UNDER PROCESSING"); try reflexivity; try lia.
  intros [|j] Hj; [reflexivity|lia].
Defined.

(* ================================================================== *)
(** * Properties of the one-shot payment check *)
(* ================================================================== *)

Lemma loadToken_again (tm0 tm1 : TokenManager) (td : AuthToken) :
  loadToken tm0 = (Ok (Some td), tm1) -> loadToken tm1 = (Ok (Some td), tm1).
Proof.
  destruct tm0 as [[t|] [[| |u] wr]]; cbn; intros H; inversion H; reflexivity.
Qed.

Lemma requireToken_throws (tm0 tm1 : TokenManager) (e : JsError) :
  requireToken tm0 = (Throw e, tm1) -> e = Err NOT_AUTHENTICATED.
Proof.
  unfold requireToken, bind.
  destruct (loadToken tm0) as [[[td|]|e'] tm'] eqn:Hl.
  - destruct (truthy (token td)); unfold ret, throw; congruence.
  - unfold throw. congruence.
  - destruct (loadToken_never_throws tm0) as (v & t & Hv). congruence.
Qed.

(** The loop handed a client that is a stream of answers is the loop of
    [pollPaymentStatus] above: the two embeddings of lines 586-646 agree. *)
Lemma payment_iteration_with_stream (probe : nat -> Reply (option PaymentBody))
    (intervalMs : Z) (w : PollWorld) :
  payment_iteration_with (total (post probe)) sleep intervalMs w
  = Some (payment_iteration probe intervalMs w).
Proof.
  unfold payment_iteration_with, payment_iteration, try_catch_partial,
    bind_partial, try_catch, bind, total, post.
  destruct (probe (probes w)) as [[b|]|st]; try reflexivity.
  destruct (payment_approved b); [reflexivity|].
  destruct (payment_rejected b); reflexivity.
Qed.

Lemma pollPaymentStatus_with_stream (probe : nat -> Reply (option PaymentBody))
    (maxAttempts intervalMs : Z) (w : PollWorld) :
  pollPaymentStatus_with (total (post probe)) sleep maxAttempts intervalMs w
  = pollPaymentStatus probe maxAttempts intervalMs w.
Proof.
  unfold pollPaymentStatus_with, pollPaymentStatus.
  generalize (S (Z.to_nat maxAttempts)) as fuel. generalize 1 as attempt.
  intros attempt fuel. revert attempt w.
  induction fuel as [|fuel IH]; intros attempt w; [reflexivity|].
  cbn [poll_loop_with poll_loop].
  destruct (attempt <=? maxAttempts); [|reflexivity].
  rewrite payment_iteration_with_stream.
  destruct (payment_iteration probe intervalMs w) as [[[r|]|e] w'];
    try reflexivity.
  apply IH.
Qed.

Section PaymentCheck.

Variable decodeJWT : string -> option DecodedJWT.
Variable toUpperCase : string -> string.
Variable platform : string -> OrderNo -> nat -> string -> Reply (option PaymentBody).
Variable replies : nat -> Reply LoginResponse.

(** With a session that has a bearer credential and a client code, the
    check is one call of the authenticated client followed by the report on
    what that call returned or threw, after the one-second wait of the
    polling loop unless the answer is terminal. *)
Lemma checkPaymentStatus_through_client (orderNumber : string) (w : CheckWorld)
    (td : AuthToken) (tm1 : TokenManager) (r : Result (option PaymentBody))
    (world' : World) :
  loadToken (tm (check_world w)) = (Ok (Some td), tm1) ->
  truthy (token td) = true ->
  truthy (clientCode td) = true ->
  client decodeJWT
    (platform (toUpperCase (hd EmptyString (split_on "-" (value_of (clientCode td)))))
       (orderNumbers_of orderNumber))
    replies 2 (mkConfig (bearer (value_of (token td))) false)
    (check_world (with_store tm1 w)) = Some (r, world') ->
  checkPaymentStatus decodeJWT toUpperCase platform replies orderNumber w
  = Some (Ok (call_outcome r),
          mkCheckWorld world'
            (check_slept w + (if call_terminal r then 0 else 1000))).
Proof.
  intros Hl Ht Hc Hcall.
  unfold checkPaymentStatus.
  unfold requireToken at 1, bind. rewrite Hl, Ht. unfold ret.
  unfold getClientCode, bind. rewrite (loadToken_again _ _ _ Hl), Hc.
  cbn [negb]. unfold ret.
  unfold pollPaymentStatus_with.
  change (Z.to_nat 1) with 1%nat. cbn [poll_loop_with].
  change (1 <=? 1) with true. cbv iota.
  unfold payment_iteration_with, try_catch_partial, bind_partial.
  unfold authenticated_post at 1. rewrite Hcall.
  unfold call_outcome, call_terminal.
  destruct r as [[b|]|e].
  - destruct (payment_approved b) eqn:Ha.
    + cbn. rewrite Z.add_0_r. reflexivity.
    + destruct (payment_rejected b) eqn:Hr.
      * cbn. rewrite Z.add_0_r. reflexivity.
      * cbn. change (1 + 1 <=? 1) with false. cbv iota. reflexivity.
  - cbn. change (1 + 1 <=? 1) with false. cbv iota. reflexivity.
  - cbn. change (1 + 1 <=? 1) with false. cbv iota. reflexivity.
Qed.

(** With a session that has a bearer credential and a client code,
    [checkPaymentStatus] never throws and makes one call of the client,
    which goes through the interceptor.  A probe that is answered, or
    rejected with a status other than 401/403, is the only request and the
    store stays as it is: the report is success or failure when the answer
    says so and pending in every other case, after the one-second wait of
    the polling loop.  A probe rejected 401/403 starts a renewal: when the
    renewal succeeds the probe is sent once more with the new bearer
    credential, the report is read from that second answer and the store
    holds the replacement record; when the renewal fails no second request
    is sent, the report is pending, and the store has been cleared if the
    renewal credential had expired. *)
Theorem checkPaymentStatus_goes_through_the_interceptor (orderNumber : string)
    (w : CheckWorld) (td : AuthToken) (tm1 : TokenManager) :
  loadToken (tm (check_world w)) = (Ok (Some td), tm1) ->
  truthy (token td) = true ->
  truthy (clientCode td) = true ->
  let clientCode :=
    toUpperCase (hd EmptyString (split_on "-" (value_of (clientCode td)))) in
  let api := platform clientCode (orderNumbers_of orderNumber) in
  let h := bearer (value_of (token td)) in
  let w1 := check_world (with_store tm1 w) in
  let n := api_requests (check_world w) in
  let report reply world :=
    Some (Ok (probe_outcome reply),
          mkCheckWorld world
            (check_slept w + (if payment_terminal reply then 0 else 1000))) in
  let check := checkPaymentStatus decodeJWT toUpperCase platform replies orderNumber w in
  ((forall st, api n h = Rejected st -> unauthorized st = false) ->
   check = report (api n h) (sent w1))
  /\ (forall st newToken w2,
         api n h = Rejected st -> unauthorized st = true ->
         silentRefreshToken decodeJWT replies (sent w1) = Some (Ok newToken, w2) ->
         check = report (api (S n) (bearer newToken)) (sent w2)
         /\ fst (requireToken (tm w2)) = Ok newToken)
  /\ (forall st e w2,
         api n h = Rejected st -> unauthorized st = true ->
         silentRefreshToken decodeJWT replies (sent w1) = Some (Throw e, w2) ->
         check
         = Some (Ok Timeout,
                 mkCheckWorld
                   (match classify e with
                    | RenewalCredentialExpired =>
                        mkWorld (snd (clearToken (tm w2))) (refresh_posts w2)
                          (renewals w2) (S n)
                    | RenewalFailed => w2
                    end)
                   (check_slept w + 1000))
         /\ api_requests w2 = S n)
  /\ (exists outcome w',
         check = Some (Ok outcome, w')
         /\ (n < api_requests (check_world w') <= n + 2)%nat
         /\ (renewals (check_world w) <= renewals (check_world w')
             <= renewals (check_world w) + 1)%nat).
Proof.
  intros Hl Ht Hc cc api h w1 n report check.
  assert (Hother : (forall st, api n h = Rejected st -> unauthorized st = false) ->
                   check = report (api n h) (sent w1)).
  { intros Hno. unfold check, report.
    rewrite (checkPaymentStatus_through_client orderNumber w td tm1
               (match api n h with
                | Response data => Ok data
                | Rejected st => Throw (AxiosError st)
                end) (sent w1) Hl Ht Hc).
    - destruct (api n h) as [[b|]|st]; reflexivity.
    - fold cc api h w1. cbn [client authorization retry_flag].
      change (api_requests w1) with n.
      destruct (api n h) as [data|st]; [reflexivity|].
      specialize (Hno st eq_refl). unfold unauthorized in Hno. rewrite Hno.
      reflexivity. }
  assert (Hrenewed : forall st newToken w2,
             api n h = Rejected st -> unauthorized st = true ->
             silentRefreshToken decodeJWT replies (sent w1) = Some (Ok newToken, w2) ->
             check = report (api (S n) (bearer newToken)) (sent w2)
             /\ fst (requireToken (tm w2)) = Ok newToken).
  { intros st newToken w2 Hapi Hun Hrun.
    destruct (silentRefreshToken_settles decodeJWT replies (sent w1))
      as (r0 & w2' & Hrun' & _ & _ & Hreq).
    rewrite Hrun in Hrun'. inversion Hrun'; subst r0 w2'.
    cbn [sent api_requests] in Hreq. change (api_requests w1) with n in Hreq.
    split.
    - unfold check, report.
      rewrite (checkPaymentStatus_through_client orderNumber w td tm1
                 (match api (S n) (bearer newToken) with
                  | Response data => Ok data
                  | Rejected st2 => Throw (AxiosError st2)
                  end) (sent w2) Hl Ht Hc).
      + destruct (api (S n) (bearer newToken)) as [[b|]|st2]; reflexivity.
      + fold cc api h w1.
        rewrite (client_renewed decodeJWT api replies 2 h w1 w2 st newToken
                   ltac:(lia) Hapi Hun Hrun).
        rewrite Hreq. reflexivity.
    - assert (Hold : exists old, fst (loadToken (tm (sent w1))) = Ok (Some old)).
      { unfold silentRefreshToken in Hrun.
        cbn [drive input_for driver_step tm] in Hrun.
        destruct (loadToken (tm (sent w1))) as [[[t|]|e] tm2];
          [eauto|discriminate..]. }
      destruct Hold as [old Hold].
      destruct (drive_success decodeJWT replies 6 AwaitLoad _ w2 newToken old Hrun Hold)
        as (d & claims & _ & Hacc & Hne & _ & Htm).
      rewrite Htm, requireToken_of_cached; unfold replacement; cbn [token];
        rewrite Hacc; [reflexivity|].
      cbn. destruct newToken; [congruence|reflexivity]. }
  assert (Hfailed : forall st e w2,
             api n h = Rejected st -> unauthorized st = true ->
             silentRefreshToken decodeJWT replies (sent w1) = Some (Throw e, w2) ->
             check
             = Some (Ok Timeout,
                     mkCheckWorld
                       (match classify e with
                        | RenewalCredentialExpired =>
                            mkWorld (snd (clearToken (tm w2))) (refresh_posts w2)
                              (renewals w2) (S n)
                        | RenewalFailed => w2
                        end)
                       (check_slept w + 1000))
             /\ api_requests w2 = S n).
  { intros st e w2 Hapi Hun Hrun.
    destruct (silentRefreshToken_settles decodeJWT replies (sent w1))
      as (r0 & w2' & Hrun' & _ & _ & Hreq).
    rewrite Hrun in Hrun'. inversion Hrun'; subst r0 w2'.
    cbn [sent api_requests] in Hreq. change (api_requests w1) with n in Hreq.
    split; [|exact Hreq].
    pose proof (client_renewal_failed decodeJWT api replies 2 h w1 w2 st e
                  ltac:(lia) Hapi Hun Hrun) as Hcall.
    rewrite Hreq in Hcall.
    unfold check.
    destruct (classify e).
    - rewrite (checkPaymentStatus_through_client orderNumber w td tm1
                 _ _ Hl Ht Hc Hcall). reflexivity.
    - rewrite (checkPaymentStatus_through_client orderNumber w td tm1
                 _ _ Hl Ht Hc Hcall). reflexivity. }
  split; [exact Hother|]. split; [exact Hrenewed|]. split; [exact Hfailed|].
  assert (Hren1 : renewals w1 = renewals (check_world w)) by reflexivity.
  destruct (api n h) as [data|st] eqn:Hapi.
  - rewrite Hother by (intros st H; discriminate H).
    unfold report. eexists _, _. split; [reflexivity|].
    unfold n, w1, with_store. cbn [check_world sent api_requests renewals]. lia.
  - destruct (unauthorized st) eqn:Hun.
    + destruct (silentRefreshToken_settles decodeJWT replies (sent w1))
        as (r0 & w2 & Hrun & _ & Hren & Hreq).
      unfold n, w1, with_store in Hreq, Hren.
      cbn [check_world sent api_requests renewals] in Hreq, Hren.
      destruct r0 as [newToken|e].
      * destruct (Hrenewed st newToken w2 eq_refl Hun Hrun) as [-> _].
        unfold report. eexists _, _. split; [reflexivity|].
        unfold n. cbn [check_world sent api_requests renewals]. lia.
      * destruct (Hfailed st e w2 eq_refl Hun Hrun) as [-> _].
        eexists _, _. split; [reflexivity|].
        unfold n. cbn [check_world]. destruct (classify e);
          cbn [api_requests renewals]; lia.
    + rewrite Hother by (intros st' H; inversion H; subst; exact Hun).
      unfold report. eexists _, _. split; [reflexivity|].
      unfold n, w1, with_store. cbn [check_world sent api_requests renewals]. lia.
Qed.

(** Without a usable session [checkPaymentStatus] fails before any probe
    is sent: with the not-authenticated error when the store holds no
    bearer credential, with the client-code error when the session has no
    client code yet. *)
Theorem checkPaymentStatus_needs_session (orderNumber : string) (w : CheckWorld) :
  (forall e tm1,
      requireToken (tm (check_world w)) = (Throw e, tm1) ->
      checkPaymentStatus decodeJWT toUpperCase platform replies orderNumber w
      = Some (Throw (Err (String.append "Payment status check failed: "
                            NOT_AUTHENTICATED)),
              with_store tm1 w))
  /\ (forall td tm1,
         loadToken (tm (check_world w)) = (Ok (Some td), tm1) ->
         truthy (token td) = true ->
         truthy (clientCode td) = false ->
         checkPaymentStatus decodeJWT toUpperCase platform replies orderNumber w
         = Some (Throw (Err (String.append "Payment status check failed: "
                               CLIENT_CODE_NOT_FOUND)),
                 with_store tm1 w)).
Proof.
  split.
  - intros e tm1 Hreq. unfold checkPaymentStatus. rewrite Hreq.
    rewrite (requireToken_throws _ _ _ Hreq). reflexivity.
  - intros td tm1 Hl Ht Hc. unfold checkPaymentStatus.
    unfold requireToken at 1, bind. rewrite Hl, Ht. unfold ret.
    unfold getClientCode, bind. rewrite (loadToken_again _ _ _ Hl), Hc.
    reflexivity.
Qed.

End PaymentCheck.

(** A probe rejected 401, a renewal that succeeds, and the probe sent again
    with the new bearer credential: two requests, one refresh post, the
    replacement record in the store and the report of the second answer. *)
Lemma checkPaymentStatus_goes_through_the_interceptor_witness :
  checkPaymentStatus noClaims asciiUpper approvesRenewed
    (stream [Response renewed] (Rejected None)) "ORD-1, ORD-2"
    (checkStart sessionManager)
  = Some (Ok Success, mkCheckWorld (mkWorld renewedManager 1 1 2) 0)
  /\ fst (requireToken renewedManager) = Ok "b2".
Proof.
  exact (proj1 (proj2 (checkPaymentStatus_goes_through_the_interceptor noClaims
                         asciiUpper approvesRenewed
                         (stream [Response renewed] (Rejected None)) "ORD-1, ORD-2"
                         (checkStart sessionManager) loggedIn sessionManager
                         eq_refl eq_refl eq_refl))
           (Some 401) "b2" (mkWorld renewedManager 1 1 1) eq_refl eq_refl eq_refl).
Defined.

Lemma checkPaymentStatus_needs_session_witness :
  checkPaymentStatus noClaims asciiUpper pendingPlatform (stream [] (Rejected None))
    "ORD-1" (checkStart freshManager)
  = Some (Throw (Err (String.append "Payment status check failed: " NOT_AUTHENTICATED)),
          checkStart freshManager)
  /\ checkPaymentStatus noClaims asciiUpper pendingPlatform (stream [] (Rejected None))
       "ORD-1" (checkStart legacyManager)
     = Some (Throw (Err (String.append "Payment status check failed: "
                           CLIENT_CODE_NOT_FOUND)),
             checkStart legacyManager).
Proof.
  split.
  - apply (proj1 (checkPaymentStatus_needs_session noClaims asciiUpper pendingPlatform
                    (stream [] (Rejected None)) "ORD-1" (checkStart freshManager))
             (Err NOT_AUTHENTICATED) freshManager).
    reflexivity.
  - apply (proj2 (checkPaymentStatus_needs_session noClaims asciiUpper pendingPlatform
                    (stream [] (Rejected None)) "ORD-1" (checkStart legacyManager))
             legacyRecord legacyManager); reflexivity.
Defined.

(* ================================================================== *)
(** * A call that nothing overlaps *)
(* ================================================================== *)

(** In any reachable state with no refresh in progress, a call of
    [silentRefreshToken] that no other call overlaps is served by a run of
    the machine that delivers to it exactly the outcome, the store and the
    number of posts of one execution of the refresh body, and leaves the
    handle null. *)
Theorem sole_caller_gets_one_execution (decodeJWT : string -> option DecodedJWT)
    (replies : nat -> Reply LoginResponse) (m : Machine) (c : nat) (w w' : World)
    (r : Result string) :
  reachable decodeJWT m -> refreshTokenPromise m = None ->
  store m = tm w -> outbound m = refresh_posts w ->
  silentRefreshToken decodeJWT replies w = Some (r, w') ->
  exists evs m',
    run decodeJWT m (Renew c :: evs) = Some m'
    /\ callers evs = []
    /\ returned m' = (c, next_promise m) :: returned m
    /\ delivered m' (next_promise m) = Some r
    /\ refreshTokenPromise m' = None
    /\ store m' = tm w' /\ outbound m' = refresh_posts w'.
Proof.
  intros Hreach. apply sole_caller_is_served_sequentially.
  apply (reachable_Inv decodeJWT), Hreach.
Qed.

Lemma sole_caller_gets_one_execution_witness :
  exists evs m',
    run noClaims (boot sessionManager) (Renew 7 :: evs) = Some m'
    /\ callers evs = []
    /\ returned m' = [(7, 0)]%nat
    /\ delivered m' 0 = Some (Ok "b2")
    /\ refreshTokenPromise m' = None
    /\ store m' = renewedManager /\ outbound m' = 1%nat.
Proof.
  apply (sole_caller_gets_one_execution noClaims
           (stream [Response renewed] (Rejected None)) (boot sessionManager) 7
           sessionWorld renewedWorld (Ok "b2")
           (boot_reachable noClaims sessionManager)); reflexivity.
Defined.
